(** * PicoDisp: the time-series and chart engine of [main.py]

    A shallow embedding of the algorithmic core of the BTC ticker
    ([src/main.py], [src/display.py]) and the properties its
    specification states about it.

    Conventions of the embedding.
    - Python [int] is [Z]; [//] and [%] with a positive divisor are
      [Z.div] and [Z.modulo] (both floor).
    - A Python exception is the outcome [Raise e]; a [while] loop is a
      function over a fuel counter whose exhaustion is the outcome
      [OutOfFuel] (never a Python behaviour: a run that is [OutOfFuel]
      for every fuel is a run that does not return).
    - The numbers of the program go through the interface [Num]: the
      operations the program applies to them.  Two instances are given.
      [exact] computes in the rationals [Q], that is, without rounding;
      theorems stated in exact arithmetic are proved there.
      [ieee prec emax] computes as Python does, on [pynum]: an [int] of
      any size or a float of IEEE 754 binary floating point with
      round-to-nearest-even ([binary64] is the CPython [float],
      [binary32] the float of a single-precision build); an operation
      on two ints is exact, an int that meets a float is converted.
    - The frame buffer [fb] is the log of the drawing calls made on it,
      in call order. *)

From Stdlib Require Import ZArith QArith Qround Qpower Qabs Qminmax.
From Stdlib Require Import List Bool String Lia Lqa.
From Stdlib Require Import Floats.SpecFloat.
Import ListNotations.

Local Open Scope Z_scope.

(** ** Outcomes of a call *)

Inductive exn : Type :=
| IndexError
| ZeroDivisionError
| ValueError
| OverflowError.

Inductive res (A : Type) : Type :=
| Ok (a : A)
| Raise (e : exn)
| OutOfFuel.

Arguments Ok {A} a.
Arguments Raise {A} e.
Arguments OutOfFuel {A}.

Definition bind {A B : Type} (m : res A) (k : A -> res B) : res B :=
  match m with
  | Ok a => k a
  | Raise e => Raise e
  | OutOfFuel => OutOfFuel
  end.

Notation "x <- m ;; k" := (bind m (fun x => k))
  (at level 61, m at next level, right associativity).

Definition returns {A : Type} (m : res A) : Prop := exists a, m = Ok a.

(** ** Python sequences *)

Definition len {A : Type} (l : list A) : Z := Z.of_nat (List.length l).

(** [l[i]]: a negative index counts from the end, an index outside
    [-len, len) raises [IndexError]. *)
Definition getitem {A : Type} (l : list A) (i : Z) : res A :=
  let j := if i <? 0 then i + len l else i in
  if j <? 0 then Raise IndexError
  else match nth_error l (Z.to_nat j) with
       | Some a => Ok a
       | None => Raise IndexError
       end.

(** [range(start, stop, step)] for a positive step. *)
Definition range3 (start stop step : Z) : list Z :=
  map (fun k => start + Z.of_nat k * step)
      (seq 0 (Z.to_nat ((stop - start + step - 1) / step))).

Definition range (stop : Z) : list Z := range3 0 stop 1.

(** ** Numbers *)

(** What [main.py] does with a number that may be a [float]. *)
Class Num (F : Type) : Type := {
  of_int : Z -> F;                (* an int operand of a float operation *)
  lit : Q -> F;                   (* a decimal literal *)
  add : F -> F -> F;
  sub : F -> F -> F;
  mul : F -> F -> F;
  div : F -> F -> res F;          (* [/], ZeroDivisionError *)
  ltb : F -> F -> bool;
  leb : F -> F -> bool;
  fabs : F -> F;                  (* abs *)
  int_ : F -> res Z;              (* int(x): truncation towards zero *)
  ceil : F -> res Z;              (* math.ceil *)
  floor_log10 : F -> res Z;       (* math.floor(math.log10(x)) *)
  pow10 : Z -> F                  (* 10 ** k for an int k *)
}.

(** [max(a, b)] and [min(a, b)] keep the first argument on a tie. *)
Definition max2 {F} `{Num F} (a b : F) : F := if ltb a b then b else a.
Definition min2 {F} `{Num F} (a b : F) : F := if ltb b a then b else a.

(** *** Exact arithmetic *)

Definition Qtruncate (x : Q) : Z :=
  if Qle_bool 0 x then Qfloor x else Qceiling x.

Fixpoint ilog10 (fuel : nat) (n : Z) : Z :=
  match fuel with
  | O => 0
  | S fuel' => if n <? 10 then 0 else 1 + ilog10 fuel' (n / 10)
  end.

(** The number of decimal digits of [n >= 1], minus one. *)
Definition Zlog10 (n : Z) : Z := ilog10 (S (Z.to_nat (Z.log2 n))) n.

Definition ten : Q := inject_Z 10.

(** The integer [k] with [10^k <= x < 10^(k+1)], for [x > 0]. *)
Definition Qfloor_log10 (x : Q) : Z :=
  let k := Zlog10 (Qnum x) - Zlog10 (Zpos (Qden x)) in
  if Qle_bool (ten ^ k) x then k else k - 1.

#[export] Instance exact : Num Q := {
  of_int := inject_Z;
  lit := fun q => q;
  add := Qplus;
  sub := Qminus;
  mul := Qmult;
  div := fun x y => if Qeq_bool y 0 then Raise ZeroDivisionError else Ok (x / y)%Q;
  ltb := fun x y => negb (Qle_bool y x);
  leb := Qle_bool;
  fabs := Qabs;
  int_ := fun x => Ok (Qtruncate x);
  ceil := fun x => Ok (Qceiling x);
  floor_log10 := fun x =>
    if Qle_bool x 0 then Raise ValueError else Ok (Qfloor_log10 x);
  pow10 := fun k => (ten ^ k)%Q
}.

(** *** Python numbers over IEEE 754 binary floating point *)

(** A number of the running program: an [int], of any size, or a
    [float]. *)
Inductive pynum : Type :=
| PInt (z : Z)
| PFloat (x : spec_float).

(** Bounds of [ln 10], 30 decimals. *)
Definition ln10_lo : Q := 2302585092994045684017991454684 # 1000000000000000000000000000000.
Definition ln10_hi : Q := 2302585092994045684017991454685 # 1000000000000000000000000000000.

Section IEEE.
Variables prec emax : Z.

(** [float(z)], rounded to nearest even.  Beyond the range of the floats
    the conversion is an infinity here; Python raises [OverflowError],
    which [float_of] does where the model can raise. *)
Definition sf_of_int (z : Z) : spec_float :=
  binary_normalize prec emax z 0 false.

(** An int as the unrounded operand of a correctly rounded division. *)
Definition sf_exact (z : Z) : spec_float :=
  match z with
  | Z0 => S754_zero false
  | Zpos p => S754_finite false p 0
  | Zneg p => S754_finite true p 0
  end.

(** A decimal literal [n / d]: the nearest float. *)
Definition sf_lit (q : Q) : spec_float :=
  SFdiv prec emax (sf_exact (Qnum q)) (sf_exact (Zpos (Qden q))).

(** The operand of a float operation: an int is converted. *)
Definition to_float (a : pynum) : spec_float :=
  match a with
  | PInt z => sf_of_int z
  | PFloat x => x
  end.

Definition float_of (a : pynum) : res spec_float :=
  match a with
  | PInt z =>
      match sf_of_int z with
      | S754_infinity _ => Raise OverflowError
      | x => Ok x
      end
  | PFloat x => Ok x
  end.

(** [+], [-], [*]: exact on two ints, a float operation otherwise. *)
Definition py_add (a b : pynum) : pynum :=
  match a, b with
  | PInt x, PInt y => PInt (x + y)
  | _, _ => PFloat (SFadd prec emax (to_float a) (to_float b))
  end.

Definition py_sub (a b : pynum) : pynum :=
  match a, b with
  | PInt x, PInt y => PInt (x - y)
  | _, _ => PFloat (SFsub prec emax (to_float a) (to_float b))
  end.

Definition py_mul (a b : pynum) : pynum :=
  match a, b with
  | PInt x, PInt y => PInt (x * y)
  | _, _ => PFloat (SFmul prec emax (to_float a) (to_float b))
  end.

(** [/]: always a float; of two ints, the correctly rounded quotient. *)
Definition sf_div (a b : pynum) : res pynum :=
  match a, b with
  | PInt x, PInt y =>
      if y =? 0 then Raise ZeroDivisionError
      else match SFdiv prec emax (sf_exact x) (sf_exact y) with
           | S754_infinity _ => Raise OverflowError
           | q => Ok (PFloat q)
           end
  | _, _ =>
      x <- float_of a ;;
      y <- float_of b ;;
      match y with
      | S754_zero _ => Raise ZeroDivisionError
      | _ => Ok (PFloat (SFdiv prec emax x y))
      end
  end.

(** The value of a finite float, [m * 2^e], as a rational. *)
Definition sf_value (s : bool) (m : positive) (e : Z) : Q :=
  let v := if 0 <=? e then inject_Z (Zpos m * 2 ^ e)
           else Qmake (Zpos m) (Z.to_pos (2 ^ (- e))) in
  if s then Qopp v else v.

(** An int against a float: Python compares the exact values. *)
Definition sf_compare_int (z : Z) (x : spec_float) : option comparison :=
  match x with
  | S754_nan => None
  | S754_infinity s => Some (if s then Gt else Lt)
  | S754_zero _ => Some (z ?= 0)
  | S754_finite s m e => Some (inject_Z z ?= sf_value s m e)%Q
  end.

Definition py_compare (a b : pynum) : option comparison :=
  match a, b with
  | PInt x, PInt y => Some (x ?= y)
  | PInt x, PFloat y => sf_compare_int x y
  | PFloat x, PInt y => option_map CompOpp (sf_compare_int y x)
  | PFloat x, PFloat y => SFcompare x y
  end.

Definition py_ltb (a b : pynum) : bool :=
  match py_compare a b with
  | Some Lt => true
  | _ => false
  end.

Definition py_leb (a b : pynum) : bool :=
  match py_compare a b with
  | Some (Lt | Eq) => true
  | _ => false
  end.

Definition py_abs (a : pynum) : pynum :=
  match a with
  | PInt z => PInt (Z.abs z)
  | PFloat x => PFloat (SFabs x)
  end.

Definition sf_int (a : pynum) : res Z :=
  match a with
  | PInt z => Ok z
  | PFloat (S754_zero _) => Ok 0
  | PFloat (S754_finite s m e) => Ok (Qtruncate (sf_value s m e))
  | PFloat (S754_infinity _) => Raise OverflowError
  | PFloat S754_nan => Raise ValueError
  end.

Definition sf_ceil (a : pynum) : res Z :=
  match a with
  | PInt z => Ok z
  | PFloat (S754_zero _) => Ok 0
  | PFloat (S754_finite s m e) => Ok (Qceiling (sf_value s m e))
  | PFloat (S754_infinity _) => Raise OverflowError
  | PFloat S754_nan => Raise ValueError
  end.

(** Half the distance from the float [L], an integer other than 0, to
    the next float below it. *)
Definition half_gap_below (L : Z) : Q :=
  let j := Z.log2 (Z.abs L) in
  if (0 <? L) && (L =? 2 ^ j) then (2 # 1) ^ (j - prec - 1)
  else (2 # 1) ^ (j - prec).

(** [math.floor(math.log10(x))], with [math.log10] taken to be correctly
    rounded.  For [10^k <= x < 10^(k+1)] the floor is [k], unless the
    logarithm is so close below [k + 1] that it rounds to it: that is
    when [1 - x / 10^(k+1) < 1 - exp(-h * ln 10)] for the half gap [h]
    below [k + 1], which is decided by [t - t^2/2 < 1 - exp(-t)] with
    the bounds of [ln 10]; the two sides of that inequality differ by
    less than [1e-26]. *)
Definition sf_floor_log10_finite (v : Q) : Z :=
  let k := Qfloor_log10 v in
  let L := k + 1 in
  let h := half_gap_below L in
  let y := (1 - v / ten ^ L)%Q in
  let t_lo := (h * ln10_lo)%Q in
  let t_hi := (h * ln10_hi)%Q in
  if negb (L =? 0) && Qle_bool y (t_lo - t_hi * t_hi / (2 # 1))%Q
  then L else k.

Definition sf_floor_log10 (a : pynum) : res Z :=
  match a with
  | PInt z =>
      if z <=? 0 then Raise ValueError
      else match sf_of_int z with
           | S754_finite false m e =>
               Ok (sf_floor_log10_finite (sf_value false m e))
           | _ => Raise OverflowError
           end
  | PFloat (S754_finite false m e) =>
      Ok (sf_floor_log10_finite (sf_value false m e))
  | PFloat (S754_infinity false) => Raise OverflowError
  | PFloat _ => Raise ValueError
  end.

(** [10 ** k]: an int for [k >= 0]; for [k < 0] the float power, taken
    to be correctly rounded. *)
Definition sf_pow10 (k : Z) : pynum :=
  if 0 <=? k then PInt (10 ^ k)
  else PFloat (SFdiv prec emax (sf_exact 1) (sf_exact (10 ^ (- k)))).

Definition ieee : Num pynum := {|
  of_int := PInt;
  lit := fun q => PFloat (sf_lit q);
  add := py_add;
  sub := py_sub;
  mul := py_mul;
  div := sf_div;
  ltb := py_ltb;
  leb := py_leb;
  fabs := py_abs;
  int_ := sf_int;
  ceil := sf_ceil;
  floor_log10 := sf_floor_log10;
  pow10 := sf_pow10
|}.
End IEEE.

(** The numbers of CPython: [int] and the binary64 [float]. *)
#[export] Instance binary64 : Num pynum := ieee 53 1024.

(** The numbers of a single-precision MicroPython build. *)
Definition binary32 : Num pynum := ieee 24 128.

(** The real value of a number: none for an infinity or a NaN. *)
Definition float_value (x : spec_float) : option Q :=
  match x with
  | S754_zero _ => Some 0%Q
  | S754_finite s m e => Some (sf_value s m e)
  | _ => None
  end.

Definition num_value (a : pynum) : option Q :=
  match a with
  | PInt z => Some (inject_Z z)
  | PFloat x => float_value x
  end.


(** ** Local time, Europe/Berlin (main.py, lines 83-116) *)

Definition _weekday (year month day : Z) : res Z :=
  let t := [0; 3; 2; 5; 0; 3; 5; 1; 4; 6; 2; 4] in
  let year := if month <? 3 then year - 1 else year in
  tm <- getitem t (month - 1) ;;
  Ok ((year + year / 4 - year / 100 + year / 400 + tm + day) mod 7).

Fixpoint _last_sunday_loop (fuel : nat) (year month last_day : Z) : res Z :=
  match fuel with
  | O => OutOfFuel
  | S fuel' =>
      if last_day >? 27 then
        wd <- _weekday year month last_day ;;
        if wd =? 0 then Ok last_day
        else _last_sunday_loop fuel' year month (last_day - 1)
      else Ok last_day
  end.

(** The loop starts at 31 and stops below 28: five guard tests at most. *)
Definition _last_sunday (year month : Z) : res Z :=
  _last_sunday_loop 5 year month 31.

(** The tuple of [time.localtime()]. *)
Record time_tuple : Type := mk_time {
  tm_year : Z; tm_mon : Z; tm_mday : Z;
  tm_hour : Z; tm_min : Z; tm_sec : Z;
  tm_wday : Z; tm_yday : Z
}.

Definition _berlin_offset_seconds (utc_tuple : time_tuple) : res Z :=
  let year := tm_year utc_tuple in
  let month := tm_mon utc_tuple in
  let day := tm_mday utc_tuple in
  let hour := tm_hour utc_tuple in
  last_sun_mar <- _last_sunday year 3 ;;
  last_sun_oct <- _last_sunday year 10 ;;
  let dst :=
    if (4 <=? month) && (month <=? 9) then true
    else if month =? 3 then
      (day >? last_sun_mar) || ((day =? last_sun_mar) && (hour >=? 2))
    else if month =? 10 then
      (day <? last_sun_oct) || ((day =? last_sun_oct) && (hour <? 3))
    else false in
  Ok (if dst then 7200 else 3600).

(** ** RingBuffer (main.py, lines 47-64) *)

Module RingBuffer.
Section Buffer.
Variable A : Type.

Record t : Type := mk { length : Z; data : list A }.

Definition __init__ (length : Z) : t := {| length := length; data := [] |}.

(** [self.data.pop(0)] raises [IndexError] on an empty list. *)
Definition pop0 (self : t) : res t :=
  match data self with
  | [] => Raise IndexError
  | _ :: rest => Ok {| length := length self; data := rest |}
  end.

Definition append (self : t) (value : A) : res t :=
  self <- (if len (data self) >=? length self then pop0 self else Ok self) ;;
  Ok {| length := length self; data := data self ++ [value] |}.

Fixpoint extend (self : t) (values : list A) : res t :=
  match values with
  | [] => Ok self
  | value :: values' => self <- append self value ;; extend self values'
  end.

(** A caller's use of the buffer: a sequence of [append] and [extend]
    calls, and the values it appends, in order. *)
Inductive call : Type :=
| Append (value : A)
| Extend (values : list A).

Definition do_call (self : t) (c : call) : res t :=
  match c with
  | Append value => append self value
  | Extend values => extend self values
  end.

Fixpoint run (self : t) (calls : list call) : res t :=
  match calls with
  | [] => Ok self
  | c :: calls' => self <- do_call self c ;; run self calls'
  end.

Definition appended (calls : list call) : list A :=
  flat_map (fun c => match c with
                     | Append value => [value]
                     | Extend values => values
                     end) calls.

(** The last [n] elements of a list. *)
Definition last_n (n : nat) (l : list A) : list A :=
  skipn (List.length l - n) l.
End Buffer.

Arguments length {A} _.
Arguments data {A} _.
Arguments mk {A} _ _.
Arguments __init__ {A} _.
Arguments pop0 {A} _.
Arguments append {A} _ _.
Arguments extend {A} _ _.
Arguments Append {A} _.
Arguments Extend {A} _.
Arguments do_call {A} _ _.
Arguments run {A} _ _.
Arguments appended {A} _.
Arguments last_n {A} _ _.

(** [min(l)] and [max(l)] of a non-empty list: the first extremal element. *)
Definition min_list {F} `{Num F} (first : F) (others : list F) : F :=
  fold_left min2 others first.
Definition max_list {F} `{Num F} (first : F) (others : list F) : F :=
  fold_left max2 others first.

Definition minmax {F} `{Num F} (self : t F) : F * F :=
  match data self with
  | [] => (of_int 0, of_int 1)
  | first :: others => (min_list first others, max_list first others)
  end.
End RingBuffer.

(** ** The chart (main.py, lines 270-387; display.py, lines 11-12) *)

Definition FG_COLOR : Z := 0.
Definition BG_COLOR : Z := 1.
Definition EPD_WIDTH : Z := 296.
Definition EPD_HEIGHT : Z := 128.

Section Chart.
Context {F : Type} `{Num F}.

(** The string handed to [fb.text]: a literal, or an f-string with one
    number in fixed notation, [f"{pre}{v:.{decimals}f}{post}"]. *)
Inductive text : Type :=
| Lit (s : string)
| Fmt (pre : string) (decimals : Z) (v : F) (post : string).

Arguments Fmt pre%_string decimals%_Z v post%_string.

Inductive draw_op : Type :=
| Rect (x y w h c : Z)
| Text (s : text) (x y c : Z)
| Hline (x y w c : Z)
| Vline (x y h c : Z)
| Line (x1 y1 x2 y2 c : Z).

Definition framebuf : Type := list draw_op.

Definition fb_rect (fb : framebuf) (x y w h c : Z) := fb ++ [Rect x y w h c].
Definition fb_text (fb : framebuf) (s : text) (x y c : Z) := fb ++ [Text s x y c].
Definition fb_hline (fb : framebuf) (x y w c : Z) := fb ++ [Hline x y w c].
Definition fb_vline (fb : framebuf) (x y h c : Z) := fb ++ [Vline x y h c].
Definition fb_line (fb : framebuf) (x1 y1 x2 y2 c : Z) :=
  fb ++ [Line x1 y1 x2 y2 c].

Definition _scale (value min_val span : F) (height : Z) : res Z :=
  r <- div (sub value min_val) span ;;
  int_ (mul r (of_int (height - 1))).

Fixpoint _nice_step_for (span magnitude : F) (factors : list Z) : res F :=
  match factors with
  | [] => Ok magnitude
  | factor :: factors' =>
      let step := mul (of_int factor) magnitude in
      q <- div span step ;;
      if leb q (of_int 6) then Ok step
      else _nice_step_for span magnitude factors'
  end.

Definition _nice_step (span : F) : res F :=
  rough <- div span (of_int 4) ;;
  magnitude <- (if ltb (of_int 0) rough
                then k <- floor_log10 rough ;; Ok (pow10 k)
                else Ok (of_int 1)) ;;
  _nice_step_for span magnitude [1; 2; 5; 10].

(** The body of the loop of [_resample], at index [i]. *)
Definition _resample_at (values : list F) (n target_len i : Z) : res F :=
  pos <- div (of_int (i * (n - 1))) (of_int (target_len - 1)) ;;
  low <- int_ pos ;;
  let high := Z.min (low + 1) (n - 1) in
  let frac := sub pos (of_int low) in
  vlow <- getitem values low ;;
  vhigh <- getitem values high ;;
  Ok (add (mul vlow (sub (of_int 1) frac)) (mul vhigh frac)).

Fixpoint _resample_for (values : list F) (n target_len : Z)
         (indices : list Z) (result : list F) : res (list F) :=
  match indices with
  | [] => Ok result
  | i :: indices' =>
      val <- _resample_at values n target_len i ;;
      _resample_for values n target_len indices' (result ++ [val])
  end.

Definition _resample (values : list F) (target_len : Z) : res (list F) :=
  let n := len values in
  if n =? 0 then Ok []
  else if n =? target_len then Ok values
  else if target_len =? 1 then v <- getitem values (-1) ;; Ok [v]
  else _resample_for values n target_len (range target_len) [].

Definition _format_k (value : F) : res text :=
  if leb (of_int 1000) (fabs value)
  then q <- div value (of_int 1000) ;; Ok (Fmt "" 1 q "k")
  else Ok (Fmt "" 0 value "").

Fixpoint _hline_dashed_while (fuel : nat) (fb : framebuf)
         (pos end_ y color dash gap : Z) : res framebuf :=
  match fuel with
  | O => OutOfFuel
  | S fuel' =>
      if pos <? end_ then
        let run := Z.min dash (end_ - pos) in
        _hline_dashed_while fuel' (fb_hline fb pos y run color)
                            (pos + (dash + gap)) end_ y color dash gap
      else Ok fb
  end.

Definition _hline_dashed (fuel : nat) (fb : framebuf)
           (x y length color dash gap : Z) : res framebuf :=
  _hline_dashed_while fuel fb x (x + length) y color dash gap.

Fixpoint _vline_dashed_while (fuel : nat) (fb : framebuf)
         (pos end_ x color dash gap : Z) : res framebuf :=
  match fuel with
  | O => OutOfFuel
  | S fuel' =>
      if pos <? end_ then
        let run := Z.min dash (end_ - pos) in
        _vline_dashed_while fuel' (fb_vline fb x pos run color)
                            (pos + (dash + gap)) end_ x color dash gap
      else Ok fb
  end.

Definition _vline_dashed (fuel : nat) (fb : framebuf)
           (x y length color dash gap : Z) : res framebuf :=
  _vline_dashed_while fuel fb y (y + length) x color dash gap.

Fixpoint _draw_y_grid_while (fuel : nat) (fb : framebuf)
         (left top width height : Z) (min_val max_val step y : F)
  : res framebuf :=
  match fuel with
  | O => OutOfFuel
  | S fuel' =>
      if leb y max_val then
        offset <- _scale y min_val
                    (max2 (sub max_val min_val) (lit (1 # 1000000))) height ;;
        fb <- _hline_dashed fuel' fb left (top + height - offset) width
                            FG_COLOR 3 2 ;;
        label <- _format_k y ;;
        let fb := fb_text fb label 4 (top + height - offset - 4) FG_COLOR in
        _draw_y_grid_while fuel' fb left top width height
                           min_val max_val step (add y step)
      else Ok fb
  end.

Definition _draw_y_grid (fuel : nat) (fb : framebuf)
           (left top width height : Z) (min_val max_val step : F)
  : res framebuf :=
  q <- div min_val step ;;
  c <- ceil q ;;
  let start := mul (of_int c) step in
  _draw_y_grid_while fuel fb left top width height min_val max_val step start.

Fixpoint _draw_x_grid_for (fuel : nat) (fb : framebuf)
         (left top height : Z) (step_x : F) (indices : list Z)
  : res framebuf :=
  match indices with
  | [] => Ok fb
  | idx :: indices' =>
      x <- int_ (add (of_int left) (mul (of_int idx) step_x)) ;;
      fb <- _vline_dashed fuel fb x top height FG_COLOR 3 2 ;;
      _draw_x_grid_for fuel fb left top height step_x indices'
  end.

Definition _draw_x_grid (fuel : nat) (fb : framebuf)
           (left top height : Z) (step_x : F) (points : Z)
           (span_label : string) : res framebuf :=
  if points <? 2 then Ok fb
  else
    let desired_lines := if String.eqb span_label "365d" then 12 else 6 in
    let step_points := Z.max 1 (points / desired_lines) in
    _draw_x_grid_for fuel fb left top height step_x
                     (range3 step_points points step_points).

(** The polyline: [for idx, value in enumerate(history.data[1:], start=1)]. *)
Fixpoint draw_chart_for (fb : framebuf) (chart_left chart_top chart_height : Z)
         (step_x min_val span : F) (idx : Z) (values : list F)
         (prev_x prev_y : Z) : res framebuf :=
  match values with
  | [] => Ok fb
  | value :: values' =>
      x <- int_ (add (of_int chart_left) (mul (of_int idx) step_x)) ;;
      s <- _scale value min_val span chart_height ;;
      let y := chart_top + chart_height - s in
      draw_chart_for (fb_line fb prev_x prev_y x y FG_COLOR)
                     chart_left chart_top chart_height step_x min_val span
                     (idx + 1) values' x y
  end.

Definition draw_chart (fuel : nat) (fb : framebuf)
           (history : RingBuffer.t F) (span_label : string) : res framebuf :=
  let chart_left := 55 in
  let chart_top := 34 in
  let chart_width := EPD_WIDTH - chart_left - 6 in
  let chart_height := 64 in
  let points := len (RingBuffer.data history) in
  let fb := fb_rect fb (chart_left - 1) (chart_top - 1)
                    (chart_width + 2) (chart_height + 2) FG_COLOR in
  match RingBuffer.data history with
  | [] =>
      Ok (fb_text fb (Lit "keine Daten") (chart_left + 4)
                  (chart_top + chart_height / 2) FG_COLOR)
  | first :: others =>
      let (min_val, max_val) := RingBuffer.minmax history in
      let span := max2 (sub max_val min_val) (lit (1 # 1000000)) in
      step_x <- div (of_int chart_width) (of_int (Z.max 1 (points - 1))) ;;
      y_step <- _nice_step span ;;
      fb <- _draw_y_grid fuel fb chart_left chart_top chart_width chart_height
                         min_val max_val y_step ;;
      fb <- _draw_x_grid fuel fb chart_left chart_top chart_height
                         step_x points span_label ;;
      let prev_x := chart_left in
      s <- _scale first min_val span chart_height ;;
      let prev_y := chart_top + chart_height - s in
      fb <- draw_chart_for fb chart_left chart_top chart_height
                           step_x min_val span 1 others prev_x prev_y ;;
      let fb := fb_text fb (Fmt "Min " 0 min_val " EUR") chart_left
                        (chart_top + chart_height + 4) FG_COLOR in
      let fb := fb_text fb (Fmt "Max " 0 max_val " EUR") (chart_left + 110)
                        (chart_top + chart_height + 4) FG_COLOR in
      Ok (fb_text fb (Lit span_label) (chart_left + chart_width - 36)
                  (chart_top - 9) FG_COLOR)
  end.

(** The columns in which a log has vertical strokes, each once, in the
    order of their first stroke. *)
Fixpoint vline_columns (fb : framebuf) : list Z :=
  match fb with
  | [] => []
  | Vline x _ _ _ :: fb' =>
      x :: filter (fun x' => negb (x' =? x)) (vline_columns fb')
  | _ :: fb' => vline_columns fb'
  end.
End Chart.

Arguments text F : clear implicits.
Arguments draw_op F : clear implicits.
Arguments framebuf F : clear implicits.

(** ** The specification's own words, for comparison *)

(** Python's [round(x)]: to the nearest integer, a tie to the even one. *)
Definition py_round (x : Q) : Z :=
  let f := Qfloor x in
  match ((x - inject_Z f) ?= (1 # 2))%Q with
  | Lt => f
  | Gt => f + 1
  | Eq => if Z.even f then f else f + 1
  end.

(** The interior boundaries of a width cut into [segments] equal parts,
    as pixel columns right of [left]. *)
Definition segment_boundaries (left width segments : Z) : list Z :=
  map (fun k => left + Qfloor (inject_Z (Z.of_nat k * width) / inject_Z segments))
      (seq 1 (Z.to_nat (segments - 1))).

(** One dashed vertical line, as [_draw_x_grid] draws it, in each of the
    columns [xs], from left to right of the list. *)
Fixpoint vlines_at {F : Type} (fuel : nat) (fb : framebuf F)
         (xs : list Z) (top height : Z) : res (framebuf F) :=
  match xs with
  | [] => Ok fb
  | x :: xs' =>
      fb <- _vline_dashed fuel fb x top height FG_COLOR 3 2 ;;
      vlines_at fuel fb xs' top height
  end.

(** The proleptic Gregorian calendar: leap years, the days of a year
    before a month, and the number of a day counted from 1 January of
    year 1 (a Monday) as day 1. *)
Definition is_leap (year : Z) : bool :=
  (year mod 4 =? 0) && (negb (year mod 100 =? 0) || (year mod 400 =? 0)).

Definition days_before_month (leap : bool) (month : Z) : Z :=
  nth (Z.to_nat (month - 1))
      [0; 31; 59; 90; 120; 151; 181; 212; 243; 273; 304; 334] 0 +
  (if leap && (2 <? month) then 1 else 0).

Definition day_number (year month day : Z) : Z :=
  365 * (year - 1) + (year - 1) / 4 - (year - 1) / 100 + (year - 1) / 400 +
  days_before_month (is_leap year) month + day.


(** The strokes of a dashed line of [length] pixels from [pos]: the
    start and the run of each, one per period [dash + gap]. *)
Definition dash_strokes (pos length dash gap : Z) : list (Z * Z) :=
  map (fun k => (pos + Z.of_nat k * (dash + gap),
                 Z.min dash (length - Z.of_nat k * (dash + gap))))
      (seq 0 (Z.to_nat ((length + (dash + gap) - 1) / (dash + gap)))).


(** Whether a drawing call is [fb.text], [fb.line]. *)
Definition is_text {F : Type} (op : draw_op F) : bool :=
  match op with Text _ _ _ _ => true | _ => false end.

Definition is_line {F : Type} (op : draw_op F) : bool :=
  match op with Line _ _ _ _ _ => true | _ => false end.

(** A horizontal gridline call of [_draw_y_grid] for the chart area at
    [(left, top)] of [width] by [height] pixels: a stroke inside the
    rows [top + 1 .. top + height] and the columns of the chart, or a
    label at column 4, four rows above such a row. *)
Definition y_grid_op_inside {F : Type} (left top width height : Z)
           (op : draw_op F) : Prop :=
  match op with
  | Hline x y w _ =>
      top < y <= top + height /\ left <= x /\ 1 <= w /\ x + w <= left + width
  | Text _ x y _ => x = 4 /\ top < y + 4 <= top + height
  | _ => False
  end.


(** A polyline from [(x, y)]: [fb.line] calls, each starting where the
    one before ended, none going left, each ending in a row of the
    chart, [top + 1 .. top + height]. *)
Fixpoint polyline_from {F : Type} (top height x y : Z)
         (ops : list (draw_op F)) : Prop :=
  match ops with
  | [] => True
  | Line x1 y1 x2 y2 _ :: ops' =>
      x1 = x /\ y1 = y /\ x1 <= x2 /\ top < y2 <= top + height /\
      polyline_from top height x2 y2 ops'
  | _ => False
  end.

(** Where a polyline from [(x, y)] ends. *)
Fixpoint polyline_end {F : Type} (x y : Z) (ops : list (draw_op F)) : Z * Z :=
  match ops with
  | Line _ _ x2 y2 _ :: ops' => polyline_end x2 y2 ops'
  | _ :: ops' => polyline_end x y ops'
  | [] => (x, y)
  end.


(** ** fetch_history (main.py, lines 257-267) *)

(** [l[start:]]: a negative start counts from the end; a start outside
    the list is clipped to it. *)
Definition slice_from {A : Type} (l : list A) (start : Z) : list A :=
  let n := len l in
  let start := if start <? 0 then Z.max (start + n) 0 else Z.min start n in
  skipn (Z.to_nat start) l.

(** What [fetch_history] does with the prices once they are downloaded
    and converted, [prices = [float(p[1]) for p in ...]]: nothing when
    there are none; otherwise all but the last [2 * target_len] are
    dropped and the rest is resampled.  The download and the log lines
    are not part of the model. *)
Definition fetch_history_prices {F : Type} `{Num F}
           (prices : list F) (target_len : Z) : res (list F) :=
  match prices with
  | [] => Ok []
  | _ :: _ =>
      let prices := if 2 * target_len <? len prices
                    then slice_from prices (-2 * target_len)
                    else prices in
      _resample prices target_len
  end.


(** ** Python strings *)

(** A [str] is given as its UTF-8 bytes; [len] counts characters, that
    is, the bytes that are not continuation bytes [10xxxxxx]. *)
Definition is_continuation (c : Ascii.ascii) : bool :=
  match c with
  | Ascii.Ascii _ _ _ _ _ _ b6 b7 => b7 && negb b6
  end.

Fixpoint str_len (s : string) : Z :=
  match s with
  | EmptyString => 0
  | String c s' => (if is_continuation c then 0 else 1) + str_len s'
  end.

(** A text of [text_width] pixels at [x] is centered in the [width]
    pixels from [left] when the room on its two sides differs by one
    pixel at most. *)
Definition centered (left width x text_width : Z) : Prop :=
  Z.abs ((x - left) - (left + width - (x + text_width))) <= 1.

(** ** draw_text_scaled (main.py, lines 390-405) *)

(** A call of [fb.fill_rect]. *)
Inductive fill_rect_op : Type :=
| FillRect (x y w h c : Z).

Section TextScaled.
(** The temporary buffer belongs to [framebuf], which is not part of the
    repository: [pixel tx ty] is what [tmp.pixel(tx, ty)] returns once
    [tmp] has been filled and the text has been drawn into it. *)
Variable pixel : Z -> Z -> Z.

(** The body of the inner loop. *)
Definition draw_text_scaled_at (fb : list fill_rect_op)
           (x y scale color : Z) (bg : option Z) (ty tx : Z)
  : list fill_rect_op :=
  let px := pixel tx ty in
  if negb (px =? 0)
  then fb ++ [FillRect (x + tx * scale) (y + ty * scale) scale scale color]
  else match bg with
       | Some b =>
           if negb (b =? color)
           then fb ++ [FillRect (x + tx * scale) (y + ty * scale)
                                scale scale b]
           else fb
       | None => fb
       end.

Definition draw_text_scaled (fb : list fill_rect_op) (text : string)
           (x y scale color : Z) (bg : option Z) : list fill_rect_op :=
  let tmp_w := 8 * str_len text in
  let tmp_h := 8 in
  fold_left
    (fun fb ty =>
       fold_left (fun fb tx => draw_text_scaled_at fb x y scale color bg ty tx)
                 (range tmp_w) fb)
    (range tmp_h) fb.
End TextScaled.

(** A square of [scale] by [scale] pixels inside the box of [width] by
    [height] pixels at [(x, y)], in the colour [color] or the background
    colour. *)
Definition text_cell_inside (x y width height scale color : Z)
           (bg : option Z) (op : fill_rect_op) : Prop :=
  match op with
  | FillRect cx cy w h c =>
      w = scale /\ h = scale /\
      x <= cx /\ cx + w <= x + width /\
      y <= cy /\ cy + h <= y + height /\
      (c = color \/ bg = Some c)
  end.


(** ** _manual_get_json (main.py, lines 195-204) *)

(** [s] without its prefix [p], if it starts with [p]. *)
Fixpoint drop_prefix (p s : string) : option string :=
  match p with
  | EmptyString => Some s
  | String c p' =>
      match s with
      | String d s' => if Ascii.eqb c d then drop_prefix p' s' else None
      | EmptyString => None
      end
  end.

(** [s] around the first occurrence of [sep], if there is one. *)
Fixpoint split_once (sep s : string) : option (string * string) :=
  match drop_prefix sep s with
  | Some rest => Some (EmptyString, rest)
  | None =>
      match s with
      | EmptyString => None
      | String c s' =>
          match split_once sep s' with
          | Some (before, after) => Some (String c before, after)
          | None => None
          end
      end
  end.

(** [s.split(sep, 1)] and [sub in s]. *)
Definition split1 (sep s : string) : list string :=
  match split_once sep s with
  | Some (before, after) => [before; after]
  | None => [s]
  end.

Definition str_in (sub s : string) : bool :=
  match split_once sub s with
  | Some _ => true
  | None => false
  end.

(** How [_manual_get_json] takes the URL apart, before it opens the
    socket: the scheme, the host, the path and the port.  Unpacking a
    list of the wrong length raises [ValueError]. *)
Definition _manual_get_json_target (url : string)
  : res (string * string * string * Z) :=
  match split1 "://" url with
  | [scheme; rest] =>
      hp <- (if str_in "/" rest
             then match split1 "/" rest with
                  | [host; path] => Ok (host, String.append "/" path)
                  | _ => Raise ValueError
                  end
             else Ok (rest, "/"%string)) ;;
      let port := if String.eqb scheme "https" then 443 else 80 in
      Ok (scheme, fst hp, snd hp, port)
  | _ => Raise ValueError
  end.

(* ------------------------------------------------------------------ *)
(** * Properties *)

(** ** Outcomes *)

Lemma bind_Ok {A B : Type} (m : res A) (k : A -> res B) (b : B) :
  bind m k = Ok b -> exists a, m = Ok a /\ k a = Ok b.
Proof.
  destruct m as [a | e |]; cbn; intros Hk; try discriminate.
  exists a. split; [reflexivity | exact Hk].
Qed.

(** ** Local time *)

Lemma _weekday_march (year day : Z) :
  _weekday year 3 day =
  Ok ((year + year / 4 - year / 100 + year / 400 + 2 + day) mod 7).
Proof. reflexivity. Qed.

Lemma _weekday_october (year day : Z) :
  _weekday year 10 day =
  Ok ((year + year / 4 - year / 100 + year / 400 + 6 + day) mod 7).
Proof. reflexivity. Qed.

Lemma _weekday_range (year month day w : Z) :
  _weekday year month day = Ok w -> 0 <= w < 7.
Proof.
  unfold _weekday. intros Hw.
  apply bind_Ok in Hw. destruct Hw as (tm & _ & Hw).
  injection Hw as <-. apply Z.mod_pos_bound. lia.
Qed.

(** Adding a day moves the weekday on by one. *)
Lemma _weekday_succ (year month day w : Z) :
  _weekday year month day = Ok w ->
  _weekday year month (day + 1) = Ok ((w + 1) mod 7).
Proof.
  unfold _weekday. intros Hw.
  apply bind_Ok in Hw. destruct Hw as (tm & Htm & Hw).
  rewrite Htm. cbn. injection Hw as <-. f_equal.
  rewrite Z.add_mod_idemp_l by lia. f_equal. lia.
Qed.

(** What the scan of [_last_sunday] returns, by the weekday of the 31st:
    the four days 31, 30, 29, 28 are tested, and 27 is returned untested
    when none of them is a Sunday. *)
Lemma _last_sunday_by_weekday_of_31st (year month w : Z) :
  _weekday year month 31 = Ok w ->
  _last_sunday year month = Ok (if w <=? 3 then 31 - w else 27).
Proof.
  intros H31.
  assert (Hr : 0 <= w < 7) by (eapply _weekday_range; exact H31).
  assert (Hprev : forall d v, _weekday year month (d + 1) = Ok v ->
                              _weekday year month d = Ok ((v - 1) mod 7)).
  { intros d v. unfold _weekday. intros Hv.
    apply bind_Ok in Hv. destruct Hv as (tm & Htm & Hv).
    rewrite Htm. cbn. injection Hv as <-. f_equal.
    rewrite Zminus_mod_idemp_l. f_equal. lia. }
  assert (H30 := Hprev 30 w H31).
  assert (H29 := Hprev 29 _ H30).
  assert (H28 := Hprev 28 _ H29).
  unfold _last_sunday. cbn [_last_sunday_loop].
  assert (Hc : w = 0 \/ w = 1 \/ w = 2 \/ w = 3 \/ w = 4 \/ w = 5 \/ w = 6)
    by lia.
  change (31 - 1) with 30. change (30 - 1) with 29.
  change (29 - 1) with 28. change (28 - 1) with 27.
  change (31 >? 27) with true. change (30 >? 27) with true.
  change (29 >? 27) with true. change (28 >? 27) with true.
  change (27 >? 27) with false. cbv iota.
  rewrite H31, H30, H29, H28.
  repeat (destruct Hc as [-> | Hc]; [reflexivity |]).
  subst w. reflexivity.
Qed.

(** C1, at the input where it fails.  The last Sunday of March 2023 is
    the 26th: the 26th is a Sunday and no later day of the month is.
    [_last_sunday] returns 27, a Monday, and so at noon UTC of that
    Sunday, ten hours after the real switch to summer time,
    [_berlin_offset_seconds] still returns the standard offset. *)
Theorem last_sunday_march_2023_is_a_monday :
  _last_sunday 2023 3 = Ok 27 /\
  _weekday 2023 3 27 = Ok 1 /\
  _weekday 2023 3 26 = Ok 0 /\
  (forall d, 26 < d <= 31 -> _weekday 2023 3 d <> Ok 0) /\
  _berlin_offset_seconds (mk_time 2023 3 26 12 0 0 6 85) = Ok 3600.
Proof.
  repeat split; try reflexivity.
  intros d Hd.
  assert (Hc : d = 27 \/ d = 28 \/ d = 29 \/ d = 30 \/ d = 31) by lia.
  destruct Hc as [-> | [-> | [-> | [-> | ->]]]]; discriminate.
Qed.

(** The same scan in October 2025, whose last Sunday is the 26th. *)
Lemma last_sunday_october_2025_is_a_monday :
  _last_sunday 2025 10 = Ok 27 /\
  _weekday 2025 10 27 = Ok 1 /\
  _weekday 2025 10 26 = Ok 0 /\
  _berlin_offset_seconds (mk_time 2025 10 26 12 0 0 6 299) = Ok 7200.
Proof. repeat split; reflexivity. Qed.

(** C6: the four instants of 2024 around the two switches.  In 2024 the
    last Sunday of March is the 31st and that of October the 27th. *)
Theorem berlin_offset_2024_boundaries :
  _berlin_offset_seconds (mk_time 2024 3 31 1 59 0 6 91) = Ok 3600 /\
  _berlin_offset_seconds (mk_time 2024 3 31 2 0 0 6 91) = Ok 7200 /\
  _berlin_offset_seconds (mk_time 2024 10 27 2 59 0 6 301) = Ok 7200 /\
  _berlin_offset_seconds (mk_time 2024 10 27 3 0 0 6 301) = Ok 3600.
Proof. repeat split; reflexivity. Qed.

(** ** RingBuffer *)

Module RingBufferFacts.
Import RingBuffer.

Section Fifo.
Variable A : Type.
Implicit Types (self : t A) (vs values : list A) (calls : list (call A)).

Lemma skipn_cons_tail (k : nat) vs (x : A) (rest : list A) :
  skipn k vs = x :: rest -> skipn (S k) vs = rest.
Proof.
  revert vs. induction k as [| k IH]; intros vs Hs.
  - cbn in Hs. subst vs. reflexivity.
  - destruct vs as [| v vs]; [discriminate |]. cbn in Hs.
    change (skipn (S (S k)) (v :: vs)) with (skipn (S k) vs).
    apply IH. exact Hs.
Qed.

Lemma len_last_n (n : nat) vs :
  len (last_n n vs) = Z.min (len vs) (Z.of_nat n).
Proof. unfold len, last_n. rewrite length_skipn. lia. Qed.

(** One [append] on a buffer that holds the last [N] of [vs] leaves it
    holding the last [N] of [vs ++ [value]]. *)
Lemma append_last_n (N : Z) self vs (value : A) :
  0 < N ->
  length self = N ->
  data self = last_n (Z.to_nat N) vs ->
  exists self',
    append self value = Ok self' /\
    length self' = N /\
    data self' = last_n (Z.to_nat N) (vs ++ [value]).
Proof.
  intros HN Hlen Hdata. unfold append.
  assert (Hl := len_last_n (Z.to_nat N) vs). rewrite <- Hdata in Hl.
  rewrite Hlen. destruct (len (data self) >=? N) eqn:Hfull.
  - assert (Hge : (Z.to_nat N <= List.length vs)%nat)
      by (unfold len in *; lia).
    unfold pop0. destruct (data self) as [| x rest] eqn:Hd.
    + unfold len in Hl. cbn in Hl. lia.
    + cbn. eexists. split; [reflexivity |]. cbn. split; [exact Hlen |].
      symmetry in Hdata. unfold last_n in Hdata.
      apply skipn_cons_tail in Hdata. rewrite <- Hdata.
      unfold last_n. rewrite length_app. cbn [List.length].
      rewrite skipn_app.
      replace (List.length vs + 1 - Z.to_nat N)%nat
        with (S (List.length vs - Z.to_nat N)) by lia.
      replace (S (List.length vs - Z.to_nat N) - List.length vs)%nat
        with O by lia.
      reflexivity.
  - assert (Hlt : (List.length vs < Z.to_nat N)%nat)
      by (unfold len in *; lia).
    cbn. eexists. split; [reflexivity |]. cbn. split; [exact Hlen |].
    rewrite Hdata. unfold last_n. rewrite length_app. cbn [List.length].
    replace (List.length vs - Z.to_nat N)%nat with O by lia.
    replace (List.length vs + 1 - Z.to_nat N)%nat with O by lia.
    reflexivity.
Qed.

Lemma extend_last_n (N : Z) values : forall self vs,
  0 < N ->
  length self = N ->
  data self = last_n (Z.to_nat N) vs ->
  exists self',
    extend self values = Ok self' /\
    length self' = N /\
    data self' = last_n (Z.to_nat N) (vs ++ values).
Proof.
  induction values as [| value values IH]; intros self vs HN Hlen Hdata.
  - exists self. rewrite app_nil_r. auto.
  - destruct (append_last_n N self vs value HN Hlen Hdata)
      as (self1 & Happ & Hlen1 & Hdata1).
    destruct (IH self1 (vs ++ [value]) HN Hlen1 Hdata1)
      as (self2 & Hext & Hlen2 & Hdata2).
    exists self2. cbn [extend]. rewrite Happ. cbn [bind].
    rewrite <- app_assoc in Hdata2. auto.
Qed.

Lemma run_last_n (N : Z) calls : forall self vs,
  0 < N ->
  length self = N ->
  data self = last_n (Z.to_nat N) vs ->
  exists self',
    run self calls = Ok self' /\
    length self' = N /\
    data self' = last_n (Z.to_nat N) (vs ++ appended calls).
Proof.
  induction calls as [| c calls IH]; intros self vs HN Hlen Hdata.
  - exists self. cbn. rewrite app_nil_r. auto.
  - assert (Hc : exists self1, do_call self c = Ok self1 /\
                   length self1 = N /\
                   data self1 = last_n (Z.to_nat N)
                                  (vs ++ appended [c])).
    { destruct c as [value | values]; cbn.
      - apply append_last_n; assumption.
      - rewrite app_nil_r. apply extend_last_n; assumption. }
    destruct Hc as (self1 & Hdo & Hlen1 & Hdata1).
    destruct (IH self1 _ HN Hlen1 Hdata1) as (self2 & Hrun & Hlen2 & Hdata2).
    exists self2. cbn [run]. rewrite Hdo. cbn [bind].
    split; [exact Hrun |]. split; [exact Hlen2 |].
    rewrite Hdata2, <- app_assoc. do 2 f_equal.
    unfold appended. cbn [flat_map]. rewrite app_nil_r. reflexivity.
Qed.

(** C2: a buffer created with a positive capacity [N] and then used
    through any sequence of [append] and [extend] calls never raises,
    holds at most [N] values, and holds the last [N] of the values
    appended so far, in the order they were appended; once more than
    [N] values have been appended it holds exactly [N]. *)
Theorem ring_buffer_fifo (N : Z) calls :
  0 < N ->
  exists self,
    run (__init__ N) calls = Ok self /\
    len (data self) <= N /\
    data self = last_n (Z.to_nat N) (appended calls) /\
    (N < len (appended calls) -> len (data self) = N).
Proof.
  intros HN.
  destruct (run_last_n N calls (__init__ N) [] HN eq_refl eq_refl)
    as (self & Hrun & _ & Hdata).
  cbn [app] in Hdata. exists self. split; [exact Hrun |].
  rewrite Hdata, len_last_n. repeat split; lia.
Qed.
End Fifo.

Lemma ring_buffer_fifo_witness :
  0 < 3 /\
  exists self,
    run (__init__ 3) [Extend [1; 2]; Append 3; Extend [4; 5]] = Ok self /\
    data self = [3; 4; 5].
Proof.
  split; [lia |].
  destruct (ring_buffer_fifo Z 3 [Extend [1; 2]; Append 3; Extend [4; 5]])
    as (self & Hrun & _ & Hdata & _); [lia |].
  exists self. split; [exact Hrun | exact Hdata].
Defined.

End RingBufferFacts.

(** ** Exact arithmetic *)

Local Open Scope Q_scope.

Lemma Qtruncate_comp (x y : Q) : x == y -> Qtruncate x = Qtruncate y.
Proof.
  intros E. unfold Qtruncate.
  rewrite (Qleb_comp 0 0 (Qeq_refl 0) x y E).
  rewrite (Qfloor_comp x y E), (Qceiling_comp x y E). reflexivity.
Qed.

Lemma Qtruncate_nonneg (x : Q) : 0 <= x -> Qtruncate x = Qfloor x.
Proof.
  intros Hx. unfold Qtruncate.
  apply Qle_bool_iff in Hx. rewrite Hx. reflexivity.
Qed.

Lemma Qtruncate_Z (z : Z) : Qtruncate (inject_Z z) = z.
Proof.
  unfold Qtruncate. destruct (Qle_bool 0 (inject_Z z)).
  - apply Qfloor_Z.
  - apply Qceiling_Z.
Qed.

Lemma Qeq_bool_pos (x : Q) : 0 < x -> Qeq_bool x 0 = false.
Proof.
  intros Hx. destruct (Qeq_bool x 0) eqn:E; [| reflexivity].
  apply Qeq_bool_eq in E. rewrite E in Hx. discriminate.
Qed.

Lemma div_exact (x y : Q) : ~ y == 0 -> div x y = Ok (x / y).
Proof.
  intros Hy. cbn. destruct (Qeq_bool y 0) eqn:E; [| reflexivity].
  apply Qeq_bool_eq in E. contradiction.
Qed.

Local Close Scope Q_scope.

(** ** Rounding in binary64 *)

Lemma digits2_pos_bounds (p : positive) :
  2 ^ (Zpos (digits2_pos p) - 1) <= Zpos p < 2 ^ Zpos (digits2_pos p).
Proof.
  induction p as [p IH | p IH |]; cbn [digits2_pos].
  - rewrite Pos2Z.inj_succ. change (Zpos p~1) with (2 * Zpos p + 1).
    replace (Z.succ (Zpos (digits2_pos p)) - 1)
      with (Z.succ (Zpos (digits2_pos p) - 1)) by lia.
    rewrite !Z.pow_succ_r by lia.
    set (X := 2 ^ (Zpos (digits2_pos p) - 1)) in *.
    set (Y := 2 ^ Zpos (digits2_pos p)) in *. clearbody X Y. lia.
  - rewrite Pos2Z.inj_succ. change (Zpos p~0) with (2 * Zpos p).
    replace (Z.succ (Zpos (digits2_pos p)) - 1)
      with (Z.succ (Zpos (digits2_pos p) - 1)) by lia.
    rewrite !Z.pow_succ_r by lia.
    set (X := 2 ^ (Zpos (digits2_pos p) - 1)) in *.
    set (Y := 2 ^ Zpos (digits2_pos p)) in *. clearbody X Y. lia.
  - cbn. lia.
Qed.

Lemma Zdigits2_nonneg (a : Z) : 0 <= Zdigits2 a.
Proof. destruct a; cbn; lia. Qed.

Lemma Zdigits2_bounds (a : Z) :
  0 < a -> 2 ^ (Zdigits2 a - 1) <= a < 2 ^ Zdigits2 a.
Proof.
  intros Ha. destruct a as [| p | p]; try lia.
  exact (digits2_pos_bounds p).
Qed.

Lemma Zdigits2_unique (a d : Z) :
  2 ^ (d - 1) <= a < 2 ^ d -> 1 <= d -> Zdigits2 a = d.
Proof.
  intros [Hlo Hhi] Hd.
  assert (Ha : 0 < a).
  { assert (0 < 2 ^ (d - 1)) by (apply Z.pow_pos_nonneg; lia). lia. }
  destruct (Zdigits2_bounds a Ha) as [Glo Ghi].
  assert (H1 : Zdigits2 a - 1 < d).
  { apply (Z.pow_lt_mono_r_iff 2); lia. }
  assert (H2 : d - 1 < Zdigits2 a).
  { apply (Z.pow_lt_mono_r_iff 2); [lia | apply Zdigits2_nonneg | lia]. }
  lia.
Qed.

Lemma Zdigits2_le (a b : Z) : 0 <= a <= b -> Zdigits2 a <= Zdigits2 b.
Proof.
  intros [Ha Hab].
  destruct (Z.eq_dec a 0) as [-> | Hn]; [apply Zdigits2_nonneg |].
  destruct (Zdigits2_bounds a ltac:(lia)) as [Alo _].
  destruct (Zdigits2_bounds b ltac:(lia)) as [_ Bhi].
  assert (H : Zdigits2 a - 1 < Zdigits2 b).
  { apply (Z.pow_lt_mono_r_iff 2); [lia | apply Zdigits2_nonneg | lia]. }
  lia.
Qed.

Lemma Zdigits2_le_pow (a k : Z) : 0 <= a <= 2 ^ k -> 0 <= k -> Zdigits2 a <= k + 1.
Proof.
  intros [Ha Hk] Hk0.
  destruct (Z.eq_dec a 0) as [-> | Hn]; [cbn; lia |].
  destruct (Zdigits2_bounds a ltac:(lia)) as [Alo _].
  assert (H : Zdigits2 a - 1 < k + 1).
  { apply (Z.pow_lt_mono_r_iff 2); [lia | lia |].
    rewrite Z.pow_add_r by lia. change (2 ^ 1) with 2. lia. }
  lia.
Qed.

Lemma Zdigits2_mul_pow (a k : Z) :
  0 < a -> 0 <= k -> Zdigits2 (a * 2 ^ k) = Zdigits2 a + k.
Proof.
  intros Ha Hk. destruct (Zdigits2_bounds a Ha) as [Hlo Hhi].
  assert (Hd : 1 <= Zdigits2 a).
  { destruct a; try lia. cbn. lia. }
  apply Zdigits2_unique; [| lia].
  replace (Zdigits2 a + k - 1) with (Zdigits2 a - 1 + k) by lia.
  rewrite !Z.pow_add_r by lia.
  assert (0 < 2 ^ k) by (apply Z.pow_pos_nonneg; lia). nia.
Qed.

Lemma fexp64_eq (e : Z) : fexp 53 1024 e = Z.max (e - 53) (-1074).
Proof. reflexivity. Qed.

Lemma fexp64_le (a b : Z) : a <= b -> fexp 53 1024 a <= fexp 53 1024 b.
Proof. rewrite !fexp64_eq. lia. Qed.

Lemma iter_pos_nat {A : Type} (f : A -> A) (p : positive) : forall x : A,
  iter_pos f p x = Nat.iter (Pos.to_nat p) f x.
Proof.
  induction p as [p IH | p IH |]; intros x; cbn [iter_pos].
  - rewrite !IH, Pos2Nat.inj_xI.
    replace (S (2 * Pos.to_nat p)) with (Pos.to_nat p + (Pos.to_nat p + 1))%nat
      by lia.
    rewrite !Nat.iter_add. reflexivity.
  - rewrite !IH, Pos2Nat.inj_xO.
    replace (2 * Pos.to_nat p)%nat with (Pos.to_nat p + Pos.to_nat p)%nat
      by lia.
    rewrite Nat.iter_add. reflexivity.
  - reflexivity.
Qed.

Lemma shr_1_spec (mrs : shr_record) :
  0 <= shr_m mrs ->
  shr_m (shr_1 mrs) = shr_m mrs / 2 /\
  shr_r (shr_1 mrs) = Z.odd (shr_m mrs) /\
  shr_s (shr_1 mrs) = shr_r mrs || shr_s mrs.
Proof.
  destruct mrs as [m r s]. cbn [shr_m shr_r shr_s]. intros Hm.
  rewrite <- Z.div2_div.
  destruct m as [| p | p]; [| | lia].
  - cbn. repeat split.
  - destruct p; cbn; repeat split.
Qed.

Lemma shr_iter (k : nat) (mrs : shr_record) :
  0 <= shr_m mrs ->
  shr_m (Nat.iter k shr_1 mrs) = shr_m mrs / 2 ^ Z.of_nat k /\
  (shr_m mrs mod 2 ^ Z.of_nat k = 0 -> shr_r mrs = false ->
   shr_s mrs = false ->
   shr_r (Nat.iter k shr_1 mrs) = false /\
   shr_s (Nat.iter k shr_1 mrs) = false).
Proof.
  intros Hm. induction k as [| k [IHm IHz]].
  - cbn [Nat.iter]. change (2 ^ Z.of_nat 0) with 1. rewrite Z.div_1_r.
    split; [reflexivity |]. intros _ Hr Hs. split; assumption.
  - rewrite !Nat.iter_succ.
    assert (Hk : 0 <= shr_m (Nat.iter k shr_1 mrs)).
    { rewrite IHm. apply Z.div_pos; [exact Hm |].
      apply Z.pow_pos_nonneg; lia. }
    destruct (shr_1_spec _ Hk) as (Em & Er & Es).
    assert (Hp : 0 < 2 ^ Z.of_nat k) by (apply Z.pow_pos_nonneg; lia).
    assert (Epow : 2 ^ Z.of_nat (S k) = 2 ^ Z.of_nat k * 2).
    { rewrite Nat2Z.inj_succ, Z.pow_succ_r by lia. lia. }
    split.
    + rewrite Em, IHm, Epow, Z.div_div by lia. reflexivity.
    + intros Hmod Hr Hs. rewrite Epow in Hmod.
      apply Z.mod_divide in Hmod; [| lia]. destruct Hmod as [t Ht].
      assert (Hmod' : shr_m mrs mod 2 ^ Z.of_nat k = 0).
      { apply Z.mod_divide; [lia |]. exists (t * 2). lia. }
      destruct (IHz Hmod' Hr Hs) as [Hr' Hs'].
      rewrite Er, Es, Hr', Hs', IHm. split; [| reflexivity].
      replace (shr_m mrs) with (t * 2 * 2 ^ Z.of_nat k) by lia.
      rewrite Z.div_mul by lia. rewrite Z.mul_comm, Z.odd_mul. reflexivity.
Qed.

Lemma shr_record_of_loc_m (m : Z) (l : location) :
  shr_m (shr_record_of_loc m l) = m.
Proof. destruct l as [| []]; reflexivity. Qed.

Lemma loc_of_shr_record_of_loc (m : Z) (l : location) :
  loc_of_shr_record (shr_record_of_loc m l) = l.
Proof. destruct l as [| []]; reflexivity. Qed.

(** What [shr_fexp] gives for a mantissa that is not negative: nothing
    changes when the exponent is large enough; otherwise the mantissa is
    shifted right by [n] bits, exactly when the bits lost are zero. *)
Lemma shr_fexp_spec (m e : Z) (l : location) :
  0 <= m ->
  let n := fexp 53 1024 (Zdigits2 m + e) - e in
  (n <= 0 ->
   shr_fexp 53 1024 m e l = (shr_record_of_loc m l, e)) /\
  (0 < n ->
   exists mrs,
     shr_fexp 53 1024 m e l = (mrs, e + n) /\
     shr_m mrs = m / 2 ^ n /\
     (l = loc_Exact -> m mod 2 ^ n = 0 ->
      loc_of_shr_record mrs = loc_Exact)).
Proof.
  intros Hm n. unfold shr_fexp. fold n. split.
  - intros Hn. unfold shr. destruct n; try reflexivity. lia.
  - intros Hn. unfold shr. destruct n as [| p | p] eqn:En; try lia.
    eexists. split; [reflexivity |].
    rewrite iter_pos_nat.
    destruct (shr_iter (Pos.to_nat p) (shr_record_of_loc m l))
      as [Em Ez]; [rewrite shr_record_of_loc_m; exact Hm |].
    rewrite shr_record_of_loc_m in Em, Ez.
    rewrite positive_nat_Z in Em, Ez.
    split; [exact Em |].
    intros -> Hmod. destruct (Ez Hmod eq_refl eq_refl) as [Hr Hs].
    destruct (Nat.iter (Pos.to_nat p) shr_1 (shr_record_of_loc m loc_Exact))
      as [m' r' s'].
    cbn in Hr, Hs. subst r' s'. reflexivity.
Qed.

Lemma round_nearest_even_bounds (m : Z) (l : location) :
  m <= round_nearest_even m l <= m + 1 /\
  (l = loc_Exact -> round_nearest_even m l = m).
Proof.
  split; [| intros ->; reflexivity].
  destruct l as [| []]; cbn [round_nearest_even]; try lia.
  destruct (Z.even m); lia.
Qed.

(** The last step of [binary_round_aux], on a mantissa [0 <= m <= B] at
    exponent [E]: the result is a zero or a finite float of the given
    sign, at most [B * 2^E]. *)
Lemma round_finish (s : bool) (m E B : Z) :
  0 <= m <= B ->
  Z.max E (fexp 53 1024 (Zdigits2 B + E)) <= 971 ->
  let r := (let '(mrs, e') := shr_fexp 53 1024 m E loc_Exact in
            match shr_m mrs with
            | Z0 => S754_zero s
            | Zpos p => if e' <=? 1024 - 53 then S754_finite s p e'
                        else S754_infinity s
            | Zneg _ => S754_nan
            end) in
  r = S754_zero s \/
  exists m3 e3,
    r = S754_finite s m3 e3 /\
    E <= e3 <= Z.max E (fexp 53 1024 (Zdigits2 B + E)) /\
    Zpos m3 * 2 ^ (e3 - E) <= B.
Proof.
  intros [Hm HB] Hmax r.
  assert (Hd : fexp 53 1024 (Zdigits2 m + E)
               <= fexp 53 1024 (Zdigits2 B + E)).
  { apply fexp64_le. assert (H := Zdigits2_le m B ltac:(lia)). lia. }
  destruct (shr_fexp_spec m E loc_Exact Hm) as [Hle Hgt].
  set (n := fexp 53 1024 (Zdigits2 m + E) - E) in *.
  destruct (Z_le_gt_dec n 0) as [Hn | Hn].
  - unfold r. rewrite (Hle Hn). cbn [shr_record_of_loc shr_m].
    destruct m as [| p | p]; [left; reflexivity | | lia].
    right. exists p, E.
    assert (Ele : (E <=? 1024 - 53) = true) by (apply Z.leb_le; lia).
    rewrite Ele. split; [reflexivity |]. split; [lia |].
    rewrite Z.sub_diag. change (2 ^ 0) with 1. lia.
  - destruct (Hgt ltac:(lia)) as (mrs & Es & Em & _).
    unfold r. rewrite Es.
    assert (Hp : 0 < 2 ^ n) by (apply Z.pow_pos_nonneg; lia).
    assert (Hq : 0 <= m / 2 ^ n) by (apply Z.div_pos; lia).
    assert (Hmul : m / 2 ^ n * 2 ^ n <= m).
    { rewrite Z.mul_comm. apply Z.mul_div_le. exact Hp. }
    rewrite Em.
    destruct (m / 2 ^ n) as [| p | p] eqn:Eq; [left; reflexivity | | lia].
    right. exists p, (E + n).
    assert (Ele : (E + n <=? 1024 - 53) = true)
      by (apply Z.leb_le; unfold n; lia).
    rewrite Ele. split; [reflexivity |]. split; [unfold n; lia |].
    replace (E + n - E) with n by lia. lia.
Qed.

(** Rounding does not pass a bound that is itself on the grid.  Let the
    number to round be [m * 2^e], plus a fraction of [2^e] when the
    location is not exact, and let [B * 2^E] be at least that number,
    [E] being the exponent at which the first shift leaves the mantissa.
    Then [binary_round_aux] gives a zero or a finite float of at most
    [B * 2^E]. *)
Lemma binary_round_aux_upper (s : bool) (m e : Z) (l : location) (B : Z) :
  0 <= m ->
  let n := Z.max 0 (fexp 53 1024 (Zdigits2 m + e) - e) in
  let E := e + n in
  m <= B * 2 ^ n -> (l <> loc_Exact -> m < B * 2 ^ n) ->
  Z.max E (fexp 53 1024 (Zdigits2 B + E)) <= 971 ->
  binary_round_aux 53 1024 s m e l = S754_zero s \/
  exists m3 e3,
    binary_round_aux 53 1024 s m e l = S754_finite s m3 e3 /\
    E <= e3 <= Z.max E (fexp 53 1024 (Zdigits2 B + E)) /\
    Zpos m3 * 2 ^ (e3 - E) <= B.
Proof.
  intros Hm n E HB Hstrict Hmax.
  destruct (shr_fexp_spec m e l Hm) as [Hle Hgt].
  set (n0 := fexp 53 1024 (Zdigits2 m + e) - e) in *.
  unfold binary_round_aux.
  assert (Hfirst : exists mrs,
             shr_fexp 53 1024 m e l = (mrs, E) /\
             0 <= shr_m mrs <= B /\
             (loc_of_shr_record mrs <> loc_Exact -> shr_m mrs < B)).
  { destruct (Z_le_gt_dec n0 0) as [Hn | Hn].
    - assert (En : n = 0) by (unfold n; lia).
      exists (shr_record_of_loc m l).
      split; [rewrite (Hle Hn); unfold E; rewrite En, Z.add_0_r; reflexivity |].
      rewrite shr_record_of_loc_m, loc_of_shr_record_of_loc.
      rewrite En in HB, Hstrict. change (2 ^ 0) with 1 in HB, Hstrict.
      split; [lia |]. intros Hl. specialize (Hstrict Hl). lia.
    - assert (En : n = n0) by (unfold n; lia).
      destruct (Hgt ltac:(lia)) as (mrs & Es & Em & Hex).
      exists mrs. split; [rewrite Es; unfold E; rewrite En; reflexivity |].
      rewrite En in HB, Hstrict.
      assert (Hp : 0 < 2 ^ n0) by (apply Z.pow_pos_nonneg; lia).
      rewrite Em. split.
      + split; [apply Z.div_pos; lia |].
        apply Z.div_le_upper_bound; [exact Hp |]. lia.
      + intros Hl.
        destruct l as [| c].
        * destruct (Z.eq_dec (m mod 2 ^ n0) 0) as [Hz | Hnz].
          { exfalso. apply Hl. apply Hex; [reflexivity | exact Hz]. }
          assert (Hdm := Z.div_mod m (2 ^ n0) ltac:(lia)).
          assert (Hmod := Z.mod_pos_bound m (2 ^ n0) Hp).
          nia.
        * apply Z.div_lt_upper_bound; [exact Hp |].
          assert (H := Hstrict ltac:(discriminate)). lia. }
  destruct Hfirst as (mrs & Es & [Hm0 Hm1] & Hlt).
  rewrite Es.
  destruct (round_nearest_even_bounds (shr_m mrs) (loc_of_shr_record mrs))
    as [[Hr0 Hr1] Hrex].
  assert (Hm2 : 0 <= round_nearest_even (shr_m mrs) (loc_of_shr_record mrs)
                <= B).
  { split; [lia |].
    destruct (loc_of_shr_record mrs) as [| c] eqn:El.
    - rewrite (Hrex eq_refl). lia.
    - assert (H := Hlt ltac:(discriminate)). lia. }
  exact (round_finish s _ E B Hm2 Hmax).
Qed.


(** A float in canonical form rounds to itself. *)
Lemma binary_round_aux_canonical (s : bool) (m : positive) (e : Z) :
  fexp 53 1024 (Zdigits2 (Zpos m) + e) <= e -> e <= 971 ->
  binary_round_aux 53 1024 s (Zpos m) e loc_Exact = S754_finite s m e.
Proof.
  intros Hc He. unfold binary_round_aux.
  destruct (shr_fexp_spec (Zpos m) e loc_Exact ltac:(lia)) as [Hle _].
  rewrite (Hle ltac:(lia)). cbn [shr_record_of_loc shr_m loc_of_shr_record
                                  round_nearest_even].
  rewrite (Hle ltac:(lia)). cbn [shr_record_of_loc shr_m].
  assert (Ele : (e <=? 1024 - 53) = true) by (apply Z.leb_le; lia).
  rewrite Ele. reflexivity.
Qed.

(** A mantissa with [k] zero bits below a canonical one rounds to it. *)
Lemma binary_round_aux_shifted (s : bool) (mc : positive) (ec k : Z) :
  0 <= k ->
  fexp 53 1024 (Zdigits2 (Zpos mc) + ec) = ec -> ec <= 971 ->
  binary_round_aux 53 1024 s (Zpos mc * 2 ^ k) (ec - k) loc_Exact
  = S754_finite s mc ec.
Proof.
  intros Hk Hc He.
  assert (Hp : 0 < 2 ^ k) by (apply Z.pow_pos_nonneg; lia).
  assert (Hm : 0 <= Zpos mc * 2 ^ k) by lia.
  assert (Ed : Zdigits2 (Zpos mc * 2 ^ k) + (ec - k)
               = Zdigits2 (Zpos mc) + ec).
  { rewrite Zdigits2_mul_pow by lia. lia. }
  destruct (Z.eq_dec k 0) as [-> | Hk0].
  - change (2 ^ 0) with 1. rewrite Z.mul_1_r, Z.sub_0_r.
    apply binary_round_aux_canonical; lia.
  - unfold binary_round_aux.
    destruct (shr_fexp_spec (Zpos mc * 2 ^ k) (ec - k) loc_Exact Hm)
      as [_ Hgt].
    rewrite Ed, Hc in Hgt.
    replace (ec - (ec - k)) with k in Hgt by lia.
    destruct (Hgt ltac:(lia)) as (mrs & Es & Em & Hex).
    rewrite Es. rewrite Z.div_mul in Em by lia.
    assert (Hmod : (Zpos mc * 2 ^ k) mod 2 ^ k = 0)
      by (apply Z.mod_mul; lia).
    rewrite (Hex eq_refl Hmod), Em.
    cbn [round_nearest_even].
    replace (ec - k + k) with ec by lia.
    destruct (shr_fexp_spec (Zpos mc) ec loc_Exact ltac:(lia)) as [Hle _].
    rewrite (Hle ltac:(lia)). cbn [shr_record_of_loc shr_m].
    assert (Ele : (ec <=? 1024 - 53) = true) by (apply Z.leb_le; lia).
    rewrite Ele. reflexivity.
Qed.

Lemma Pos_iter_xO (p k : positive) :
  Zpos (Pos.iter xO p k) = Zpos p * 2 ^ Zpos k.
Proof.
  induction k as [| k IH] using Pos.peano_ind.
  - cbn [Pos.iter]. change (Zpos p~0) with (2 * Zpos p).
    change (2 ^ 1) with 2. lia.
  - rewrite Pos.iter_succ, Pos2Z.inj_succ, Z.pow_succ_r by lia.
    change (Zpos (Pos.iter xO p k)~0) with (2 * Zpos (Pos.iter xO p k)).
    rewrite IH. ring.
Qed.

(** [float(z)] for [0 < z < 2^53] is [z], in canonical form. *)
Lemma sf_of_int_small (z : Z) :
  0 < z < 2 ^ 53 ->
  exists mc ec,
    sf_of_int 53 1024 z = S754_finite false mc ec /\
    -52 <= ec <= 0 /\
    Zpos mc = z * 2 ^ (- ec) /\
    fexp 53 1024 (Zdigits2 (Zpos mc) + ec) = ec.
Proof.
  intros [Hz0 Hz1]. destruct z as [| p | p]; try lia.
  destruct (digits2_pos_bounds p) as [Hlo Hhi].
  assert (Hd : Zpos (digits2_pos p) <= 53).
  { assert (H : Zpos (digits2_pos p) - 1 < 53)
      by (apply (Z.pow_lt_mono_r_iff 2); lia).
    lia. }
  unfold sf_of_int, binary_normalize, binary_round, shl_align.
  rewrite Z.add_0_r, fexp64_eq.
  replace (Z.max (Zpos (digits2_pos p) - 53) (-1074) - 0)
    with (Zpos (digits2_pos p) - 53) by lia.
  destruct (Zpos (digits2_pos p) - 53) as [| k | k] eqn:Ek; try lia.
  - exists p, 0.
    rewrite binary_round_aux_canonical
      by (cbn [Zdigits2]; rewrite ?fexp64_eq; lia).
    split; [reflexivity |]. split; [lia |].
    split; [cbn; lia |]. cbn [Zdigits2]. rewrite fexp64_eq. lia.
  - assert (Emax : Z.max (Z.neg k) (-1074) = Z.neg k) by lia.
    rewrite Emax.
    exists (Pos.iter xO p k), (Z.neg k).
    assert (Em : Zpos (Pos.iter xO p k) = Zpos p * 2 ^ Zpos k)
      by apply Pos_iter_xO.
    assert (Edig : Zdigits2 (Zpos (Pos.iter xO p k))
                   = Zpos (digits2_pos p) + Zpos k).
    { rewrite Em, Zdigits2_mul_pow by lia. reflexivity. }
    rewrite binary_round_aux_canonical
      by (rewrite ?Edig, ?fexp64_eq; lia).
    split; [reflexivity |]. split; [lia |].
    split; [exact Em |].
    rewrite Edig, fexp64_eq. lia.
Qed.

Lemma new_location_exact (m r : Z) :
  new_location m r <> loc_Exact -> r <> 0.
Proof.
  intros H ->. apply H. unfold new_location, new_location_even,
    new_location_odd. destruct (Z.even m); reflexivity.
Qed.

(** The quotient and the remainder that [SFdiv_core_binary] rounds. *)
Lemma SFdiv_core_binary_spec (ma ms : positive) (ea es : Z) :
  let e' := Z.min (fexp 53 1024 (Zdigits2 (Zpos ma) + ea
                                 - (Zdigits2 (Zpos ms) + es))) (ea - es) in
  exists q r,
    SFdiv_core_binary 53 1024 (Zpos ma) ea (Zpos ms) es
    = (q, e', new_location (Zpos ms) r) /\
    Zpos ma * 2 ^ (ea - es - e') = q * Zpos ms + r /\
    0 <= r < Zpos ms /\ 0 <= q.
Proof.
  intros e'. unfold SFdiv_core_binary. fold e'.
  set (s := ea - es - e').
  assert (Hs : 0 <= s) by (unfold s, e'; lia).
  assert (Em : match s with
               | 0 => Zpos ma
               | Zpos _ => Z.shiftl (Zpos ma) s
               | Zneg _ => 0
               end = Zpos ma * 2 ^ s).
  { clearbody s. destruct s as [| p | p].
    - change (2 ^ 0) with 1. rewrite Z.mul_1_r. reflexivity.
    - apply Z.shiftl_mul_pow2. lia.
    - lia. }
  set (m' := match s with
             | 0 => Zpos ma
             | Zpos _ => Z.shiftl (Zpos ma) s
             | Zneg _ => 0
             end) in *.
  assert (Hdm := Z_div_mod m' (Zpos ms) ltac:(lia)).
  destruct (Z.div_eucl m' (Zpos ms)) as [q r].
  destruct Hdm as [Hdm Hr].
  exists q, r. split; [reflexivity |].
  assert (Hm' : 0 <= m').
  { rewrite Em. assert (0 < 2 ^ s) by (apply Z.pow_pos_nonneg; lia). lia. }
  split; [rewrite <- Em; lia |]. split; [lia |]. nia.
Qed.

(** The quotient of a float by itself is 1.0. *)
Lemma SFdiv_same (s : bool) (m : positive) (e : Z) :
  SFdiv 53 1024 (S754_finite s m e) (S754_finite s m e)
  = S754_finite false 4503599627370496 (-52).
Proof.
  unfold SFdiv.
  destruct (SFdiv_core_binary_spec m m e e) as (q & r & Ec & Hqr & Hr & Hq).
  rewrite Ec.
  replace (Zdigits2 (Zpos m) + e - (Zdigits2 (Zpos m) + e)) with 0 in * by lia.
  replace (e - e) with 0 in * by lia.
  change (Z.min (fexp 53 1024 0) 0) with (-53) in *.
  change (0 - -53) with 53 in Hqr.
  assert (Eq : q = 2 ^ 53 /\ r = 0).
  { assert (H : (q - 2 ^ 53) * Zpos m + r = 0) by lia.
    assert (Hc : q - 2 ^ 53 = 0 \/ q - 2 ^ 53 <= -1 \/ 1 <= q - 2 ^ 53) by lia.
    destruct Hc as [Hc | [Hc | Hc]]; [lia | nia | nia]. }
  destruct Eq as [-> ->].
  assert (El : new_location (Zpos m) 0 = loc_Exact).
  { unfold new_location, new_location_even, new_location_odd.
    destruct (Z.even (Zpos m)); reflexivity. }
  rewrite El. destruct s; vm_compute; reflexivity.
Qed.

(** The quotient of two positive floats, the first at most the second,
    is at most 1. *)
Lemma SFdiv_le_one (ma ms : positive) (ea es : Z) :
  Zpos ma * 2 ^ (ea - Z.min ea es) <= Zpos ms * 2 ^ (es - Z.min ea es) ->
  SFdiv 53 1024 (S754_finite false ma ea) (S754_finite false ms es)
  = S754_zero false \/
  exists mr er,
    SFdiv 53 1024 (S754_finite false ma ea) (S754_finite false ms es)
    = S754_finite false mr er /\
    er <= -52 /\ Zpos mr <= 2 ^ (- er).
Proof.
  intros Hle. unfold SFdiv.
  destruct (SFdiv_core_binary_spec ma ms ea es)
    as (q & r & Ec & Hqr & Hr & Hq).
  rewrite Ec. cbn [xorb].
  set (c := Z.min ea es) in *.
  set (e' := Z.min (fexp 53 1024 (Zdigits2 (Zpos ma) + ea
                                  - (Zdigits2 (Zpos ms) + es))) (ea - es)) in *.
  assert (Hdig : Zdigits2 (Zpos ma) + ea <= Zdigits2 (Zpos ms) + es).
  { assert (Hpa : 0 < 2 ^ (ea - c))
      by (apply Z.pow_pos_nonneg; unfold c; lia).
    assert (HA : 0 <= Zpos ma * 2 ^ (ea - c)) by nia.
    assert (H := Zdigits2_le _ _ (conj HA Hle)).
    rewrite !Zdigits2_mul_pow in H by (unfold c; lia). lia. }
  assert (He' : e' <= -53 /\ e' <= ea - es).
  { unfold e'. rewrite fexp64_eq. lia. }
  set (t := - e').
  assert (Hm' : Zpos ma * 2 ^ (ea - es - e') <= Zpos ms * 2 ^ t).
  { destruct (Z_le_gt_dec es ea) as [Hc | Hc].
    - replace (ea - es - e') with (ea - c + t) by (unfold c, t; lia).
      rewrite Z.pow_add_r by (unfold c, t; lia).
      replace (es - c) with 0 in Hle by (unfold c; lia).
      change (2 ^ 0) with 1 in Hle.
      assert (0 < 2 ^ t) by (apply Z.pow_pos_nonneg; unfold t; lia). nia.
    - replace t with (ea - es - e' + (es - c)) by (unfold c, t; lia).
      rewrite Z.pow_add_r by (unfold c; lia).
      replace (ea - c) with 0 in Hle by (unfold c; lia).
      change (2 ^ 0) with 1 in Hle.
      assert (0 < 2 ^ (ea - es - e')) by (apply Z.pow_pos_nonneg; lia).
      nia. }
  assert (Hpt : 0 < 2 ^ t) by (apply Z.pow_pos_nonneg; unfold t; lia).
  assert (Hq1 : q <= 2 ^ t) by nia.
  assert (Hq2 : r <> 0 -> q < 2 ^ t) by (intros; nia).
  set (n := Z.max 0 (fexp 53 1024 (Zdigits2 q + e') - e')).
  set (E := e' + n).
  assert (HE : E <= -52).
  { assert (Hdq := Zdigits2_le_pow q t ltac:(lia) ltac:(unfold t; lia)).
    unfold E, n. rewrite fexp64_eq. unfold t in Hdq. lia. }
  assert (Hn : 0 <= n) by (unfold n; lia).
  assert (EB : 2 ^ (- E) * 2 ^ n = 2 ^ t).
  { rewrite <- Z.pow_add_r by lia. f_equal. unfold E, t. lia. }
  assert (EdB : Zdigits2 (2 ^ (- E)) = - E + 1).
  { rewrite <- (Z.mul_1_l (2 ^ (- E))), Zdigits2_mul_pow by lia.
    cbn [Zdigits2 digits2_pos]. lia. }
  destruct (binary_round_aux_upper false q e'
              (new_location (Zpos ms) r) (2 ^ (- E)) Hq)
    as [Hz | (m3 & e3 & Hf & [He3a He3b] & Hm3)].
  - fold n. rewrite EB. exact Hq1.
  - fold n. rewrite EB. intros Hl. apply Hq2.
    exact (new_location_exact _ _ Hl).
  - fold n. fold E. rewrite EdB, fexp64_eq. lia.
  - left. exact Hz.
  - right. exists m3, e3. split; [exact Hf |].
    fold n in He3a, He3b, Hm3. fold E in He3a, He3b, Hm3.
    rewrite EdB, fexp64_eq in He3b.
    split; [lia |].
    assert (Esplit : 2 ^ (- E) = 2 ^ (- e3) * 2 ^ (e3 - E)).
    { rewrite <- Z.pow_add_r by lia. f_equal. lia. }
    rewrite Esplit in Hm3.
    assert (0 < 2 ^ (e3 - E)) by (apply Z.pow_pos_nonneg; lia).
    nia.
Qed.

(** The product of a positive float of at most 1 and a positive float in
    canonical form is at most the latter. *)
Lemma SFmul_le (mr mc : positive) (er ec : Z) :
  er <= 0 -> Zpos mr <= 2 ^ (- er) ->
  fexp 53 1024 (Zdigits2 (Zpos mc) + ec) = ec -> ec <= 971 ->
  SFmul 53 1024 (S754_finite false mr er) (S754_finite false mc ec)
  = S754_zero false \/
  exists m3 e3,
    SFmul 53 1024 (S754_finite false mr er) (S754_finite false mc ec)
    = S754_finite false m3 e3 /\
    e3 <= ec /\ Zpos m3 <= Zpos mc * 2 ^ (ec - e3).
Proof.
  intros Her Hmr Hc Hec. unfold SFmul. cbn [xorb].
  rewrite Pos2Z.inj_mul.
  set (m := Zpos mr * Zpos mc). set (e := er + ec).
  assert (He : e <= ec /\ ec - e = - er) by (unfold e; lia).
  assert (Hpr : 0 < 2 ^ (- er)) by (apply Z.pow_pos_nonneg; lia).
  assert (Hm : 0 <= m) by (unfold m; lia).
  assert (Hmle : m <= Zpos mc * 2 ^ (- er)) by (unfold m; nia).
  assert (Hdig : Zdigits2 m + e <= Zdigits2 (Zpos mc) + ec).
  { assert (H := Zdigits2_le m _ (conj Hm Hmle)).
    rewrite Zdigits2_mul_pow in H by lia. lia. }
  assert (Hf := fexp64_le _ _ Hdig). rewrite Hc in Hf.
  set (n := Z.max 0 (fexp 53 1024 (Zdigits2 m + e) - e)).
  set (E := e + n).
  destruct (Z_le_gt_dec (fexp 53 1024 (Zdigits2 m + e)) e) as [Hn | Hn].
  - assert (En : n = 0) by (unfold n; lia).
    assert (EE : E = e) by (unfold E; lia).
    destruct (binary_round_aux_upper false m e loc_Exact m Hm)
      as [Hz | (m3 & e3 & Hfin & [He3a He3b] & Hm3)].
    + fold n. rewrite En. change (2 ^ 0) with 1. lia.
    + intros Hl. contradiction.
    + fold n. fold E. rewrite EE. lia.
    + left. exact Hz.
    + right. exists m3, e3. split; [exact Hfin |].
      fold n in He3a, He3b, Hm3. fold E in He3a, He3b, Hm3.
      rewrite EE in He3a, He3b, Hm3.
      assert (Ee3 : e3 = e) by lia. subst e3.
      rewrite Z.sub_diag in Hm3. change (2 ^ 0) with 1 in Hm3.
      split; [lia |].
      replace (ec - e) with (- er) by lia. lia.
  - assert (En : n = fexp 53 1024 (Zdigits2 m + e) - e) by (unfold n; lia).
    assert (EE : E = fexp 53 1024 (Zdigits2 m + e)) by (unfold E; lia).
    assert (HEec : E <= ec) by lia.
    assert (HpB : 0 < 2 ^ (ec - E)) by (apply Z.pow_pos_nonneg; lia).
    assert (EB : Zpos mc * 2 ^ (ec - E) * 2 ^ n = Zpos mc * 2 ^ (- er)).
    { rewrite <- Z.mul_assoc, <- Z.pow_add_r by lia. do 2 f_equal. lia. }
    assert (EdB : Zdigits2 (Zpos mc * 2 ^ (ec - E)) + E
                  = Zdigits2 (Zpos mc) + ec).
    { rewrite Zdigits2_mul_pow by lia. lia. }
    destruct (binary_round_aux_upper false m e loc_Exact
                (Zpos mc * 2 ^ (ec - E)) Hm)
      as [Hz | (m3 & e3 & Hfin & [He3a He3b] & Hm3)].
    + fold n. rewrite EB. exact Hmle.
    + intros Hl. contradiction.
    + fold n. fold E. rewrite EdB, Hc. lia.
    + left. exact Hz.
    + right. exists m3, e3. split; [exact Hfin |].
      fold n in He3a, He3b, Hm3. fold E in He3a, He3b, Hm3.
      rewrite EdB, Hc in He3b.
      split; [lia |].
      assert (Esplit : 2 ^ (ec - E) = 2 ^ (ec - e3) * 2 ^ (e3 - E)).
      { rewrite <- Z.pow_add_r by lia. f_equal. lia. }
      rewrite Esplit in Hm3.
      assert (0 < 2 ^ (e3 - E)) by (apply Z.pow_pos_nonneg; lia).
      assert (0 < 2 ^ (ec - e3)) by (apply Z.pow_pos_nonneg; lia).
      nia.
Qed.

(** [int] of a positive float of at most [z]. *)
Lemma sf_int_le (m3 : positive) (e3 z : Z) :
  e3 <= 0 -> Zpos m3 <= z * 2 ^ (- e3) ->
  exists p, sf_int (PFloat (S754_finite false m3 e3)) = Ok p /\ 0 <= p <= z.
Proof.
  intros He Hm. cbn [sf_int]. eexists. split; [reflexivity |].
  unfold sf_value.
  destruct (Z.eq_dec e3 0) as [-> | Hne].
  - cbn [Z.leb Z.compare]. change (2 ^ 0) with 1.
    rewrite Z.mul_1_r, Qtruncate_Z.
    change (2 ^ (- 0)) with 1 in Hm. lia.
  - assert (El : (0 <=? e3) = false) by (apply Z.leb_gt; lia).
    rewrite El.
    assert (Hp : 0 < 2 ^ (- e3)) by (apply Z.pow_pos_nonneg; lia).
    unfold Qtruncate.
    assert (Eb : Qle_bool 0 (Zpos m3 # Z.to_pos (2 ^ (- e3))) = true).
    { unfold Qle_bool. cbn [Qnum Qden]. apply Z.leb_le. lia. }
    rewrite Eb. cbn [Qfloor]. rewrite Z2Pos.id by exact Hp. split.
    + apply Z.div_pos; lia.
    + apply Z.div_le_upper_bound; [exact Hp |]. lia.
Qed.

(** [int] of a float that is an integer. *)
Lemma sf_int_exact (mc : positive) (ec z : Z) :
  ec <= 0 -> Zpos mc = z * 2 ^ (- ec) ->
  sf_int (PFloat (S754_finite false mc ec)) = Ok z.
Proof.
  intros He Hm. cbn [sf_int]. f_equal. unfold sf_value.
  destruct (Z.eq_dec ec 0) as [-> | Hne].
  - cbn [Z.leb Z.compare]. change (2 ^ 0) with 1.
    rewrite Z.mul_1_r, Qtruncate_Z.
    change (2 ^ (- 0)) with 1 in Hm. lia.
  - assert (El : (0 <=? ec) = false) by (apply Z.leb_gt; lia).
    rewrite El.
    assert (Hp : 0 < 2 ^ (- ec)) by (apply Z.pow_pos_nonneg; lia).
    unfold Qtruncate.
    assert (Eb : Qle_bool 0 (Zpos mc # Z.to_pos (2 ^ (- ec))) = true).
    { unfold Qle_bool. cbn [Qnum Qden]. apply Z.leb_le. lia. }
    rewrite Eb. cbn [Qfloor]. rewrite Z2Pos.id by exact Hp.
    rewrite Hm. apply Z.div_mul. lia.
Qed.

Local Open Scope Q_scope.

Lemma two_pow_pos (c : Z) : 0 < (2 # 1) ^ c.
Proof. apply Qpower_0_lt. reflexivity. Qed.

(** The value of a positive float is its mantissa times a power of 2. *)
Lemma sf_value_pow (m : positive) (e : Z) :
  sf_value false m e == inject_Z (Zpos m) * (2 # 1) ^ e.
Proof.
  unfold sf_value. destruct (0 <=? e)%Z eqn:E.
  - apply Z.leb_le in E.
    rewrite inject_Z_mult, Zpower_Qpower by exact E. reflexivity.
  - apply Z.leb_gt in E.
    assert (Hp : (0 < 2 ^ (- e))%Z) by (apply Z.pow_pos_nonneg; lia).
    assert (Ee : (2 # 1) ^ e == / (2 # 1) ^ (- e)).
    { rewrite <- Qpower_opp. rewrite Z.opp_involutive. reflexivity. }
    rewrite Ee.
    change (2 # 1) with (inject_Z 2).
    rewrite <- Zpower_Qpower by lia.
    rewrite (Qmake_Qdiv (Zpos m) (Z.to_pos (2 ^ (- e)))).
    rewrite Z2Pos.id by exact Hp. reflexivity.
Qed.

Lemma sf_value_scaled (m : positive) (e c : Z) :
  (c <= e)%Z ->
  sf_value false m e == inject_Z (Zpos m * 2 ^ (e - c)) * (2 # 1) ^ c.
Proof.
  intros Hc. rewrite sf_value_pow, inject_Z_mult.
  rewrite Zpower_Qpower by lia. change (inject_Z 2) with (2 # 1).
  rewrite <- Qmult_assoc, <- Qpower_plus by discriminate.
  replace (e - c + c)%Z with e by lia. reflexivity.
Qed.

Lemma sf_value_pos (m : positive) (e : Z) : 0 < sf_value false m e.
Proof.
  rewrite sf_value_pow. apply Qmult_lt_0_compat; [reflexivity |].
  apply two_pow_pos.
Qed.

Lemma sf_value_neg (m : positive) (e : Z) : sf_value true m e < 0.
Proof.
  assert (H := sf_value_pos m e). unfold sf_value in *.
  destruct (0 <=? e)%Z; lra.
Qed.

(** The order of two positive floats, on mantissas brought to the
    smaller of the two exponents. *)
Lemma sf_value_le (ma ms : positive) (ea es : Z) :
  sf_value false ma ea <= sf_value false ms es ->
  (Zpos ma * 2 ^ (ea - Z.min ea es) <= Zpos ms * 2 ^ (es - Z.min ea es))%Z.
Proof.
  intros H.
  rewrite (sf_value_scaled ma ea (Z.min ea es)) in H by lia.
  rewrite (sf_value_scaled ms es (Z.min ea es)) in H by lia.
  apply Qmult_le_r in H; [| apply two_pow_pos].
  rewrite <- Zle_Qle in H. exact H.
Qed.

Local Close Scope Q_scope.

Lemma float_value_positive (x : spec_float) (v : Q) :
  float_value x = Some v -> (0 < v)%Q ->
  exists m e, x = S754_finite false m e /\ v = sf_value false m e.
Proof.
  intros Hv Hpos. destruct x as [s | s | | s m e]; try discriminate.
  - injection Hv as <-. discriminate Hpos.
  - injection Hv as <-. destruct s.
    + assert (H := sf_value_neg m e). lra.
    + exists m, e. split; reflexivity.
Qed.

Lemma float_value_nonneg (x : spec_float) (v : Q) :
  float_value x = Some v -> (0 <= v)%Q ->
  (exists s, x = S754_zero s) \/
  exists m e, x = S754_finite false m e /\ v = sf_value false m e.
Proof.
  intros Hv Hpos. destruct x as [s | s | | s m e]; try discriminate.
  - left. exists s. reflexivity.
  - injection Hv as <-. destruct s.
    + assert (H := sf_value_neg m e). lra.
    + right. exists m, e. split; reflexivity.
Qed.

(** [float(z)] for [0 <= z < 2^53] times a zero is a zero. *)
Lemma SFmul_zero_of_int (s : bool) (z : Z) :
  0 <= z < 2 ^ 53 ->
  exists s', SFmul 53 1024 (S754_zero s) (sf_of_int 53 1024 z) = S754_zero s'.
Proof.
  intros Hz. destruct (Z.eq_dec z 0) as [-> | Hne].
  - eexists. reflexivity.
  - destruct (sf_of_int_small z ltac:(lia)) as (mc & ec & -> & _).
    eexists. reflexivity.
Qed.

Lemma SFsub_same (x : spec_float) (v : Q) :
  float_value x = Some v -> exists s, SFsub 53 1024 x x = S754_zero s.
Proof.
  intros Hv. destruct x as [s | s | | s m e]; try discriminate.
  - destruct s; eexists; reflexivity.
  - unfold SFsub. rewrite Z.sub_diag. eexists. reflexivity.
Qed.

(** The pixel offset of a float whose distance from [min_val] is
    between 0 and [span]. *)
Lemma _scale_binary64_range (d span : spec_float) (height : Z) (vd vs : Q) :
  float_value d = Some vd -> float_value span = Some vs ->
  (0 <= vd <= vs)%Q -> (0 < vs)%Q -> 1 <= height <= 2 ^ 53 ->
  exists p,
    (r <- div (PFloat d) (PFloat span) ;;
     int_ (mul r (of_int (height - 1)))) = Ok p /\
    0 <= p <= height - 1.
Proof.
  intros Hd Hs [Hd0 Hds] Hs0 Hh.
  destruct (float_value_positive span vs Hs Hs0) as (ms & es & -> & Evs).
  assert (Hzero : forall s, exists p,
             int_ (mul (PFloat (S754_zero s)) (of_int (height - 1))) = Ok p /\
             0 <= p <= height - 1).
  { intros s. cbn [int_ mul of_int binary64 ieee py_mul to_float].
    destruct (SFmul_zero_of_int s (height - 1) ltac:(lia)) as (s' & ->).
    exists 0. split; [reflexivity | lia]. }
  destruct (float_value_nonneg d vd Hd Hd0)
    as [(s & ->) | (md & ed & -> & Evd)].
  - cbn [div binary64 ieee sf_div float_of bind SFdiv xorb]. apply Hzero.
  - cbn [div binary64 ieee sf_div float_of bind].
    rewrite Evd, Evs in Hds. apply sf_value_le in Hds.
    destruct (SFdiv_le_one md ms ed es Hds) as [-> | (mr & er & -> & Her & Hmr)].
    + apply Hzero.
    + cbn [int_ mul of_int binary64 ieee py_mul to_float].
      destruct (Z.eq_dec (height - 1) 0) as [E0 | Hne].
      * rewrite E0. exists 0. split; [reflexivity | lia].
      * destruct (sf_of_int_small (height - 1) ltac:(lia))
          as (mc & ec & -> & Hec & Emc & Hcan).
        destruct (SFmul_le mr mc er ec ltac:(lia) Hmr Hcan ltac:(lia))
          as [-> | (m3 & e3 & -> & He3 & Hm3)].
        -- exists 0. split; [reflexivity | lia].
        -- apply sf_int_le; [lia |].
           rewrite Emc in Hm3.
           rewrite <- Z.mul_assoc, <- Z.pow_add_r in Hm3 by lia.
           replace (- ec + (ec - e3)) with (- e3) in Hm3 by lia. exact Hm3.
Qed.

(** 1.0 times [float(z)] is [float(z)], and [int] gives [z] back. *)
Lemma _scale_binary64_top (d : spec_float) (height : Z) (vd : Q) :
  float_value d = Some vd -> (0 < vd)%Q -> 1 <= height <= 2 ^ 53 ->
  (r <- div (PFloat d) (PFloat d) ;;
   int_ (mul r (of_int (height - 1)))) = Ok (height - 1).
Proof.
  intros Hd Hpos Hh.
  destruct (float_value_positive d vd Hd Hpos) as (m & e & -> & _).
  cbn [div binary64 ieee sf_div float_of bind].
  rewrite SFdiv_same.
  cbn [int_ mul of_int binary64 ieee py_mul to_float].
  destruct (Z.eq_dec (height - 1) 0) as [E0 | Hne].
  - rewrite E0. reflexivity.
  - destruct (sf_of_int_small (height - 1) ltac:(lia))
      as (mc & ec & -> & Hec & Emc & Hcan).
    unfold SFmul. cbn [xorb].
    rewrite Pos2Z.inj_mul.
    replace (Zpos 4503599627370496 * Zpos mc) with (Zpos mc * 2 ^ 52) by lia.
    replace (-52 + ec) with (ec - 52) by lia.
    rewrite binary_round_aux_shifted by lia.
    apply sf_int_exact; [lia | exact Emc].
Qed.




Local Open Scope Q_scope.

(** ** _scale *)

(** [_scale] in exact arithmetic: truncation of the scaled ratio. *)
Lemma _scale_exact (value min_val span : Q) (height : Z) :
  0 < span ->
  _scale value min_val span height =
  Ok (Qtruncate ((value - min_val) / span * inject_Z (height - 1))).
Proof.
  intros Hs. unfold _scale.
  rewrite div_exact by (intros E; rewrite E in Hs; discriminate).
  reflexivity.
Qed.

Lemma scaled_ratio_bounds (value min_val span : Q) (height : Z) :
  0 < span -> (1 <= height)%Z ->
  min_val <= value <= min_val + span ->
  0 <= (value - min_val) / span * inject_Z (height - 1) <= inject_Z (height - 1).
Proof.
  intros Hs Hh [Hlo Hhi].
  assert (Hh1 : 0 <= inject_Z (height - 1)).
  { change 0 with (inject_Z 0). rewrite <- Zle_Qle. lia. }
  assert (Hr0 : 0 <= (value - min_val) / span).
  { apply Qle_shift_div_l; [exact Hs | lra]. }
  assert (Hr1 : (value - min_val) / span <= 1).
  { apply Qle_shift_div_r; [exact Hs | lra]. }
  split; [apply Qmult_le_0_compat; assumption |].
  rewrite <- (Qmult_1_l (inject_Z (height - 1))) at 2.
  apply Qmult_le_compat_r; assumption.
Qed.

(** C3 as stated fails: [_scale] truncates where the claim rounds.  For
    value 9 in the range 0..10 and height 2 the scaled ratio is 0.9:
    [int] gives 0 (in exact arithmetic as in binary64), [round] gives 1. *)
Lemma scale_truncates_where_round_differs :
  let value := 9 in let min_val := 0 in let span := 10 in
  let height := 2%Z in
  0 < span /\ (1 <= height)%Z /\ min_val <= value <= min_val + span /\
  _scale value min_val span height = Ok 0%Z /\
  _scale (F := pynum) (of_int 9) (of_int 0) (of_int 10) height = Ok 0%Z /\
  py_round ((value - min_val) / span * inject_Z (height - 1)) = 1%Z /\
  _scale value min_val span height <>
  Ok (py_round ((value - min_val) / span * inject_Z (height - 1))).
Proof.
  cbv zeta.
  split; [reflexivity |]. split; [lia |].
  split; [split; discriminate |].
  split; [vm_compute; reflexivity |].
  split; [vm_compute; reflexivity |].
  split; [vm_compute; reflexivity |].
  intros E. vm_compute in E. discriminate E.
Qed.

(** In exact arithmetic [_scale] returns the scaled ratio
    [(value - min_val) / span * (height - 1)] truncated towards zero,
    which is its floor, an integer in [0, height - 1]. *)
Lemma _scale_exact_floor (value min_val span : Q) (height : Z) :
  0 < span -> (1 <= height)%Z ->
  min_val <= value <= min_val + span ->
  exists p : Z,
    _scale value min_val span height = Ok p /\
    p = Qtruncate ((value - min_val) / span * inject_Z (height - 1)) /\
    p = Qfloor ((value - min_val) / span * inject_Z (height - 1)) /\
    (0 <= p <= height - 1)%Z.
Proof.
  intros Hs Hh Hv.
  destruct (scaled_ratio_bounds value min_val span height Hs Hh Hv)
    as [H0 H1].
  eexists. split; [apply _scale_exact; exact Hs |].
  split; [reflexivity |].
  rewrite Qtruncate_nonneg by exact H0.
  split; [reflexivity |]. split.
  - change 0%Z with (Qfloor 0). apply Qfloor_resp_le. exact H0.
  - rewrite <- (Qfloor_Z (height - 1)) at 2. apply Qfloor_resp_le. exact H1.
Qed.

(** C3, amended: [_scale] truncates, it does not round.  With Python
    floats, for [1 <= height <= 2^53], a finite [span > 0] and a float
    difference [value - min_val] that is finite and between 0 and
    [span], [_scale] returns an integer in [0, height - 1].  In exact
    arithmetic, for [span > 0] and [min_val <= value <= min_val + span],
    it returns the floor of [(value - min_val) / span * (height - 1)],
    in [0, height - 1]; the float result can be one below that floor,
    because the quotient and the product are rounded before [int]
    truncates: [_scale(1, 0, 49, 50)] is 0 where the exact ratio is 1. *)
Theorem scale_truncates_into_range (height : Z) :
  (1 <= height)%Z ->
  ((height <= 2 ^ 53)%Z ->
   forall (value min_val span : spec_float) (vd vs : Q),
     num_value (sub (PFloat value) (PFloat min_val)) = Some vd ->
     num_value (PFloat span) = Some vs ->
     0 <= vd <= vs -> 0 < vs ->
     exists p : Z,
       _scale (PFloat value) (PFloat min_val) (PFloat span) height = Ok p /\
       (0 <= p <= height - 1)%Z) /\
  (forall value min_val span : Q,
     0 < span -> min_val <= value <= min_val + span ->
     exists p : Z,
       _scale value min_val span height = Ok p /\
       p = Qfloor ((value - min_val) / span * inject_Z (height - 1)) /\
       (0 <= p <= height - 1)%Z) /\
  (_scale (F := Q) 1 0 49 50 = Ok 1%Z /\
   _scale (F := pynum) (of_int 1) (of_int 0) (of_int 49) 50 = Ok 0%Z).
Proof.
  intros Hh. split; [| split].
  - intros Hh' value min_val span vd vs Hd Hs Hv Hs0.
    unfold _scale.
    cbn [sub binary64 ieee py_sub to_float num_value] in Hd |- *.
    cbn [num_value] in Hs.
    exact (_scale_binary64_range _ span height vd vs Hd Hs Hv Hs0
             (conj Hh Hh')).
  - intros value min_val span Hs Hv.
    destruct (_scale_exact_floor value min_val span height Hs Hh Hv)
      as (p & Hp & _ & Hfl & Hr).
    exists p. split; [exact Hp |]. split; [exact Hfl | exact Hr].
  - split; vm_compute; reflexivity.
Qed.

Lemma scale_truncates_into_range_witness :
  (1 <= 64)%Z /\ (64 <= 2 ^ 53)%Z /\
  exists p : Z,
    _scale (PFloat (sf_lit 53 1024 (250 # 1)))
           (PFloat (sf_lit 53 1024 (100 # 1)))
           (PFloat (sf_lit 53 1024 (300 # 1))) 64 = Ok p /\
    (0 <= p <= 64 - 1)%Z.
Proof.
  assert (Hh : (1 <= 64)%Z) by lia.
  assert (Hh' : (64 <= 2 ^ 53)%Z) by (vm_compute; discriminate).
  split; [exact Hh |]. split; [exact Hh' |].
  eapply (proj1 (scale_truncates_into_range 64 Hh) Hh').
  - vm_compute. reflexivity.
  - vm_compute. reflexivity.
  - split; vm_compute; discriminate.
  - vm_compute. reflexivity.
Defined.

(** C4 as stated fails in floating point.  In binary64, 0.7 + 0.1 is
    0.7999999999999999, less 0.7 is 0.09999999999999998, over 0.1 is
    0.9999999999999998, times 63 is 62.99999999999999, and [int]
    truncates: the upper end of the range lands on pixel 62 of 0..63. *)
Lemma scale_upper_endpoint_binary64 :
  let min_val : pynum := lit (7 # 10) in
  let span : pynum := lit (1 # 10) in
  let height := 64%Z in
  ltb (of_int 0) span = true /\ (1 <= height)%Z /\
  _scale min_val min_val span height = Ok 0%Z /\
  _scale (add min_val span) min_val span height = Ok 62%Z /\
  _scale (add min_val span) min_val span height <> Ok (height - 1)%Z.
Proof.
  cbv zeta.
  split; [vm_compute; reflexivity |]. split; [lia |].
  split; [vm_compute; reflexivity |].
  split; [vm_compute; reflexivity |].
  intros E. vm_compute in E. discriminate E.
Qed.

(** In exact arithmetic [_scale] sends [min_val] to 0 and
    [min_val + span] to [height - 1]. *)
Lemma scale_endpoints_exact (min_val span : Q) (height : Z) :
  0 < span -> (1 <= height)%Z ->
  _scale min_val min_val span height = Ok 0%Z /\
  _scale (min_val + span) min_val span height = Ok (height - 1)%Z.
Proof.
  intros Hs Hh.
  assert (Hn : ~ span == 0) by (intros E; rewrite E in Hs; discriminate).
  rewrite !_scale_exact by exact Hs. split; f_equal.
  - rewrite (Qtruncate_comp _ (inject_Z 0)); [apply Qtruncate_Z |].
    change (inject_Z 0) with 0. field. exact Hn.
  - rewrite (Qtruncate_comp _ (inject_Z (height - 1))); [apply Qtruncate_Z |].
    field. exact Hn.
Qed.

(** C4, amended: with Python floats and [1 <= height <= 2^53], [_scale]
    sends a finite [min_val] to 0 for every finite [span > 0], and
    sends [max_val] to [height - 1] when [span] is the float difference
    [max_val - min_val], as [draw_chart] forms it, finite and above 0.
    Only the upper end written as [min_val + span] can land one pixel
    lower, the sum being rounded; in exact arithmetic it is
    [height - 1] too. *)
Theorem scale_endpoints_binary64 (height : Z) :
  (1 <= height <= 2 ^ 53)%Z ->
  (forall (min_val span : spec_float) (vmin vs : Q),
     num_value (PFloat min_val) = Some vmin ->
     num_value (PFloat span) = Some vs -> 0 < vs ->
     _scale (PFloat min_val) (PFloat min_val) (PFloat span) height
     = Ok 0%Z) /\
  (forall (min_val max_val : spec_float) (vs : Q),
     let span := sub (PFloat max_val) (PFloat min_val) in
     num_value span = Some vs -> 0 < vs ->
     _scale (PFloat max_val) (PFloat min_val) span height
     = Ok (height - 1)%Z) /\
  (forall min_val span : Q,
     0 < span ->
     _scale min_val min_val span height = Ok 0%Z /\
     _scale (min_val + span) min_val span height = Ok (height - 1)%Z).
Proof.
  intros Hh. split; [| split].
  - intros min_val span vmin vs Hmin Hs Hs0.
    cbn [num_value] in Hmin, Hs.
    destruct (SFsub_same min_val vmin Hmin) as (s & Es).
    destruct (float_value_positive span vs Hs Hs0) as (ms & es & -> & _).
    unfold _scale. cbn [sub binary64 ieee py_sub to_float]. rewrite Es.
    cbn [div binary64 ieee sf_div float_of bind SFdiv].
    cbn [int_ mul of_int binary64 ieee py_mul to_float].
    destruct (SFmul_zero_of_int (xorb s false) (height - 1) ltac:(lia))
      as (s' & ->).
    reflexivity.
  - intros min_val max_val vs span Hs Hs0. unfold span in *.
    unfold _scale. cbn [sub binary64 ieee py_sub to_float num_value] in Hs |- *.
    exact (_scale_binary64_top _ height vs Hs Hs0 Hh).
  - intros min_val span Hs.
    exact (scale_endpoints_exact min_val span height Hs ltac:(lia)).
Qed.

Lemma scale_endpoints_binary64_witness :
  (1 <= 64 <= 2 ^ 53)%Z /\
  _scale (F := pynum) (lit (7 # 10)) (lit (7 # 10)) (lit (1 # 10)) 64
  = Ok 0%Z /\
  (let max_val : pynum := add (lit (7 # 10)) (lit (1 # 10)) in
   _scale max_val (lit (7 # 10)) (sub max_val (lit (7 # 10))) 64
   = Ok (64 - 1)%Z).
Proof.
  assert (Hh : (1 <= 64 <= 2 ^ 53)%Z)
    by (split; [lia | vm_compute; discriminate]).
  split; [exact Hh |]. split.
  - eapply (proj1 (scale_endpoints_binary64 64 Hh)).
    + vm_compute. reflexivity.
    + vm_compute. reflexivity.
    + vm_compute. reflexivity.
  - cbv zeta.
    eapply (proj1 (proj2 (scale_endpoints_binary64 64 Hh))
              (sf_lit 53 1024 (7 # 10))
              (SFadd 53 1024 (sf_lit 53 1024 (7 # 10))
                     (sf_lit 53 1024 (1 # 10)))).
    + vm_compute. reflexivity.
    + vm_compute. reflexivity.
Defined.

(** ** Sequences *)

Lemma getitem_nth {A : Type} (l : list A) (i : Z) (d : A) :
  (0 <= i < len l)%Z -> getitem l i = Ok (nth (Z.to_nat i) l d).
Proof.
  unfold getitem, len. intros Hi.
  assert (E : (i <? 0)%Z = false) by lia. rewrite E. cbv zeta. rewrite E.
  rewrite (nth_error_nth' l d) by lia. reflexivity.
Qed.

Lemma nth_pred_length {A : Type} (l : list A) (d : A) :
  l <> [] -> nth (List.length l - 1) l d = last l d.
Proof.
  intros Hl. rewrite (app_removelast_last d Hl) at 1 2.
  rewrite length_app. cbn [List.length].
  rewrite app_nth2 by lia.
  replace (List.length (removelast l) + 1 - 1 - List.length (removelast l))%nat
    with O by lia.
  reflexivity.
Qed.

Lemma getitem_last {A : Type} (l : list A) (d : A) :
  l <> [] -> getitem l (-1) = Ok (last l d).
Proof.
  intros Hl. unfold getitem. change (-1 <? 0)%Z with true. cbv iota zeta.
  assert (Hpos : (0 < len l)%Z).
  { unfold len. destruct l; [contradiction | cbn; lia]. }
  assert (E : (-1 + len l <? 0)%Z = false) by lia. rewrite E.
  rewrite (nth_error_nth' l d) by (unfold len in *; lia).
  f_equal. rewrite <- (nth_pred_length l d Hl). f_equal. unfold len. lia.
Qed.

Lemma range_seq (stop : Z) :
  range stop = map Z.of_nat (seq 0 (Z.to_nat stop)).
Proof.
  unfold range, range3.
  replace ((stop - 0 + 1 - 1) / 1)%Z with stop
    by (rewrite Z.div_1_r; lia).
  apply map_ext. intros k. lia.
Qed.

(** ** _resample *)

Lemma _resample_for_Forall2 (values : list Q) (n target_len : Z)
      (indices : list Z) : forall result,
  (forall i, In i indices -> returns (_resample_at values n target_len i)) ->
  exists outs,
    _resample_for values n target_len indices result = Ok (result ++ outs) /\
    Forall2 (fun i v => _resample_at values n target_len i = Ok v)
            indices outs.
Proof.
  induction indices as [| i indices IH]; intros result Hall.
  - exists []. rewrite app_nil_r. split; [reflexivity | constructor].
  - destruct (Hall i (or_introl eq_refl)) as (v & Hv).
    destruct (IH (result ++ [v])) as (outs & Hfor & Hrel).
    { intros j Hj. apply Hall. right. exact Hj. }
    exists (v :: outs). cbn [_resample_for]. rewrite Hv. cbn [bind].
    rewrite Hfor, <- app_assoc. split; [reflexivity |].
    constructor; assumption.
Qed.

(** The value the loop body computes at index [i], in exact arithmetic:
    the interpolation between the two samples around the source position
    [i * (n - 1) / (target_len - 1)], which lies inside the input. *)
Lemma _resample_at_exact (values : list Q) (n target_len i : Z) :
  n = len values -> (1 <= n)%Z -> (2 <= target_len)%Z ->
  (0 <= i <= target_len - 1)%Z ->
  let pos := inject_Z (i * (n - 1)) / inject_Z (target_len - 1) in
  let low := Qfloor pos in
  let high := Z.min (low + 1) (n - 1) in
  (0 <= low <= n - 1)%Z /\
  _resample_at values n target_len i =
  Ok (nth (Z.to_nat low) values 0 * (1 - (pos - inject_Z low)) +
      nth (Z.to_nat high) values 0 * (pos - inject_Z low)).
Proof.
  intros Hn Hn1 Ht Hi pos low high.
  assert (Hd : 0 < inject_Z (target_len - 1)).
  { change 0 with (inject_Z 0). rewrite <- Zlt_Qlt. lia. }
  assert (Hp0 : 0 <= pos).
  { apply Qle_shift_div_l; [exact Hd |]. rewrite Qmult_0_l.
    change 0 with (inject_Z 0). rewrite <- Zle_Qle. nia. }
  assert (Hp1 : pos <= inject_Z (n - 1)).
  { apply Qle_shift_div_r; [exact Hd |].
    rewrite <- inject_Z_mult, <- Zle_Qle. nia. }
  assert (Hlow : (0 <= low <= n - 1)%Z).
  { split.
    - change 0%Z with (Qfloor 0). apply Qfloor_resp_le. exact Hp0.
    - rewrite <- (Qfloor_Z (n - 1)). apply Qfloor_resp_le. exact Hp1. }
  split; [exact Hlow |].
  unfold _resample_at.
  rewrite div_exact by (intros E; rewrite E in Hd; discriminate).
  cbn [bind int_ of_int sub add mul exact]. fold pos.
  rewrite Qtruncate_nonneg by exact Hp0. fold low. fold high.
  rewrite (getitem_nth values low 0) by lia.
  rewrite (getitem_nth values high 0) by lia.
  reflexivity.
Qed.






(** ** Decimal logarithm *)

Lemma ilog10_spec (fuel : nat) : forall n : Z,
  (1 <= n < 2 ^ Z.of_nat fuel)%Z ->
  (0 <= ilog10 fuel n)%Z /\
  (10 ^ ilog10 fuel n <= n < 10 ^ (ilog10 fuel n + 1))%Z.
Proof.
  induction fuel as [| fuel IH]; intros n Hn.
  - cbn in Hn. lia.
  - cbn [ilog10]. destruct (n <? 10)%Z eqn:E.
    + cbn. lia.
    + assert (Hq : (1 <= n / 10 < 2 ^ Z.of_nat fuel)%Z).
      { rewrite Nat2Z.inj_succ, Z.pow_succ_r in Hn by lia.
        split.
        - apply Z.div_le_lower_bound; lia.
        - apply Z.div_lt_upper_bound; lia. }
      destruct (IH (n / 10)%Z Hq) as (Hk & Hlo & Hhi).
      set (k := ilog10 fuel (n / 10)) in *.
      assert (Hdm := Z.div_mod n 10 ltac:(lia)).
      assert (Hm := Z.mod_pos_bound n 10 ltac:(lia)).
      replace (1 + k + 1)%Z with (Z.succ (k + 1)) by lia.
      replace (1 + k)%Z with (Z.succ k) by lia.
      rewrite !Z.pow_succ_r by lia.
      split; [lia |]. split; lia.
Qed.

Lemma Zlog10_spec (n : Z) :
  (1 <= n)%Z ->
  (0 <= Zlog10 n)%Z /\ (10 ^ Zlog10 n <= n < 10 ^ (Zlog10 n + 1))%Z.
Proof.
  intros Hn. unfold Zlog10. apply ilog10_spec.
  split; [exact Hn |].
  rewrite Nat2Z.inj_succ, Z2Nat.id by apply Z.log2_nonneg.
  apply Z.log2_spec. lia.
Qed.

Lemma ten_pos : 0 < ten.
Proof. reflexivity. Qed.

Lemma ten_neq_0 : ~ ten == 0.
Proof. discriminate. Qed.

Lemma ten_pow_pos (k : Z) : 0 < ten ^ k.
Proof. apply Qpower_0_lt. exact ten_pos. Qed.

Lemma ten_pow_succ (k : Z) : ten ^ (k + 1) == ten * ten ^ k.
Proof.
  rewrite Qpower_plus by exact ten_neq_0.
  change (ten ^ 1) with ten. ring.
Qed.

Lemma ten_pow_inject (k : Z) : (0 <= k)%Z -> inject_Z (10 ^ k) == ten ^ k.
Proof. intros Hk. unfold ten. apply Zpower_Qpower. exact Hk. Qed.

(** [Qfloor_log10 x] is the floor of the decimal logarithm of [x]. *)
Lemma Qfloor_log10_spec (x : Q) :
  0 < x ->
  ten ^ Qfloor_log10 x <= x /\ x < ten ^ (Qfloor_log10 x + 1).
Proof.
  intros Hx. destruct x as [a b].
  assert (Ha : (1 <= a)%Z).
  { unfold Qlt in Hx. cbn in Hx. lia. }
  destruct (Zlog10_spec a Ha) as (Hda & Halo & Hahi).
  destruct (Zlog10_spec (Zpos b) ltac:(lia)) as (Hdb & Hblo & Hbhi).
  unfold Qfloor_log10. cbn [Qnum Qden].
  set (da := Zlog10 a) in *. set (db := Zlog10 (Zpos b)) in *.
  assert (HB : 0 < inject_Z (Zpos b)) by reflexivity.
  assert (Hab : a # b == inject_Z a / inject_Z (Zpos b))
    by apply Qmake_Qdiv.
  (* the bounds on numerator and denominator, in Q *)
  assert (QAlo : ten ^ da <= inject_Z a).
  { rewrite <- ten_pow_inject by lia. rewrite <- Zle_Qle. lia. }
  assert (QAhi : inject_Z a < ten ^ (da + 1)).
  { rewrite <- ten_pow_inject by lia. rewrite <- Zlt_Qlt. lia. }
  assert (QBlo : ten ^ db <= inject_Z (Zpos b)).
  { rewrite <- ten_pow_inject by lia. rewrite <- Zle_Qle. lia. }
  assert (QBhi : inject_Z (Zpos b) < ten ^ (db + 1)).
  { rewrite <- ten_pow_inject by lia. rewrite <- Zlt_Qlt. lia. }
  assert (Hup : a # b < ten ^ (da - db + 1)).
  { rewrite Hab. apply Qlt_shift_div_r; [exact HB |].
    apply Qlt_le_trans with (1 := QAhi).
    replace (da + 1)%Z with ((da - db + 1) + db)%Z by lia.
    rewrite Qpower_plus by exact ten_neq_0.
    apply Qmult_le_l; [apply ten_pow_pos | exact QBlo]. }
  assert (Hdown : ten ^ (da - db - 1) <= a # b).
  { rewrite Hab. apply Qle_shift_div_l; [exact HB |].
    apply Qle_trans with (2 := QAlo).
    replace da with ((da - db - 1) + (db + 1))%Z at 2 by lia.
    rewrite Qpower_plus by exact ten_neq_0.
    apply Qmult_le_l; [apply ten_pow_pos |].
    apply Qlt_le_weak. exact QBhi. }
  destruct (Qle_bool (ten ^ (da - db)) (a # b)) eqn:E.
  - apply Qle_bool_iff in E. split; assumption.
  - split; [exact Hdown |].
    replace (da - db - 1 + 1)%Z with (da - db)%Z by lia.
    apply Qnot_le_lt. intros Hle. apply Qle_bool_iff in Hle. congruence.
Qed.

(** ** _nice_step *)

Lemma leb_exact_true (x y : Q) : x <= y -> leb x y = true.
Proof. intros Hxy. cbn. apply Qle_bool_iff. exact Hxy. Qed.

Lemma leb_exact_false (x y : Q) : leb x y = false -> ~ x <= y.
Proof. cbn. intros E Hxy. apply Qle_bool_iff in Hxy. congruence. Qed.

Lemma candidate_neq_0 (factor : Z) (magnitude : Q) :
  (0 < factor)%Z -> 0 < magnitude -> ~ inject_Z factor * magnitude == 0.
Proof.
  intros Hf Hm E.
  assert (Hp : 0 < inject_Z factor * magnitude).
  { apply Qmult_lt_0_compat; [| exact Hm].
    change 0 with (inject_Z 0). rewrite <- Zlt_Qlt. exact Hf. }
  rewrite E in Hp. discriminate.
Qed.

(** The decade below the rough step: [4 * 10^k <= span < 40 * 10^k]. *)
Lemma magnitude_brackets (span : Q) :
  0 < span ->
  let k := Qfloor_log10 (span / inject_Z 4) in
  4 * ten ^ k <= span /\ span < 40 * ten ^ k.
Proof.
  intros Hs k.
  assert (Hr : 0 < span / inject_Z 4).
  { apply Qlt_shift_div_l; [reflexivity | lra]. }
  destruct (Qfloor_log10_spec _ Hr) as [Hlo Hhi]. fold k in Hlo, Hhi.
  rewrite ten_pow_succ in Hhi. unfold ten in Hhi at 1.
  assert (Hq : span / inject_Z 4 == span * (1 # 4)) by (field; discriminate).
  rewrite Hq in Hlo, Hhi. change (inject_Z 10) with 10 in Hhi.
  split; lra.
Qed.

(** For a positive span [_nice_step] runs its loop over the factors
    with the magnitude [10^k], [k = floor(log10(span / 4))]. *)
Lemma _nice_step_magnitude (span : Q) :
  0 < span ->
  _nice_step span =
  _nice_step_for span (ten ^ Qfloor_log10 (span / inject_Z 4)) [1; 2; 5; 10]%Z.
Proof.
  intros Hs.
  assert (Hr : 0 < span / inject_Z 4).
  { apply Qlt_shift_div_l; [reflexivity | lra]. }
  unfold _nice_step. change (@of_int Q exact) with inject_Z.
  rewrite div_exact by discriminate. cbn [bind].
  assert (Egt : ltb (inject_Z 0) (span / inject_Z 4) = true).
  { change (negb (Qle_bool (span / inject_Z 4) 0) = true).
    destruct (Qle_bool (span / inject_Z 4) 0) eqn:E; [| reflexivity].
    apply Qle_bool_iff in E. lra. }
  rewrite Egt.
  assert (Elog : floor_log10 (span / inject_Z 4) =
                 Ok (Qfloor_log10 (span / inject_Z 4))).
  { change ((if Qle_bool (span / inject_Z 4) 0
             then Raise ValueError
             else Ok (Qfloor_log10 (span / inject_Z 4))) =
            Ok (Qfloor_log10 (span / inject_Z 4))).
    destruct (Qle_bool (span / inject_Z 4) 0) eqn:E; [| reflexivity].
    apply Qle_bool_iff in E. lra. }
  rewrite Elog. reflexivity.
Qed.

(** The loop over the factors, for a magnitude [M > 0] with
    [span < 40 * M]: the first factor whose candidate passes the test is
    returned, and the last one, 10, always passes. *)
Lemma _nice_step_for_first (span M : Q) :
  0 < M -> span < 40 * M ->
  exists factor : Z,
    In factor [1; 2; 5; 10]%Z /\
    _nice_step_for span M [1; 2; 5; 10]%Z = Ok (inject_Z factor * M) /\
    span / (inject_Z factor * M) <= 6 /\
    0 < inject_Z factor * M /\
    forall smaller : Z,
      In smaller [1; 2; 5; 10]%Z -> (smaller < factor)%Z ->
      ~ span / (inject_Z smaller * M) <= 6.
Proof.
  intros HM Hhi.
  assert (H10 : span / (inject_Z 10 * M) <= inject_Z 6).
  { apply Qle_shift_div_r.
    - apply Qmult_lt_0_compat; [reflexivity | exact HM].
    - change (inject_Z 10) with 10. change (inject_Z 6) with 6. lra. }
  assert (Hpos : forall f, (0 < f)%Z -> 0 < inject_Z f * M).
  { intros f Hf. apply Qmult_lt_0_compat; [| exact HM].
    change 0 with (inject_Z 0). rewrite <- Zlt_Qlt. exact Hf. }
  cbn [_nice_step_for].
  change (@of_int Q exact) with inject_Z.
  change (@mul Q exact) with Qmult.
  rewrite !div_exact by (apply candidate_neq_0; [lia | exact HM]).
  cbn [bind].
  destruct (leb (span / (inject_Z 1 * M)) (inject_Z 6)) eqn:E1;
    [| apply leb_exact_false in E1;
       destruct (leb (span / (inject_Z 2 * M)) (inject_Z 6)) eqn:E2;
       [| apply leb_exact_false in E2;
          destruct (leb (span / (inject_Z 5 * M)) (inject_Z 6)) eqn:E5;
          [| apply leb_exact_false in E5;
             rewrite (leb_exact_true _ _ H10)]]].
  - exists 1%Z. split; [cbn; auto |]. split; [reflexivity |].
    split; [cbn in E1; apply Qle_bool_iff in E1; exact E1 |].
    split; [apply Hpos; lia |].
    intros f Hin Hlt. cbn in Hin. lia.
  - exists 2%Z. split; [cbn; auto |]. split; [reflexivity |].
    split; [cbn in E2; apply Qle_bool_iff in E2; exact E2 |].
    split; [apply Hpos; lia |].
    intros f Hin Hlt. cbn in Hin.
    assert (Hf : f = 1%Z) by lia. subst f. exact E1.
  - exists 5%Z. split; [cbn; auto |]. split; [reflexivity |].
    split; [cbn in E5; apply Qle_bool_iff in E5; exact E5 |].
    split; [apply Hpos; lia |].
    intros f Hin Hlt. cbn in Hin.
    assert (Hf : f = 1%Z \/ f = 2%Z) by lia.
    destruct Hf as [-> | ->]; assumption.
  - exists 10%Z. split; [cbn; auto |]. split; [reflexivity |].
    split; [exact H10 |].
    split; [apply Hpos; lia |].
    intros f Hin Hlt. cbn in Hin.
    assert (Hf : f = 1%Z \/ f = 2%Z \/ f = 5%Z) by lia.
    destruct Hf as [-> | [-> | ->]]; assumption.
Qed.





Local Close Scope Q_scope.

(** ** draw_chart on an empty history *)

(** C9 as stated fails: the placeholder is not centered.  The text goes
    to column 59, four pixels right of the left edge of the chart, with
    its top on row 66.  In the 8 x 8 font its 11 characters are 88
    pixels wide: 4 columns are left of it and 143 right of it, 32 rows
    are above it and 24 below.  At column 59 only a text of 226 to 228
    pixels would be centered in the 235 columns of the chart. *)
Lemma placeholder_is_not_centered :
  draw_chart (F := pynum) 0 [] (RingBuffer.__init__ 96) "24h" =
  Ok [Rect 54 33 237 66 FG_COLOR; Text (Lit "keine Daten") 59 66 FG_COLOR] /\
  str_len "keine Daten" = 11 /\
  ~ centered 55 235 59 (8 * str_len "keine Daten") /\
  ~ centered 34 64 66 8 /\
  forall text_width : Z, centered 55 235 59 text_width ->
                         226 <= text_width <= 228.
Proof.
  split; [reflexivity |]. split; [reflexivity |].
  unfold centered. split; [| split].
  - change (str_len "keine Daten") with 11. lia.
  - lia.
  - intros text_width. lia.
Qed.

(** C9: on a history without data, [draw_chart] raises nothing, whatever
    the fuel, and makes two drawing calls: the border rectangle, one
    pixel around the 235 x 64 chart area at (55, 34), then the
    placeholder text "keine Daten" in the middle row of the chart
    ([y = 34 + 64 // 2]), four pixels right of its left edge; nothing
    else is computed or drawn. *)
Theorem draw_chart_empty_history {F : Type} `{Num F} (fuel : nat)
        (fb : framebuf F) (history : RingBuffer.t F) (span_label : string) :
  RingBuffer.data history = [] ->
  draw_chart fuel fb history span_label =
  Ok (fb ++ [Rect 54 33 237 66 FG_COLOR;
             Text (Lit "keine Daten") 59 66 FG_COLOR]).
Proof.
  intros Hdata. unfold draw_chart. rewrite Hdata.
  unfold fb_text, fb_rect. rewrite <- app_assoc. reflexivity.
Qed.

Lemma draw_chart_empty_history_witness :
  RingBuffer.data (RingBuffer.__init__ (A := Q) 96) = [] /\
  draw_chart 0 [] (RingBuffer.__init__ (A := Q) 96) "24h" =
  Ok [Rect 54 33 237 66 0; Text (Lit "keine Daten") 59 66 0].
Proof.
  split; [reflexivity |].
  exact (draw_chart_empty_history 0 [] (RingBuffer.__init__ 96) "24h" eq_refl).
Defined.

(** ** _draw_x_grid *)

Lemma range3_multiples (step stop : Z) :
  1 <= step ->
  range3 step stop step =
  map (fun k => Z.of_nat k * step) (seq 1 (Z.to_nat ((stop - 1) / step))).
Proof.
  intros Hs. unfold range3.
  replace (stop - step + step - 1) with (stop - 1) by lia.
  rewrite <- seq_shift, map_map. apply map_ext.
  intros k. rewrite Nat2Z.inj_succ. ring.
Qed.

(** A dashed line of [length] pixels is drawn within [length / 5 + 1]
    tests of the loop guard. *)
Lemma _vline_dashed_while_returns {F : Type} `{Num F} (fuel : nat) :
  forall (fb : framebuf F) (pos end_ x color dash gap : Z),
  0 < dash + gap ->
  end_ - pos <= Z.of_nat fuel * (dash + gap) ->
  returns (_vline_dashed_while (S fuel) fb pos end_ x color dash gap).
Proof.
  induction fuel as [| fuel IH]; intros fb pos end_ x color dash gap Hd Hl;
    cbn [_vline_dashed_while].
  - assert (E : (pos <? end_) = false) by lia. rewrite E.
    eexists; reflexivity.
  - destruct (pos <? end_) eqn:E; [| eexists; reflexivity].
    apply IH; [exact Hd | nia].
Qed.

Lemma _hline_dashed_while_returns {F : Type} `{Num F} (fuel : nat) :
  forall (fb : framebuf F) (pos end_ y color dash gap : Z),
  0 < dash + gap ->
  end_ - pos <= Z.of_nat fuel * (dash + gap) ->
  returns (_hline_dashed_while (S fuel) fb pos end_ y color dash gap).
Proof.
  induction fuel as [| fuel IH]; intros fb pos end_ y color dash gap Hd Hl;
    cbn [_hline_dashed_while].
  - assert (E : (pos <? end_) = false) by lia. rewrite E.
    eexists; reflexivity.
  - destruct (pos <? end_) eqn:E; [| eexists; reflexivity].
    apply IH; [exact Hd | nia].
Qed.

Lemma vlines_at_returns {F : Type} `{Num F} (fuel : nat) (xs : list Z)
      (top height : Z) : forall fb : framebuf F,
  0 <= height -> height + 5 <= 5 * Z.of_nat fuel ->
  returns (vlines_at fuel fb xs top height).
Proof.
  induction xs as [| x xs IH]; intros fb Hh Hf; cbn [vlines_at].
  - eexists; reflexivity.
  - destruct fuel as [| fuel]; [lia |].
    destruct (_vline_dashed_while_returns fuel fb top (top + height) x
                FG_COLOR 3 2) as (fb' & Hfb'); [lia | lia |].
    unfold _vline_dashed. rewrite Hfb'. cbn [bind]. apply IH; assumption.
Qed.

Lemma _draw_x_grid_for_vlines (fuel : nat) (left top height : Z) (step_x : Q)
      (indices : list Z) : forall fb : framebuf Q,
  _draw_x_grid_for fuel fb left top height step_x indices =
  vlines_at fuel fb
    (map (fun idx => Qtruncate (inject_Z left + inject_Z idx * step_x)%Q)
         indices)
    top height.
Proof.
  induction indices as [| idx indices IH]; intros fb;
    cbn [_draw_x_grid_for map vlines_at]; [reflexivity |].
  change (int_ (add (of_int left) (mul (of_int idx) step_x)))
    with (Ok (Qtruncate (inject_Z left + inject_Z idx * step_x)%Q)).
  cbn [bind].
  destruct (_vline_dashed fuel fb _ top height FG_COLOR 3 2);
    cbn [bind]; [apply IH | reflexivity | reflexivity].
Qed.

(** C8 as stated fails.  With the geometry of [draw_chart] and the full
    365-day history, [_draw_x_grid] draws twelve dashed lines, not the
    eleven interior boundaries of twelve equal segments; with the full
    96-point history of the short view it draws five, at columns other
    than the boundaries of six equal segments; with two points it draws
    a single line, on the right edge. *)
Lemma x_grid_is_not_on_segment_boundaries :
  (exists fb,
     _draw_x_grid 20 [] 55 34 64 (235 # 364)%Q 365 "365d" = Ok fb /\
     vline_columns fb =
       [74; 93; 113; 132; 151; 171; 190; 209; 229; 248; 268; 287] /\
     List.length (vline_columns fb) <> 11%nat /\
     vline_columns fb <> segment_boundaries 55 235 12) /\
  (exists fb,
     _draw_x_grid 20 [] 55 34 64 (235 # 95)%Q 96 "24h" = Ok fb /\
     vline_columns fb = [94; 134; 173; 213; 252] /\
     segment_boundaries 55 235 6 = [94; 133; 172; 211; 250]) /\
  (exists fb,
     _draw_x_grid 20 [] 55 34 64 (235 # 1)%Q 2 "24h" = Ok fb /\
     vline_columns fb = [55 + 235]).
Proof.
  split; [| split].
  - eexists. split; [vm_compute; reflexivity |].
    split; [vm_compute; reflexivity |].
    split; intros E; vm_compute in E; discriminate E.
  - eexists. split; [vm_compute; reflexivity |].
    split; vm_compute; reflexivity.
  - eexists. split; vm_compute; reflexivity.
Qed.

(** The loop of [_draw_x_grid] in any arithmetic: when [int] returns
    the column of every index, the loop draws the dashed lines of these
    columns. *)
Lemma _draw_x_grid_for_columns {F : Type} `{Num F} (fuel : nat)
      (left top height : Z) (step_x : F) (indices columns : list Z) :
  Forall2 (fun idx x =>
             int_ (add (of_int left) (mul (of_int idx) step_x)) = Ok x)
          indices columns ->
  forall fb : framebuf F,
    _draw_x_grid_for fuel fb left top height step_x indices =
    vlines_at fuel fb columns top height.
Proof.
  induction 1 as [| idx x indices columns Hx _ IH]; intros fb;
    cbn [_draw_x_grid_for vlines_at]; [reflexivity |].
  rewrite Hx. cbn [bind].
  destruct (_vline_dashed fuel fb x top height FG_COLOR 3 2);
    cbn [bind]; [apply IH | reflexivity | reflexivity].
Qed.

(** C8, amended: in every arithmetic, for [points >= 2], [_draw_x_grid]
    draws one dashed vertical line per data index [k * step_points],
    [k = 1, 2, ...] while the index is below [points], with
    [step_points = max(1, points // desired_lines)] and [desired_lines]
    12 for "365d" and 6 otherwise: [(points - 1) // step_points] lines.
    The line of index [idx] is in the column that
    [int(left + idx * step_x)] returns, computed as the program
    computes it.  For fewer than two points it draws nothing. *)
Theorem x_grid_draws_every_step_points {F : Type} `{Num F} (fuel : nat)
        (fb : framebuf F) (left top height : Z) (step_x : F) (points : Z)
        (span_label : string) :
  let desired_lines := if String.eqb span_label "365d" then 12 else 6 in
  let step_points := Z.max 1 (points / desired_lines) in
  let count := Z.to_nat ((points - 1) / step_points) in
  let indices := map (fun k => Z.of_nat k * step_points) (seq 1 count) in
  (points < 2 ->
   _draw_x_grid fuel fb left top height step_x points span_label = Ok fb) /\
  (2 <= points ->
   List.length indices = count /\
   forall columns : list Z,
     Forall2 (fun idx x =>
                int_ (add (of_int left) (mul (of_int idx) step_x)) = Ok x)
             indices columns ->
     List.length columns = count /\
     _draw_x_grid fuel fb left top height step_x points span_label =
     vlines_at fuel fb columns top height /\
     (0 <= height -> height + 5 <= 5 * Z.of_nat fuel ->
      returns (_draw_x_grid fuel fb left top height step_x points
                            span_label))).
Proof.
  intros desired_lines step_points count indices. split.
  - intros Hp. unfold _draw_x_grid.
    assert (E : (points <? 2) = true) by lia. rewrite E. reflexivity.
  - intros Hp.
    assert (Hlen : List.length indices = count).
    { unfold indices. rewrite length_map, length_seq. reflexivity. }
    split; [exact Hlen |]. intros columns Hcols.
    assert (Hgrid : _draw_x_grid fuel fb left top height step_x points
                      span_label = vlines_at fuel fb columns top height).
    { unfold _draw_x_grid.
      assert (E : (points <? 2) = false) by lia. rewrite E.
      fold desired_lines. fold step_points.
      rewrite range3_multiples by (unfold step_points; lia).
      apply _draw_x_grid_for_columns. exact Hcols. }
    split; [rewrite <- (Forall2_length Hcols); exact Hlen |].
    split; [exact Hgrid |].
    intros Hh Hf. rewrite Hgrid. apply vlines_at_returns; assumption.
Qed.

Lemma x_grid_draws_every_step_points_witness :
  2 <= 176 /\
  _draw_x_grid 20 ([] : framebuf pynum) 55 34 64 (lit (235 # 175)) 176 "365d"
  = vlines_at 20 []
      [73; 92; 111; 130; 149; 167; 186; 205; 224; 242; 261; 280] 34 64.
Proof.
  assert (Hp : 2 <= 176) by lia.
  split; [exact Hp |].
  refine (proj1 (proj2 (proj2 (proj2 (x_grid_draws_every_step_points
            20 ([] : framebuf pynum) 55 34 64 (lit (235 # 175)) 176 "365d")
            Hp)
            [73; 92; 111; 130; 149; 167; 186; 205; 224; 242; 261; 280] _))).
  change (Forall2
            (fun idx x =>
               int_ (add (of_int 55) (mul (of_int idx) (lit (235 # 175))))
               = Ok x)
            [14; 28; 42; 56; 70; 84; 98; 112; 126; 140; 154; 168]
            [73; 92; 111; 130; 149; 167; 186; 205; 224; 242; 261; 280]).
  repeat (constructor; [vm_compute; reflexivity |]). constructor.
Defined.

(** ** _draw_y_grid *)

Lemma _hline_dashed_while_no_raise {F : Type} `{Num F} (fuel : nat) :
  forall (fb : framebuf F) (pos end_ y color dash gap : Z) (e : exn),
  _hline_dashed_while fuel fb pos end_ y color dash gap <> Raise e.
Proof.
  induction fuel as [| fuel IH]; intros fb pos end_ y color dash gap e;
    cbn [_hline_dashed_while]; [discriminate |].
  destruct (pos <? end_); [apply IH | discriminate].
Qed.

(** The loop of [_draw_y_grid] does not return when a pass leaves [y]
    where it was, below [max_val]: whatever the fuel, it runs out. *)
Lemma _draw_y_grid_while_stalls {F : Type} `{Num F}
      (left top width height : Z) (min_val max_val step y : F)
      (offset : Z) (label : text F) :
  leb y max_val = true ->
  add y step = y ->
  _scale y min_val (max2 (sub max_val min_val) (lit (1 # 1000000))) height
    = Ok offset ->
  _format_k y = Ok label ->
  forall (fuel : nat) (fb : framebuf F),
    _draw_y_grid_while fuel fb left top width height min_val max_val step y
    = OutOfFuel.
Proof.
  intros Hguard Hadd Hscale Hlabel.
  induction fuel as [| fuel IH]; intros fb; cbn [_draw_y_grid_while];
    [reflexivity |].
  rewrite Hguard, Hscale. cbn [bind].
  unfold _hline_dashed.
  destruct (_hline_dashed_while fuel fb left (left + width)
              (top + height - offset) FG_COLOR 3 2) as [fb' | e |] eqn:Eh.
  - cbn [bind]. rewrite Hlabel. cbn [bind]. rewrite Hadd. apply IH.
  - exfalso. exact (_hline_dashed_while_no_raise _ _ _ _ _ _ _ _ _ Eh).
  - reflexivity.
Qed.

Lemma _draw_y_grid_stalls {F : Type} `{Num F}
      (left top width height : Z) (min_val max_val step q : F)
      (c offset : Z) (label : text F) :
  div min_val step = Ok q ->
  ceil q = Ok c ->
  leb (mul (of_int c) step) max_val = true ->
  add (mul (of_int c) step) step = mul (of_int c) step ->
  _scale (mul (of_int c) step) min_val
         (max2 (sub max_val min_val) (lit (1 # 1000000))) height
    = Ok offset ->
  _format_k (mul (of_int c) step) = Ok label ->
  forall (fuel : nat) (fb : framebuf F),
    _draw_y_grid fuel fb left top width height min_val max_val step
    = OutOfFuel.
Proof.
  intros Hq Hc Hguard Hadd Hscale Hlabel fuel fb.
  unfold _draw_y_grid. rewrite Hq. cbn [bind]. rewrite Hc. cbn [bind].
  eapply _draw_y_grid_while_stalls; eassumption.
Qed.

(** C10, at an input where it fails.  A history that holds the one value
    1e10 gives [span = 1e-6] and, from [_nice_step], the positive step
    2e-7.  The first gridline is at [y = 1e10 <= max_val].  In binary64
    neighbouring floats around 1e10 are 1.9e-6 apart, so [y + step] is
    [y] again: the guard [y <= max_val] never fails and [draw_chart]
    does not return. *)
Theorem draw_chart_stalls_binary64 :
  let value : pynum := lit (10000000000 # 1) in
  let step : pynum := lit (2 # 10000000) in
  _nice_step (max2 (sub value value) (lit (1 # 1000000))) = Ok step /\
  ltb (of_int 0) step = true /\
  leb value value = true /\
  add value step = value /\
  forall (fuel : nat) (fb : framebuf pynum) (span_label : string),
    draw_chart fuel fb (RingBuffer.mk 96 [value]) span_label = OutOfFuel.
Proof.
  cbv zeta.
  split; [vm_compute; reflexivity |].
  split; [vm_compute; reflexivity |].
  split; [vm_compute; reflexivity |].
  split; [vm_compute; reflexivity |].
  intros fuel fb span_label. unfold draw_chart.
  cbn [RingBuffer.data RingBuffer.minmax RingBuffer.min_list
       RingBuffer.max_list fold_left].
  match goal with
  | |- context [bind (div ?a ?b) _] => set (step_x := div a b)
  end.
  vm_compute in step_x. subst step_x. cbn [bind].
  match goal with
  | |- context [bind (_nice_step ?a) _] => set (y_step := _nice_step a)
  end.
  vm_compute in y_step. subst y_step. cbn [bind].
  match goal with
  | |- bind ?m _ = _ => assert (E : m = OutOfFuel)
  end.
  { eapply _draw_y_grid_stalls.
    - vm_compute. reflexivity.
    - vm_compute. reflexivity.
    - vm_compute. reflexivity.
    - vm_compute. reflexivity.
    - vm_compute. reflexivity.
    - vm_compute. reflexivity. }
  rewrite E. reflexivity.
Qed.

(** In single precision the same happens at an everyday price: with the
    history holding the one value 60000, the step 2e-7 is far below the
    spacing of the floats around 60000 (0.0039). *)
Lemma draw_chart_stalls_binary32 :
  let value : pynum := @lit _ binary32 (60000 # 1) in
  forall (fuel : nat) (fb : framebuf pynum) (span_label : string),
    @draw_chart _ binary32 fuel fb (RingBuffer.mk 96 [value]) span_label
    = OutOfFuel.
Proof.
  cbv zeta. intros fuel fb span_label. unfold draw_chart.
  cbn [RingBuffer.data RingBuffer.minmax RingBuffer.min_list
       RingBuffer.max_list fold_left].
  match goal with
  | |- context [bind (div ?a ?b) _] => set (step_x := div a b)
  end.
  vm_compute in step_x. subst step_x. cbn [bind].
  match goal with
  | |- context [bind (_nice_step ?a) _] => set (y_step := _nice_step a)
  end.
  vm_compute in y_step. subst y_step. cbn [bind].
  match goal with
  | |- bind ?m _ = _ => assert (E : m = OutOfFuel)
  end.
  { eapply (@_draw_y_grid_stalls _ binary32).
    - vm_compute. reflexivity.
    - vm_compute. reflexivity.
    - vm_compute. reflexivity.
    - vm_compute. reflexivity.
    - vm_compute. reflexivity.
    - vm_compute. reflexivity. }
  rewrite E. reflexivity.
Qed.

(** *** In exact arithmetic the loop terminates *)

Local Open Scope Q_scope.

Lemma span_floor (a : Q) : (1 # 1000000) <= max2 a (lit (1 # 1000000)).
Proof.
  unfold max2. change (lit (1 # 1000000)) with (1 # 1000000).
  change (ltb a (1 # 1000000)) with (negb (Qle_bool (1 # 1000000) a)).
  destruct (Qle_bool (1 # 1000000) a) eqn:E; cbn [negb].
  - apply Qle_bool_iff. exact E.
  - apply Qle_refl.
Qed.

Lemma _format_k_returns (value : Q) : returns (_format_k value).
Proof.
  unfold _format_k. destruct (leb (of_int 1000) (fabs value)).
  - rewrite div_exact by discriminate. eexists; reflexivity.
  - eexists; reflexivity.
Qed.

(** [n] more gridlines at most, and fuel for them and for one dashed
    line each: the loop returns. *)
Lemma _draw_y_grid_while_returns (left top width height : Z)
      (min_val max_val step : Q) (n : nat) :
  0 < step ->
  forall (fuel : nat) (fb : framebuf Q) (y : Q),
    max_val - y < inject_Z (Z.of_nat n) * step ->
    (n + Z.to_nat width < fuel)%nat ->
    returns (_draw_y_grid_while fuel fb left top width height
                                min_val max_val step y).
Proof.
  intros Hstep. induction n as [| n IH]; intros fuel fb y Hy Hfuel;
    (destruct fuel as [| fuel]; [lia |]); cbn [_draw_y_grid_while].
  - assert (E : leb y max_val = false).
    { change (Qle_bool y max_val = false).
      destruct (Qle_bool y max_val) eqn:E; [| reflexivity].
      apply Qle_bool_iff in E.
      change (inject_Z (Z.of_nat 0)) with 0 in Hy. lra. }
    rewrite E. eexists; reflexivity.
  - destruct (leb y max_val); [| eexists; reflexivity].
    assert (Hspan := span_floor (sub max_val min_val)).
    rewrite _scale_exact by lra. cbn [bind].
    destruct fuel as [| fuel]; [lia |].
    destruct (_hline_dashed_while_returns fuel fb left (left + width)%Z
                (top + height -
                 Qtruncate ((y - min_val) /
                            max2 (sub max_val min_val) (lit (1 # 1000000)) *
                            inject_Z (height - 1)))%Z
                FG_COLOR 3 2) as (fb' & Hfb'); [lia | lia |].
    unfold _hline_dashed. rewrite Hfb'. cbn [bind].
    destruct (_format_k_returns y) as (label & Hlabel).
    rewrite Hlabel. cbn [bind].
    apply IH; [| lia].
    change (add y step) with (y + step).
    rewrite Nat2Z.inj_succ in Hy. unfold Z.succ in Hy.
    rewrite inject_Z_plus in Hy. change (inject_Z 1) with 1 in Hy. lra.
Qed.

(** With a positive step [_draw_y_grid] returns, given enough fuel. *)
Lemma _draw_y_grid_returns (fb : framebuf Q) (left top width height : Z)
      (min_val max_val step : Q) :
  0 < step ->
  exists fuel0 : nat, forall fuel : nat,
    (fuel0 <= fuel)%nat ->
    returns (_draw_y_grid fuel fb left top width height
                          min_val max_val step).
Proof.
  intros Hstep. unfold _draw_y_grid.
  rewrite div_exact by (intros E; rewrite E in Hstep; discriminate).
  cbn [bind ceil exact].
  set (start := mul (of_int (Qceiling (min_val / step))) step).
  set (t := (max_val - start) / step).
  set (N := Z.max 0 (Qfloor t + 1)).
  exists (S (Z.to_nat N + Z.to_nat width)). intros fuel Hfuel.
  apply (_draw_y_grid_while_returns left top width height
           min_val max_val step (Z.to_nat N) Hstep); [| lia].
  rewrite Z2Nat.id by (unfold N; lia).
  assert (Ht : t < inject_Z N).
  { apply Qlt_le_trans with (1 := Qlt_floor t).
    rewrite <- Zle_Qle. unfold N. lia. }
  assert (Hd : max_val - start == t * step).
  { unfold t. field. intros E. rewrite E in Hstep. discriminate. }
  rewrite Hd. apply Qmult_lt_compat_r; assumption.
Qed.

(** In exact arithmetic: the span that [draw_chart] computes from a
    history is at least 1e-6, [_nice_step] returns a positive step for
    it, and with that step [_draw_y_grid] returns. *)
Lemma draw_y_grid_terminates_exact (fb : framebuf Q) (history : RingBuffer.t Q) :
  let min_val := fst (RingBuffer.minmax history) in
  let max_val := snd (RingBuffer.minmax history) in
  let span := max2 (sub max_val min_val) (lit (1 # 1000000)) in
  (1 # 1000000) <= span /\
  exists step : Q,
    _nice_step span = Ok step /\ 0 < step /\
    exists fuel0 : nat, forall fuel : nat,
      (fuel0 <= fuel)%nat ->
      returns (_draw_y_grid fuel fb 55 34 235 64 min_val max_val step).
Proof.
  intros min_val max_val span.
  assert (Hspan : (1 # 1000000) <= span) by apply span_floor.
  split; [exact Hspan |].
  assert (Hpos : 0 < span) by lra.
  destruct (magnitude_brackets span Hpos) as [_ Hhi].
  destruct (_nice_step_for_first span _ (ten_pow_pos _) Hhi)
    as (factor & _ & Hstep & _ & Hstep_pos & _).
  rewrite <- (_nice_step_magnitude span Hpos) in Hstep.
  eexists. split; [exact Hstep |]. split; [exact Hstep_pos |].
  apply _draw_y_grid_returns. exact Hstep_pos.
Qed.

Local Close Scope Q_scope.

(* ------------------------------------------------------------------ *)
(** * Further properties of the code *)

(** ** Local time *)

Lemma leap_days_step (year : Z) :
  year / 4 - year / 100 + year / 400 =
  (year - 1) / 4 - (year - 1) / 100 + (year - 1) / 400 +
  (if is_leap year then 1 else 0).
Proof.
  unfold is_leap.
  destruct (Z.eqb_spec (year mod 4) 0) as [H4 | H4];
    destruct (Z.eqb_spec (year mod 100) 0) as [H100 | H100];
    destruct (Z.eqb_spec (year mod 400) 0) as [H400 | H400];
    cbn [andb orb negb];
    Z.div_mod_to_equations; lia.
Qed.

Lemma mod7_shift (a b k : Z) : b = a + k * 7 -> a mod 7 = b mod 7.
Proof. intros ->. symmetry. apply Z_mod_plus_full. Qed.

Lemma _weekday_table (year month day : Z) :
  1 <= month <= 12 ->
  _weekday year month day =
  let y := if month <? 3 then year - 1 else year in
  Ok ((y + y / 4 - y / 100 + y / 400 +
       nth (Z.to_nat (month - 1)) [0; 3; 2; 5; 0; 3; 5; 1; 4; 6; 2; 4] 0 +
       day) mod 7).
Proof.
  intros Hm.
  assert (Hc : month = 1 \/ month = 2 \/ month = 3 \/ month = 4 \/ month = 5 \/
               month = 6 \/ month = 7 \/ month = 8 \/ month = 9 \/ month = 10 \/
               month = 11 \/ month = 12) by lia.
  repeat (destruct Hc as [-> | Hc]; [reflexivity |]).
  subst month. reflexivity.
Qed.

(** X1: [_weekday] is the weekday of the Gregorian calendar.  For every
    year and day and a month 1..12 it returns the day number, counted
    from Monday 1 January of year 1, modulo 7 (0 is Sunday). *)
Theorem weekday_is_gregorian (year month day : Z) :
  1 <= month <= 12 ->
  _weekday year month day = Ok (day_number year month day mod 7).
Proof.
  intros Hm. rewrite (_weekday_table year month day Hm).
  unfold day_number, days_before_month.
  assert (Hleap := leap_days_step year).
  assert (Hc : month = 1 \/ month = 2 \/ month = 3 \/ month = 4 \/ month = 5 \/
               month = 6 \/ month = 7 \/ month = 8 \/ month = 9 \/ month = 10 \/
               month = 11 \/ month = 12) by lia.
  destruct (is_leap year);
    repeat (destruct Hc as [-> | Hc]); try subst month;
    simpl (nth _ _ _);
    repeat match goal with
           | |- context [?a <? ?b] =>
               let v := eval vm_compute in (a <? b) in
               change (a <? b) with v
           end;
    cbv iota zeta; simpl (andb _ _); cbv iota; f_equal;
    set (a := year / 4) in *; set (b := year / 100) in *;
    set (c := year / 400) in *; set (a' := (year - 1) / 4) in *;
    set (b' := (year - 1) / 100) in *; set (c' := (year - 1) / 400) in *;
    clearbody a b c a' b' c'; Z.div_mod_to_equations; lia.
Qed.

Lemma weekday_is_gregorian_witness :
  1 <= 11 <= 12 /\ _weekday 2026 11 3 = Ok (day_number 2026 11 3 mod 7) /\
  day_number 2026 11 3 mod 7 = 2.
Proof.
  assert (Hm : 1 <= 11 <= 12) by lia.
  split; [exact Hm |].
  split; [exact (weekday_is_gregorian 2026 11 3 Hm) | reflexivity].
Defined.

Lemma _weekday_in_table (year month day : Z) :
  -11 <= month <= 12 ->
  exists w, _weekday year month day = Ok w /\ 0 <= w < 7.
Proof.
  intros Hm. unfold _weekday, getitem.
  change (len [0; 3; 2; 5; 0; 3; 5; 1; 4; 6; 2; 4]) with 12.
  assert (Hj : exists j, (if month - 1 <? 0 then month - 1 + 12
                          else month - 1) = j /\ 0 <= j < 12).
  { destruct (month - 1 <? 0) eqn:E; eexists; split; try reflexivity; lia. }
  destruct Hj as (j & -> & Hj).
  assert (E : (j <? 0) = false) by lia. rewrite E.
  destruct (nth_error [0; 3; 2; 5; 0; 3; 5; 1; 4; 6; 2; 4] (Z.to_nat j))
    as [tm |] eqn:En.
  - cbn [bind]. eexists. split; [reflexivity |].
    apply Z.mod_pos_bound. lia.
  - apply nth_error_None in En. cbn [List.length] in En. lia.
Qed.

(** X2: [_weekday] reads its table with a Python index.  A month of 13
    or more, or of -12 or less, raises [IndexError]; every month from
    -11 to 12 gives a weekday 0..6, the months -11..0 silently through
    the table entry counted from the end. *)
Theorem weekday_month_out_of_range (year month day : Z) :
  (13 <= month \/ month <= -12 ->
   _weekday year month day = Raise IndexError) /\
  (-11 <= month <= 12 ->
   exists w, _weekday year month day = Ok w /\ 0 <= w < 7).
Proof.
  unfold _weekday, getitem.
  change (len [0; 3; 2; 5; 0; 3; 5; 1; 4; 6; 2; 4]) with 12.
  split.
  - intros [Hhi | Hlo].
    + assert (E : (month - 1 <? 0) = false) by lia. rewrite E. cbv zeta.
      rewrite E.
      assert (En : nth_error [0; 3; 2; 5; 0; 3; 5; 1; 4; 6; 2; 4]
                             (Z.to_nat (month - 1)) = None).
      { apply nth_error_None. cbn [List.length]. lia. }
      rewrite En. reflexivity.
    + assert (E : (month - 1 <? 0) = true) by lia. rewrite E. cbv zeta.
      assert (E' : (month - 1 + 12 <? 0) = true) by lia. rewrite E'.
      reflexivity.
  - intros Hm. fold (getitem [0; 3; 2; 5; 0; 3; 5; 1; 4; 6; 2; 4] (month - 1)).
    apply _weekday_in_table. exact Hm.
Qed.

Lemma weekday_month_out_of_range_witness :
  (13 <= 13 \/ 13 <= -12) /\ _weekday 2024 13 1 = Raise IndexError /\
  -11 <= 0 <= 12 /\ exists w, _weekday 2024 0 1 = Ok w /\ 0 <= w < 7.
Proof.
  assert (H13 : 13 <= 13 \/ 13 <= -12) by lia.
  assert (H0 : -11 <= 0 <= 12) by lia.
  split; [exact H13 |].
  split; [exact (proj1 (weekday_month_out_of_range 2024 13 1) H13) |].
  split; [exact H0 |].
  exact (proj2 (weekday_month_out_of_range 2024 0 1) H0).
Defined.

Lemma _weekday_earlier (year month day w k : Z) :
  _weekday year month day = Ok w ->
  _weekday year month (day - k) = Ok ((w - k) mod 7).
Proof.
  unfold _weekday. intros Hw.
  apply bind_Ok in Hw. destruct Hw as (tm & Htm & Hw).
  rewrite Htm. cbn [bind]. injection Hw as <-. f_equal.
  rewrite Zminus_mod_idemp_l. f_equal. lia.
Qed.

(** X3: for a month 1..12 [_last_sunday] returns a day from 27 to 31.
    A returned day of 28 or more is a Sunday with no Sunday after it up
    to the 31st; 27 is returned exactly when none of the 28th to the
    31st is a Sunday, whether or not the 27th is one. *)
Theorem last_sunday_scans_31_down_to_28 (year month : Z) :
  1 <= month <= 12 ->
  exists d,
    _last_sunday year month = Ok d /\ 27 <= d <= 31 /\
    (28 <= d ->
     _weekday year month d = Ok 0 /\
     forall d', d < d' <= 31 -> _weekday year month d' <> Ok 0) /\
    (d = 27 <->
     forall d', 28 <= d' <= 31 -> _weekday year month d' <> Ok 0).
Proof.
  intros Hm.
  destruct (_weekday_in_table year month 31 ltac:(lia)) as (w & H31 & Hw).
  assert (Hsun : forall d', 28 <= d' <= 31 ->
            (_weekday year month d' = Ok 0 <-> w = 31 - d')).
  { intros d' Hd'.
    replace d' with (31 - (31 - d')) at 1 by lia.
    rewrite (_weekday_earlier year month 31 w (31 - d') H31).
    split.
    - intros E.
      assert (E0 : (w - (31 - d')) mod 7 = 0) by congruence.
      Z.div_mod_to_equations. lia.
    - intros ->. f_equal. replace (31 - d' - (31 - d')) with 0 by lia.
      reflexivity. }
  rewrite (_last_sunday_by_weekday_of_31st year month w H31).
  destruct (w <=? 3) eqn:Ew.
  - exists (31 - w). split; [reflexivity |]. split; [lia |]. split.
    + intros _. split.
      * apply Hsun; lia.
      * intros d' Hd' E. apply Hsun in E; lia.
    + split.
      * intros Hd. lia.
      * intros Hall. exfalso. apply (Hall (31 - w)); [lia |].
        apply Hsun; lia.
  - exists 27. split; [reflexivity |]. split; [lia |]. split.
    + intros Hd. lia.
    + split.
      * intros _ d' Hd' E. apply Hsun in E; lia.
      * intros _. reflexivity.
Qed.

Lemma last_sunday_scans_31_down_to_28_witness :
  1 <= 3 <= 12 /\
  exists d, _last_sunday 2024 3 = Ok d /\ 27 <= d <= 31.
Proof.
  assert (Hm : 1 <= 3 <= 12) by lia.
  split; [exact Hm |].
  destruct (last_sunday_scans_31_down_to_28 2024 3 Hm) as (d & Hd & Hr & _).
  exists d. split; [exact Hd | exact Hr].
Defined.

Lemma _last_sunday_returns (year month : Z) :
  1 <= month <= 12 ->
  exists d, _last_sunday year month = Ok d /\ 27 <= d <= 31.
Proof.
  intros Hm.
  destruct (_weekday_in_table year month 31 ltac:(lia)) as (w & H31 & Hw).
  rewrite (_last_sunday_by_weekday_of_31st year month w H31).
  eexists. split; [reflexivity |].
  destruct (w <=? 3) eqn:E; lia.
Qed.

(** [_berlin_offset_seconds] as one test on the fields of the tuple. *)
Lemma _berlin_offset_seconds_dst (utc_tuple : time_tuple) :
  exists last_sun_mar last_sun_oct,
    _last_sunday (tm_year utc_tuple) 3 = Ok last_sun_mar /\
    _last_sunday (tm_year utc_tuple) 10 = Ok last_sun_oct /\
    27 <= last_sun_mar <= 31 /\ 27 <= last_sun_oct <= 31 /\
    _berlin_offset_seconds utc_tuple =
    Ok (if ((4 <=? tm_mon utc_tuple) && (tm_mon utc_tuple <=? 9))
           || ((tm_mon utc_tuple =? 3) &&
               ((last_sun_mar <? tm_mday utc_tuple) ||
                ((tm_mday utc_tuple =? last_sun_mar) &&
                 (2 <=? tm_hour utc_tuple))))
           || ((tm_mon utc_tuple =? 10) &&
               ((tm_mday utc_tuple <? last_sun_oct) ||
                ((tm_mday utc_tuple =? last_sun_oct) &&
                 (tm_hour utc_tuple <? 3))))
        then 7200 else 3600).
Proof.
  destruct (_last_sunday_returns (tm_year utc_tuple) 3 ltac:(lia))
    as (a & Ha & Hra).
  destruct (_last_sunday_returns (tm_year utc_tuple) 10 ltac:(lia))
    as (b & Hb & Hrb).
  exists a, b. repeat (split; [assumption |]).
  unfold _berlin_offset_seconds. rewrite Ha, Hb. cbn [bind]. f_equal.
  rewrite Z.gtb_ltb, Z.geb_leb.
  destruct (Z.leb_spec 4 (tm_mon utc_tuple));
    destruct (Z.leb_spec (tm_mon utc_tuple) 9);
    destruct (Z.eqb_spec (tm_mon utc_tuple) 3);
    destruct (Z.eqb_spec (tm_mon utc_tuple) 10);
    cbn [andb orb]; try reflexivity; try lia;
    match goal with
    | |- context [if ?c then _ else _] => destruct c; reflexivity
    end.
Qed.

Lemma offset_7200_iff (dst : bool) :
  Ok (if dst then 7200 else 3600) = Ok 7200 <-> dst = true.
Proof. destruct dst; split; congruence. Qed.

Lemma offset_3600_iff (dst : bool) :
  Ok (if dst then 7200 else 3600) = Ok 3600 <-> ~ dst = true.
Proof. destruct dst; split; congruence. Qed.

(** X4: [_berlin_offset_seconds] never raises and returns 3600 or 7200,
    whatever the tuple holds: 7200 throughout April to September, 3600
    in every month other than 3..10, any other value of [month]
    included. *)
Theorem berlin_offset_is_total (utc_tuple : time_tuple) :
  exists offset,
    _berlin_offset_seconds utc_tuple = Ok offset /\
    (offset = 3600 \/ offset = 7200) /\
    (4 <= tm_mon utc_tuple <= 9 -> offset = 7200) /\
    (tm_mon utc_tuple < 3 \/ 10 < tm_mon utc_tuple -> offset = 3600).
Proof.
  destruct (_berlin_offset_seconds_dst utc_tuple)
    as (a & b & _ & _ & _ & _ & ->).
  eexists. split; [reflexivity |].
  match goal with
  | |- context [if ?c then _ else _] => destruct c eqn:Ec
  end.
  - split; [right; reflexivity |]. split; [reflexivity |].
    intros Hm. exfalso. revert Ec.
    repeat (rewrite orb_true_iff || rewrite andb_true_iff ||
            rewrite Z.leb_le || rewrite Z.ltb_lt || rewrite Z.eqb_eq).
    lia.
  - split; [left; reflexivity |]. split; [| reflexivity].
    intros Hm. exfalso. apply not_true_iff_false in Ec. apply Ec.
    repeat (rewrite orb_true_iff || rewrite andb_true_iff ||
            rewrite Z.leb_le || rewrite Z.ltb_lt || rewrite Z.eqb_eq).
    lia.
Qed.

Lemma berlin_offset_is_total_witness :
  4 <= 7 <= 9 /\
  _berlin_offset_seconds (mk_time 2026 7 15 12 0 0 2 196) = Ok 7200 /\
  (1 < 3 \/ 10 < 1) /\
  _berlin_offset_seconds (mk_time 2026 1 15 12 0 0 3 15) = Ok 3600.
Proof.
  assert (H7 : 4 <= 7 <= 9) by lia.
  assert (H1 : 1 < 3 \/ 10 < 1) by lia.
  split; [exact H7 |]. split; [| split; [exact H1 |]].
  - destruct (berlin_offset_is_total (mk_time 2026 7 15 12 0 0 2 196))
      as (offset & Ho & _ & Hs & _).
    rewrite Ho. f_equal. exact (Hs H7).
  - destruct (berlin_offset_is_total (mk_time 2026 1 15 12 0 0 3 15))
      as (offset & Ho & _ & _ & Hw).
    rewrite Ho. f_equal. exact (Hw H1).
Defined.

(** X5: within one month of one year the offset changes at most once
    and only in one direction.  For two instants of the same month, the
    second not before the first by day and hour: outside October summer
    time at the first means summer time at the second, and outside
    March standard time at the first means standard time at the
    second. *)
Theorem berlin_offset_switches_once (u u' : time_tuple) :
  tm_year u = tm_year u' -> tm_mon u = tm_mon u' ->
  tm_mday u < tm_mday u' \/
  (tm_mday u = tm_mday u' /\ tm_hour u <= tm_hour u') ->
  (tm_mon u <> 10 ->
   _berlin_offset_seconds u = Ok 7200 ->
   _berlin_offset_seconds u' = Ok 7200) /\
  (tm_mon u <> 3 ->
   _berlin_offset_seconds u = Ok 3600 ->
   _berlin_offset_seconds u' = Ok 3600).
Proof.
  intros Hy Hmon Hlater.
  destruct (_berlin_offset_seconds_dst u) as (a & b & Ha & Hb & _ & _ & Hu).
  destruct (_berlin_offset_seconds_dst u')
    as (a' & b' & Ha' & Hb' & _ & _ & Hu').
  rewrite <- Hy in Ha', Hb'.
  assert (Ea : a' = a) by congruence. assert (Eb : b' = b) by congruence.
  subst a' b'. rewrite Hu, Hu', !offset_7200_iff, !offset_3600_iff.
  rewrite <- Hmon.
  repeat (rewrite orb_true_iff || rewrite andb_true_iff ||
          rewrite Z.leb_le || rewrite Z.ltb_lt || rewrite Z.eqb_eq).
  lia.
Qed.

Lemma berlin_offset_switches_once_witness :
  let u := mk_time 2024 3 31 2 0 0 6 91 in
  let u' := mk_time 2024 3 31 23 30 0 6 91 in
  tm_year u = tm_year u' /\ tm_mon u = tm_mon u' /\
  (tm_mday u < tm_mday u' \/
   (tm_mday u = tm_mday u' /\ tm_hour u <= tm_hour u')) /\
  tm_mon u <> 10 /\ _berlin_offset_seconds u = Ok 7200 /\
  _berlin_offset_seconds u' = Ok 7200.
Proof.
  cbv zeta.
  assert (Hl : tm_mday (mk_time 2024 3 31 2 0 0 6 91) <
               tm_mday (mk_time 2024 3 31 23 30 0 6 91) \/
               (tm_mday (mk_time 2024 3 31 2 0 0 6 91) =
                tm_mday (mk_time 2024 3 31 23 30 0 6 91) /\
                tm_hour (mk_time 2024 3 31 2 0 0 6 91) <=
                tm_hour (mk_time 2024 3 31 23 30 0 6 91))).
  { right. cbn. lia. }
  assert (Hn : tm_mon (mk_time 2024 3 31 2 0 0 6 91) <> 10)
    by (cbn; lia).
  assert (Hs : _berlin_offset_seconds (mk_time 2024 3 31 2 0 0 6 91)
               = Ok 7200) by reflexivity.
  split; [reflexivity |]. split; [reflexivity |]. split; [exact Hl |].
  split; [exact Hn |]. split; [exact Hs |].
  exact (proj1 (berlin_offset_switches_once
                  (mk_time 2024 3 31 2 0 0 6 91)
                  (mk_time 2024 3 31 23 30 0 6 91) eq_refl eq_refl Hl)
               Hn Hs).
Defined.

(** ** RingBuffer *)

(** X6: the capacity must be positive.  On a buffer created with a
    capacity of 0 or less the first [append] raises [IndexError], from
    [pop(0)] on the empty list, and so does [extend] with any non-empty
    sequence. *)
Theorem ring_buffer_nonpositive_capacity {A : Type} (N : Z) (value : A)
        (values : list A) :
  N <= 0 ->
  RingBuffer.append (RingBuffer.__init__ N) value = Raise IndexError /\
  RingBuffer.extend (RingBuffer.__init__ N) (value :: values)
  = Raise IndexError.
Proof.
  intros HN.
  assert (Ha : RingBuffer.append (RingBuffer.__init__ N) value
               = Raise IndexError).
  { unfold RingBuffer.append, RingBuffer.__init__.
    cbn [RingBuffer.data RingBuffer.length].
    assert (E : (len (@nil A) >=? N) = true) by (unfold len; cbn; lia).
    rewrite E. reflexivity. }
  split; [exact Ha |].
  cbn [RingBuffer.extend]. rewrite Ha. reflexivity.
Qed.

Lemma ring_buffer_nonpositive_capacity_witness :
  0 <= 0 /\
  RingBuffer.append (RingBuffer.__init__ 0) 5 = Raise IndexError.
Proof.
  assert (H0 : 0 <= 0) by lia.
  split; [exact H0 |].
  exact (proj1 (ring_buffer_nonpositive_capacity 0 5 [] H0)).
Defined.

(** X7: [extend] over a concatenation is [extend] over the first part
    and then over the second, exceptions included, and [extend] with one
    value is [append]. *)
Theorem ring_buffer_extend_app {A : Type} (self : RingBuffer.t A)
        (xs ys : list A) (value : A) :
  RingBuffer.extend self (xs ++ ys) =
  (self' <- RingBuffer.extend self xs ;; RingBuffer.extend self' ys) /\
  RingBuffer.extend self [value] = RingBuffer.append self value.
Proof.
  split.
  - revert self. induction xs as [| x xs IH]; intros self; [reflexivity |].
    cbn [app RingBuffer.extend].
    destruct (RingBuffer.append self x) as [self1 | e |]; cbn [bind];
      [apply IH | reflexivity | reflexivity].
  - cbn [RingBuffer.extend].
    destruct (RingBuffer.append self value); reflexivity.
Qed.

Local Open Scope Q_scope.

Lemma min2_exact (a b : Q) :
  (min2 a b = a \/ min2 a b = b) /\ min2 a b <= a /\ min2 a b <= b.
Proof.
  unfold min2. change (ltb b a) with (negb (Qle_bool a b)).
  destruct (Qle_bool a b) eqn:E; cbn [negb].
  - apply Qle_bool_iff in E. split; [left; reflexivity |].
    split; [apply Qle_refl | exact E].
  - assert (Hlt : b < a).
    { apply Qnot_le_lt. intros H. apply Qle_bool_iff in H. congruence. }
    split; [right; reflexivity |].
    split; [apply Qlt_le_weak; exact Hlt | apply Qle_refl].
Qed.

Lemma max2_exact (a b : Q) :
  (max2 a b = a \/ max2 a b = b) /\ a <= max2 a b /\ b <= max2 a b.
Proof.
  unfold max2. change (ltb a b) with (negb (Qle_bool b a)).
  destruct (Qle_bool b a) eqn:E; cbn [negb].
  - apply Qle_bool_iff in E. split; [left; reflexivity |].
    split; [apply Qle_refl | exact E].
  - assert (Hlt : a < b).
    { apply Qnot_le_lt. intros H. apply Qle_bool_iff in H. congruence. }
    split; [right; reflexivity |].
    split; [apply Qlt_le_weak; exact Hlt | apply Qle_refl].
Qed.

Lemma min_list_exact (others : list Q) : forall first : Q,
  In (RingBuffer.min_list first others) (first :: others) /\
  forall x, In x (first :: others) -> RingBuffer.min_list first others <= x.
Proof.
  unfold RingBuffer.min_list.
  induction others as [| y others IH]; intros first; cbn [fold_left].
  - split; [left; reflexivity |].
    intros x [<- | []]. apply Qle_refl.
  - destruct (IH (min2 first y)) as [Hin Hle].
    destruct (min2_exact first y) as (Hsel & Hl1 & Hl2).
    split.
    + destruct Hin as [E | Hin].
      * rewrite <- E. destruct Hsel as [-> | ->];
          [left; reflexivity | right; left; reflexivity].
      * right. right. exact Hin.
    + intros x [<- | [<- | Hx]].
      * apply Qle_trans with (2 := Hl1). apply Hle. left. reflexivity.
      * apply Qle_trans with (2 := Hl2). apply Hle. left. reflexivity.
      * apply Hle. right. exact Hx.
Qed.

Lemma max_list_exact (others : list Q) : forall first : Q,
  In (RingBuffer.max_list first others) (first :: others) /\
  forall x, In x (first :: others) -> x <= RingBuffer.max_list first others.
Proof.
  unfold RingBuffer.max_list.
  induction others as [| y others IH]; intros first; cbn [fold_left].
  - split; [left; reflexivity |].
    intros x [<- | []]. apply Qle_refl.
  - destruct (IH (max2 first y)) as [Hin Hle].
    destruct (max2_exact first y) as (Hsel & Hl1 & Hl2).
    split.
    + destruct Hin as [E | Hin].
      * rewrite <- E. destruct Hsel as [-> | ->];
          [left; reflexivity | right; left; reflexivity].
      * right. right. exact Hin.
    + intros x [<- | [<- | Hx]].
      * apply Qle_trans with (1 := Hl1). apply Hle. left. reflexivity.
      * apply Qle_trans with (1 := Hl2). apply Hle. left. reflexivity.
      * apply Hle. right. exact Hx.
Qed.

(** X8: [minmax] of a buffer with data returns two of its values, the
    first at most and the second at least every value held; on a buffer
    without data it returns [(0, 1)]. *)
Theorem ring_buffer_minmax_bounds (self : RingBuffer.t Q) :
  (RingBuffer.data self = [] -> RingBuffer.minmax self = (0, 1)) /\
  (RingBuffer.data self <> [] ->
   In (fst (RingBuffer.minmax self)) (RingBuffer.data self) /\
   In (snd (RingBuffer.minmax self)) (RingBuffer.data self) /\
   forall x, In x (RingBuffer.data self) ->
             fst (RingBuffer.minmax self) <= x <= snd (RingBuffer.minmax self)).
Proof.
  unfold RingBuffer.minmax.
  destruct (RingBuffer.data self) as [| first others].
  - split; [reflexivity | intros Hne; contradiction].
  - split; [discriminate |]. intros _. cbn [fst snd].
    destruct (min_list_exact others first) as [Hmin Hle].
    destruct (max_list_exact others first) as [Hmax Hge].
    split; [exact Hmin |]. split; [exact Hmax |].
    intros x Hx. split; [apply Hle | apply Hge]; exact Hx.
Qed.

Lemma ring_buffer_minmax_bounds_witness :
  RingBuffer.data (RingBuffer.mk 5 [100; 400; 200]) <> [] /\
  forall x, In x [100; 400; 200] ->
            fst (RingBuffer.minmax (RingBuffer.mk 5 [100; 400; 200])) <= x
            <= snd (RingBuffer.minmax (RingBuffer.mk 5 [100; 400; 200])).
Proof.
  assert (Hne : RingBuffer.data (RingBuffer.mk 5 [100; 400; 200]) <> [])
    by discriminate.
  split; [exact Hne |].
  exact (proj2 (proj2 (proj2 (ring_buffer_minmax_bounds
                                (RingBuffer.mk 5 [100; 400; 200])) Hne))).
Defined.

(** ** _scale and _nice_step *)

Lemma Qtruncate_monotone (x y : Q) : x <= y -> (Qtruncate x <= Qtruncate y)%Z.
Proof.
  intros Hxy. unfold Qtruncate.
  destruct (Qle_bool 0 x) eqn:Ex; destruct (Qle_bool 0 y) eqn:Ey.
  - apply Qfloor_resp_le. exact Hxy.
  - apply Qle_bool_iff in Ex.
    assert (H0 : 0 <= y) by (eapply Qle_trans; eassumption).
    apply Qle_bool_iff in H0. congruence.
  - apply Qle_bool_iff in Ey.
    assert (Hx : x <= 0).
    { apply Qlt_le_weak. apply Qnot_le_lt. intros H.
      apply Qle_bool_iff in H. congruence. }
    apply Z.le_trans with 0%Z.
    + change 0%Z with (Qceiling 0). apply Qceiling_resp_le. exact Hx.
    + change 0%Z with (Qfloor 0). apply Qfloor_resp_le. exact Ey.
  - apply Qceiling_resp_le. exact Hxy.
Qed.

(** X9: [_scale] keeps the order of the values.  In exact arithmetic,
    for [span > 0] and [height >= 1], a larger value never gets a
    smaller pixel offset, inside the range or outside it. *)
Theorem scale_is_monotone (value1 value2 min_val span : Q) (height : Z) :
  0 < span -> (1 <= height)%Z -> value1 <= value2 ->
  exists p1 p2 : Z,
    _scale value1 min_val span height = Ok p1 /\
    _scale value2 min_val span height = Ok p2 /\
    (p1 <= p2)%Z.
Proof.
  intros Hs Hh Hv.
  exists (Qtruncate ((value1 - min_val) / span * inject_Z (height - 1))),
         (Qtruncate ((value2 - min_val) / span * inject_Z (height - 1))).
  split; [apply _scale_exact; exact Hs |].
  split; [apply _scale_exact; exact Hs |].
  apply Qtruncate_monotone.
  apply Qmult_le_compat_r.
  - unfold Qdiv. apply Qmult_le_compat_r; [lra |].
    apply Qlt_le_weak. apply Qinv_lt_0_compat. exact Hs.
  - change 0 with (inject_Z 0). rewrite <- Zle_Qle. lia.
Qed.

Lemma scale_is_monotone_witness :
  0 < 300 /\ (1 <= 64)%Z /\ 150 <= 250 /\
  exists p1 p2 : Z,
    _scale 150 100 300 64 = Ok p1 /\ _scale 250 100 300 64 = Ok p2 /\
    (p1 <= p2)%Z.
Proof.
  assert (Hs : 0 < 300) by reflexivity.
  assert (Hh : (1 <= 64)%Z) by lia.
  assert (Hv : 150 <= 250) by discriminate.
  split; [exact Hs |]. split; [exact Hh |]. split; [exact Hv |].
  exact (scale_is_monotone 150 250 100 300 64 Hs Hh Hv).
Defined.

(** X10: the step of [_nice_step] cuts a positive span into more than
    2.4 and at most 6 parts: [2.4 * step < span <= 6 * step]. *)
Theorem nice_step_parts (span : Q) :
  0 < span ->
  exists step : Q,
    _nice_step span = Ok step /\ 0 < step /\
    (12 # 5) * step < span /\ span <= 6 * step.
Proof.
  intros Hs.
  destruct (magnitude_brackets span Hs) as [Hlo Hhi].
  set (M := ten ^ Qfloor_log10 (span / inject_Z 4)) in *.
  assert (HM : 0 < M) by apply ten_pow_pos.
  destruct (_nice_step_for_first span M HM Hhi)
    as (factor & Hin & Hstep & Hle & Hpos & Hmin).
  assert (Hns := _nice_step_magnitude span Hs). fold M in Hns.
  rewrite <- Hns in Hstep.
  exists (inject_Z factor * M). split; [exact Hstep |].
  split; [exact Hpos |].
  assert (Hup : span <= 6 * (inject_Z factor * M)).
  { revert Hle Hpos. generalize (inject_Z factor * M). intros S Hle Hpos.
    assert (HS : ~ S == 0) by (intros E0; rewrite E0 in Hpos; discriminate).
    assert (E : span == span / S * S) by (field; exact HS).
    rewrite E. apply Qmult_le_compat_r; [exact Hle |].
    apply Qlt_le_weak. exact Hpos. }
  split; [| exact Hup].
  assert (Hnot : forall f : Z, (0 < f)%Z ->
            ~ span / (inject_Z f * M) <= 6 -> 6 * (inject_Z f * M) < span).
  { intros f Hf Hn. apply Qnot_le_lt. intros Hc. apply Hn.
    apply Qle_shift_div_r; [| exact Hc].
    apply Qmult_lt_0_compat; [| exact HM].
    change 0 with (inject_Z 0). rewrite <- Zlt_Qlt. exact Hf. }
  cbn [In] in Hin.
  destruct Hin as [<- | [<- | [<- | [<- | []]]]].
  - change (inject_Z 1) with 1. lra.
  - assert (H1 := Hnot 1%Z ltac:(lia) (Hmin 1%Z ltac:(cbn; auto) ltac:(lia))).
    change (inject_Z 1) with 1 in H1. change (inject_Z 2) with 2. lra.
  - assert (H2 := Hnot 2%Z ltac:(lia)
                       (Hmin 2%Z ltac:(cbn; auto) ltac:(lia))).
    change (inject_Z 2) with 2 in H2. change (inject_Z 5) with 5. lra.
  - assert (H5 := Hnot 5%Z ltac:(lia)
                       (Hmin 5%Z ltac:(cbn; auto) ltac:(lia))).
    change (inject_Z 5) with 5 in H5. change (inject_Z 10) with 10. lra.
Qed.

Lemma nice_step_parts_witness :
  0 < 300 /\
  exists step : Q,
    _nice_step 300 = Ok step /\ 0 < step /\
    (12 # 5) * step < 300 /\ 300 <= 6 * step.
Proof.
  assert (Hs : 0 < 300) by reflexivity.
  split; [exact Hs |]. exact (nice_step_parts 300 Hs).
Defined.

Local Close Scope Q_scope.

(** ** Dashed lines *)

Lemma dash_strokes_nil (pos length dash gap : Z) :
  0 < dash + gap -> length <= 0 -> dash_strokes pos length dash gap = [].
Proof.
  intros Hp Hl. unfold dash_strokes.
  assert (Hq : (length + (dash + gap) - 1) / (dash + gap) <= 0).
  { apply Z.lt_succ_r. apply Z.div_lt_upper_bound; lia. }
  replace (Z.to_nat ((length + (dash + gap) - 1) / (dash + gap))) with O
    by lia.
  reflexivity.
Qed.

Lemma dash_strokes_cons (pos length dash gap : Z) :
  0 < dash + gap -> 0 < length ->
  dash_strokes pos length dash gap =
  (pos, Z.min dash length) ::
  dash_strokes (pos + (dash + gap)) (length - (dash + gap)) dash gap.
Proof.
  intros Hp Hl. unfold dash_strokes.
  set (p := dash + gap) in *.
  replace (length + p - 1) with (length - p + p - 1 + 1 * p) by lia.
  rewrite Z.div_add by lia.
  assert (Hq : 0 <= (length - p + p - 1) / p).
  { apply Z.div_pos; lia. }
  rewrite Z2Nat.inj_add by lia.
  change (Z.to_nat 1) with 1%nat. rewrite Nat.add_1_r.
  cbn [seq map]. f_equal.
  - f_equal; lia.
  - rewrite <- seq_shift, map_map. apply map_ext. intros k.
    rewrite Nat2Z.inj_succ. f_equal; [| f_equal]; ring.
Qed.

Lemma _hline_dashed_while_strokes {F : Type} `{Num F} (fuel : nat) :
  forall (fb : framebuf F) (pos end_ y color dash gap : Z),
  0 < dash + gap ->
  end_ - pos <= Z.of_nat fuel * (dash + gap) ->
  _hline_dashed_while (S fuel) fb pos end_ y color dash gap =
  Ok (fb ++ map (fun s => Hline (fst s) y (snd s) color)
                (dash_strokes pos (end_ - pos) dash gap)).
Proof.
  induction fuel as [| fuel IH]; intros fb pos end_ y color dash gap Hp Hl.
  - cbn [_hline_dashed_while].
    assert (E : (pos <? end_) = false) by lia. rewrite E.
    rewrite dash_strokes_nil by lia. cbn [map]. rewrite app_nil_r.
    reflexivity.
  - change (_hline_dashed_while (S (S fuel)) fb pos end_ y color dash gap)
      with (if pos <? end_
            then _hline_dashed_while (S fuel)
                   (fb_hline fb pos y (Z.min dash (end_ - pos)) color)
                   (pos + (dash + gap)) end_ y color dash gap
            else Ok fb).
    destruct (pos <? end_) eqn:E.
    + rewrite IH by (try exact Hp; nia).
      rewrite (dash_strokes_cons pos (end_ - pos)) by lia.
      cbn [map fst snd]. unfold fb_hline. rewrite <- app_assoc.
      cbn [app].
      replace (end_ - (pos + (dash + gap))) with (end_ - pos - (dash + gap))
        by lia.
      reflexivity.
    + rewrite dash_strokes_nil by lia. cbn [map]. rewrite app_nil_r.
      reflexivity.
Qed.

Lemma _vline_dashed_while_strokes {F : Type} `{Num F} (fuel : nat) :
  forall (fb : framebuf F) (pos end_ x color dash gap : Z),
  0 < dash + gap ->
  end_ - pos <= Z.of_nat fuel * (dash + gap) ->
  _vline_dashed_while (S fuel) fb pos end_ x color dash gap =
  Ok (fb ++ map (fun s => Vline x (fst s) (snd s) color)
                (dash_strokes pos (end_ - pos) dash gap)).
Proof.
  induction fuel as [| fuel IH]; intros fb pos end_ x color dash gap Hp Hl.
  - cbn [_vline_dashed_while].
    assert (E : (pos <? end_) = false) by lia. rewrite E.
    rewrite dash_strokes_nil by lia. cbn [map]. rewrite app_nil_r.
    reflexivity.
  - change (_vline_dashed_while (S (S fuel)) fb pos end_ x color dash gap)
      with (if pos <? end_
            then _vline_dashed_while (S fuel)
                   (fb_vline fb x pos (Z.min dash (end_ - pos)) color)
                   (pos + (dash + gap)) end_ x color dash gap
            else Ok fb).
    destruct (pos <? end_) eqn:E.
    + rewrite IH by (try exact Hp; nia).
      rewrite (dash_strokes_cons pos (end_ - pos)) by lia.
      cbn [map fst snd]. unfold fb_vline. rewrite <- app_assoc.
      cbn [app].
      replace (end_ - (pos + (dash + gap))) with (end_ - pos - (dash + gap))
        by lia.
      reflexivity.
    + rewrite dash_strokes_nil by lia. cbn [map]. rewrite app_nil_r.
      reflexivity.
Qed.

(** Every stroke lies inside the line and is 1 to [dash] pixels long. *)
Lemma dash_strokes_inside (pos length dash gap start run : Z) :
  0 < dash -> 0 <= gap ->
  In (start, run) (dash_strokes pos length dash gap) ->
  pos <= start /\ 1 <= run <= dash /\ start + run <= pos + length /\
  (start - pos) mod (dash + gap) = 0.
Proof.
  intros Hd Hg Hin. unfold dash_strokes in Hin.
  apply in_map_iff in Hin. destruct Hin as (k & Hk & Hin).
  apply in_seq in Hin. injection Hk as <- <-.
  set (p := dash + gap) in *.
  assert (Hp : 0 < p) by (unfold p; lia).
  assert (Hkp : Z.of_nat k * p <= length - 1).
  { assert (Hq : Z.of_nat k + 1 <= (length + p - 1) / p) by lia.
    assert (Hm := Z.mul_div_le (length + p - 1) p Hp). nia. }
  split; [nia |]. split; [lia |]. split; [lia |].
  replace (pos + Z.of_nat k * p - pos) with (Z.of_nat k * p) by lia.
  apply Z_mod_mult.
Qed.

(** X11: the dashed-line primitives.  For a positive dash and a gap that
    is not negative, with fuel for [length / (dash + gap) + 1] tests of
    the guard, [_hline_dashed] and [_vline_dashed] keep what the buffer
    held and add one stroke per period [dash + gap], the strokes of
    [dash_strokes], in order.  Each stroke starts a whole number of
    periods from the start of the line, is 1 to [dash] pixels long and
    ends within the [length] pixels of the line: the last, shorter run
    does not overshoot. *)
Theorem dashed_lines_stay_inside {F : Type} `{Num F} (fuel : nat)
        (fb : framebuf F) (x y length color dash gap : Z) :
  0 < dash -> 0 <= gap ->
  length <= Z.of_nat fuel * (dash + gap) ->
  _hline_dashed (S fuel) fb x y length color dash gap =
    Ok (fb ++ map (fun s => Hline (fst s) y (snd s) color)
                  (dash_strokes x length dash gap)) /\
  _vline_dashed (S fuel) fb x y length color dash gap =
    Ok (fb ++ map (fun s => Vline x (fst s) (snd s) color)
                  (dash_strokes y length dash gap)) /\
  forall pos start run,
    In (start, run) (dash_strokes pos length dash gap) ->
    pos <= start /\ 1 <= run <= dash /\ start + run <= pos + length /\
    (start - pos) mod (dash + gap) = 0.
Proof.
  intros Hd Hg Hf. split; [| split].
  - unfold _hline_dashed.
    rewrite _hline_dashed_while_strokes by lia.
    replace (x + length - x) with length by lia. reflexivity.
  - unfold _vline_dashed.
    rewrite _vline_dashed_while_strokes by lia.
    replace (y + length - y) with length by lia. reflexivity.
  - intros pos start run Hin.
    exact (dash_strokes_inside pos length dash gap start run Hd Hg Hin).
Qed.

Lemma dashed_lines_stay_inside_witness :
  0 < 3 /\ 0 <= 2 /\ 12 <= Z.of_nat 3 * (3 + 2) /\
  _hline_dashed 4 ([] : framebuf Q) 55 40 12 0 3 2 =
  Ok [Hline 55 40 3 0; Hline 60 40 3 0; Hline 65 40 2 0].
Proof.
  assert (Hd : 0 < 3) by lia. assert (Hg : 0 <= 2) by lia.
  assert (Hf : 12 <= Z.of_nat 3 * (3 + 2)) by (cbn; lia).
  split; [exact Hd |]. split; [exact Hg |]. split; [exact Hf |].
  exact (proj1 (dashed_lines_stay_inside 3 ([] : framebuf Q)
                  55 40 12 0 3 2 Hd Hg Hf)).
Defined.

(** ** _resample *)

Local Open Scope Q_scope.

Lemma Forall2_in_r {A B : Type} (R : A -> B -> Prop) (l : list A)
      (l' : list B) (b : B) :
  Forall2 R l l' -> In b l' -> exists a, In a l /\ R a b.
Proof.
  intros Hrel. induction Hrel as [| a0 b0 l l' Hab _ IH]; intros Hin.
  - destruct Hin.
  - destruct Hin as [<- | Hin].
    + exists a0. split; [left; reflexivity | exact Hab].
    + destruct (IH Hin) as (a & Ha & HR).
      exists a. split; [right; exact Ha | exact HR].
Qed.

Lemma Ok_inj {A : Type} (a b : A) : Ok a = Ok b -> a = b.
Proof. intros E. injection E as E. exact E. Qed.

Lemma interpolation_between (a b f lo hi : Q) :
  lo <= a <= hi -> lo <= b <= hi -> 0 <= f <= 1 ->
  lo <= a * (1 - f) + b * f <= hi.
Proof.
  intros [Ha1 Ha2] [Hb1 Hb2] [Hf0 Hf1].
  assert (H1 : 0 <= (a - lo) * (1 - f)) by (apply Qmult_le_0_compat; lra).
  assert (H2 : 0 <= (b - lo) * f) by (apply Qmult_le_0_compat; lra).
  assert (H3 : 0 <= (hi - a) * (1 - f)) by (apply Qmult_le_0_compat; lra).
  assert (H4 : 0 <= (hi - b) * f) by (apply Qmult_le_0_compat; lra).
  assert (E1 : a * (1 - f) + b * f ==
               lo + ((a - lo) * (1 - f) + (b - lo) * f)) by ring.
  assert (E2 : a * (1 - f) + b * f ==
               hi - ((hi - a) * (1 - f) + (hi - b) * f)) by ring.
  split.
  - rewrite E1. lra.
  - rewrite E2. lra.
Qed.

(** X12: [_resample] never raises on a non-empty list, whatever the
    target length: it returns [max(target_len, 0)] samples, each between
    the smallest and the largest input value (no overshoot of the
    interpolation). *)
Theorem resample_is_total_and_bounded (values : list Q) (target_len : Z)
        (lo hi : Q) :
  values <> [] ->
  (forall x, In x values -> lo <= x <= hi) ->
  exists out,
    _resample values target_len = Ok out /\
    len out = Z.max 0 target_len /\
    forall v, In v out -> lo <= v <= hi.
Proof.
  intros Hne Hbound.
  assert (Hlen : (1 <= len values)%Z).
  { unfold len. destruct values; [contradiction | cbn; lia]. }
  unfold _resample.
  assert (E0 : (len values =? 0)%Z = false) by lia. rewrite E0.
  destruct (len values =? target_len)%Z eqn:En.
  - exists values. split; [reflexivity |]. split; [lia | exact Hbound].
  - destruct (target_len =? 1)%Z eqn:E1.
    + rewrite (getitem_last values 0 Hne). cbn [bind].
      eexists. split; [reflexivity |].
      split; [unfold len; cbn; lia |].
      intros v [<- | []]. apply Hbound.
      rewrite (app_removelast_last 0 Hne) at 2.
      apply in_or_app. right. left. reflexivity.
    + set (n := len values) in *.
      destruct (_resample_for_Forall2 values n target_len
                  (range target_len) []) as (out & Hout & Hrel).
      { intros i Hin. rewrite range_seq in Hin.
        apply in_map_iff in Hin. destruct Hin as (k & <- & Hk).
        apply in_seq in Hk.
        destruct (_resample_at_exact values n target_len (Z.of_nat k)
                    eq_refl Hlen ltac:(lia) ltac:(lia)) as [_ Hv].
        eexists. exact Hv. }
      cbn [app] in Hout. exists out. split; [exact Hout |]. split.
      * unfold len. rewrite <- (Forall2_length Hrel), range_seq.
        rewrite length_map, length_seq. lia.
      * intros v Hv.
        destruct (Forall2_in_r _ _ _ v Hrel Hv) as (i & Hi & Hat).
        rewrite range_seq in Hi.
        apply in_map_iff in Hi. destruct Hi as (k & <- & Hk).
        apply in_seq in Hk.
        destruct (_resample_at_exact values n target_len (Z.of_nat k)
                    eq_refl Hlen ltac:(lia) ltac:(lia)) as [Hlow Hx].
        cbv zeta in Hlow, Hx.
        set (pos := inject_Z (Z.of_nat k * (n - 1)) /
                    inject_Z (target_len - 1)) in *.
        rewrite Hx in Hat. apply Ok_inj in Hat. rewrite <- Hat.
        apply interpolation_between.
        -- apply Hbound. apply nth_In. unfold n, len in Hlow. lia.
        -- apply Hbound. apply nth_In. unfold n, len in Hlow |- *. lia.
        -- assert (Hfl := Qfloor_le pos). assert (Hfu := Qlt_floor pos).
           rewrite inject_Z_plus in Hfu. change (inject_Z 1) with 1 in Hfu.
           lra.
Qed.

Lemma resample_is_total_and_bounded_witness :
  [100; 100; 200; 300; 300] <> [] /\
  (forall x, In x [100; 100; 200; 300; 300] -> 100 <= x <= 300) /\
  exists out,
    _resample [100; 100; 200; 300; 300] 8 = Ok out /\
    len out = Z.max 0 8 /\
    forall v, In v out -> 100 <= v <= 300.
Proof.
  assert (Hne : [100; 100; 200; 300; 300] <> []) by discriminate.
  assert (Hb : forall x, In x [100; 100; 200; 300; 300] -> 100 <= x <= 300).
  { intros x Hx. cbn [In] in Hx.
    destruct Hx as [<- | [<- | [<- | [<- | [<- | []]]]]];
      split; discriminate. }
  split; [exact Hne |]. split; [exact Hb |].
  exact (resample_is_total_and_bounded [100; 100; 200; 300; 300] 8
           100 300 Hne Hb).
Defined.

(** ** _draw_y_grid *)

Lemma _hline_dashed_while_ops {F : Type} `{Num F} (fuel : nat)
      (end_ y color dash gap : Z) :
  (0 < dash)%Z -> (0 <= gap)%Z ->
  forall (fb fb' : framebuf F) (pos : Z),
    _hline_dashed_while fuel fb pos end_ y color dash gap = Ok fb' ->
    exists ops,
      fb' = fb ++ ops /\
      Forall (fun op => exists p r, op = Hline p y r color /\
                                    (pos <= p /\ 1 <= r /\ p + r <= end_)%Z)
             ops.
Proof.
  intros Hd Hg. induction fuel as [| fuel IH]; intros fb fb' pos Hrun;
    cbn [_hline_dashed_while] in Hrun; [discriminate |].
  destruct (pos <? end_)%Z eqn:E.
  - apply IH in Hrun. destruct Hrun as (ops & -> & Hops).
    exists (Hline pos y (Z.min dash (end_ - pos)) color :: ops).
    split; [unfold fb_hline; rewrite <- app_assoc; reflexivity |].
    constructor.
    + exists pos, (Z.min dash (end_ - pos)). split; [reflexivity | lia].
    + eapply Forall_impl; [| exact Hops].
      intros op (p & r & -> & Hp). exists p, r. split; [reflexivity | lia].
  - apply Ok_inj in Hrun. subst fb'. exists []. rewrite app_nil_r.
    split; [reflexivity | constructor].
Qed.

Lemma _draw_y_grid_while_ops (left top width height : Z)
      (min_val max_val step : Q) :
  0 < step -> (1 <= height)%Z ->
  forall (fuel n : nat) (fb fb' : framebuf Q) (y : Q),
    min_val <= y ->
    max_val - y < inject_Z (Z.of_nat n) * step ->
    _draw_y_grid_while fuel fb left top width height min_val max_val step y
    = Ok fb' ->
    exists ops,
      fb' = fb ++ ops /\
      Forall (y_grid_op_inside left top width height) ops /\
      (List.length (filter is_text ops) <= n)%nat.
Proof.
  intros Hstep Hh. induction fuel as [| fuel IH];
    intros n fb fb' y Hy Hn Hrun; cbn [_draw_y_grid_while] in Hrun;
    [discriminate |].
  destruct (leb y max_val) eqn:Eg.
  - assert (Hle : y <= max_val) by (apply Qle_bool_iff; exact Eg).
    destruct n as [| n].
    { change (inject_Z (Z.of_nat 0)) with 0 in Hn. lra. }
    assert (Hspan := span_floor (sub max_val min_val)).
    destruct (max2_exact (sub max_val min_val) (lit (1 # 1000000)))
      as (_ & Hsp & _).
    set (span := max2 (sub max_val min_val) (lit (1 # 1000000))) in *.
    change (sub max_val min_val) with (max_val - min_val) in Hsp.
    rewrite _scale_exact in Hrun by lra. cbn [bind] in Hrun.
    destruct (scaled_ratio_bounds y min_val span height ltac:(lra) Hh
                ltac:(split; lra)) as [Hr0 Hr1].
    set (ratio := (y - min_val) / span * inject_Z (height - 1)) in *.
    assert (Hoff : (0 <= Qtruncate ratio <= height - 1)%Z).
    { rewrite Qtruncate_nonneg by exact Hr0. split.
      - change 0%Z with (Qfloor 0). apply Qfloor_resp_le. exact Hr0.
      - rewrite <- (Qfloor_Z (height - 1)).
        apply Qfloor_resp_le. exact Hr1. }
    set (offset := Qtruncate ratio) in *.
    unfold _hline_dashed in Hrun.
    destruct (_hline_dashed_while fuel fb left (left + width)%Z
                (top + height - offset)%Z FG_COLOR 3 2)
      as [fbh | e |] eqn:Eh; cbn [bind] in Hrun; try discriminate.
    apply _hline_dashed_while_ops in Eh; [| lia | lia].
    destruct Eh as (hops & -> & Hhops).
    destruct (_format_k_returns y) as (label & Hlabel).
    rewrite Hlabel in Hrun. cbn [bind] in Hrun.
    apply (IH n) in Hrun.
    + destruct Hrun as (ops & -> & Hops & Hcount).
      exists (hops ++ Text label 4 (top + height - offset - 4)%Z FG_COLOR
                   :: ops).
      split.
      { unfold fb_text. rewrite <- !app_assoc. reflexivity. }
      split.
      * apply Forall_app. split.
        -- eapply Forall_impl; [| exact Hhops].
           intros op (p & r & -> & Hp). cbn. lia.
        -- constructor; [cbn; lia | exact Hops].
      * rewrite filter_app, length_app. cbn [filter is_text List.length].
        assert (Hnone : filter is_text hops = []).
        { clear - Hhops. induction Hhops as [| op ops (p & r & -> & _) _ IHh];
            [reflexivity | cbn; exact IHh]. }
        rewrite Hnone. cbn [List.length]. lia.
    + change (add y step) with (y + step). lra.
    + change (add y step) with (y + step).
      rewrite Nat2Z.inj_succ in Hn. unfold Z.succ in Hn.
      rewrite inject_Z_plus in Hn. change (inject_Z 1) with 1 in Hn. lra.
  - apply Ok_inj in Hrun. subst fb'. exists []. rewrite app_nil_r.
    split; [reflexivity |]. split; [constructor | cbn; lia].
Qed.

(** What [_draw_y_grid] adds when it returns. *)
Lemma _draw_y_grid_ops (fuel : nat) (fb fb' : framebuf Q)
      (left top width height : Z) (min_val max_val step : Q) :
  0 < step -> (1 <= height)%Z ->
  _draw_y_grid fuel fb left top width height min_val max_val step = Ok fb' ->
  exists ops,
    fb' = fb ++ ops /\
    Forall (y_grid_op_inside left top width height) ops /\
    (Z.of_nat (List.length (filter is_text ops)) <=
     Z.max 0 (Qfloor ((max_val - min_val) / step) + 1))%Z.
Proof.
  intros Hstep Hh Hrun. unfold _draw_y_grid in Hrun.
  assert (Hnz : ~ step == 0) by (intros E; rewrite E in Hstep; discriminate).
  rewrite div_exact in Hrun by exact Hnz.
  cbn [bind ceil exact] in Hrun.
  set (start := mul (of_int (Qceiling (min_val / step))) step) in *.
  assert (Hstart : min_val <= start).
  { unfold start. change (min_val <= inject_Z (Qceiling (min_val / step)) * step).
    assert (Hc := Qle_ceiling (min_val / step)).
    assert (E : min_val == min_val / step * step) by (field; exact Hnz).
    rewrite E at 1. apply Qmult_le_compat_r; [exact Hc |].
    apply Qlt_le_weak. exact Hstep. }
  set (t := (max_val - min_val) / step).
  set (N := Z.max 0 (Qfloor t + 1)).
  assert (Ht : t < inject_Z N).
  { apply Qlt_le_trans with (1 := Qlt_floor t).
    rewrite <- Zle_Qle. unfold N. lia. }
  assert (Hn : max_val - start < inject_Z (Z.of_nat (Z.to_nat N)) * step).
  { rewrite Z2Nat.id by (unfold N; lia).
    assert (E : max_val - min_val == t * step)
      by (unfold t; field; exact Hnz).
    assert (Hm : t * step < inject_Z N * step)
      by (apply Qmult_lt_compat_r; assumption).
    lra. }
  destruct (_draw_y_grid_while_ops left top width height min_val max_val step
              Hstep Hh fuel (Z.to_nat N) fb fb' start Hstart Hn Hrun)
    as (ops & -> & Hops & Hcount).
  exists ops. split; [reflexivity |]. split; [exact Hops |]. lia.
Qed.

(** X13: the horizontal grid stays in the chart.  In exact arithmetic,
    for a positive step and [height >= 1], [_draw_y_grid] returns once
    the fuel suffices, keeps what the buffer held, and adds only dashed
    strokes in rows [top + 1 .. top + height] within the columns of the
    chart and labels at column 4, one label per gridline; there are at
    most [floor((max_val - min_val) / step) + 1] gridlines. *)
Theorem y_grid_stays_in_chart (fb : framebuf Q) (left top width height : Z)
        (min_val max_val step : Q) :
  0 < step -> (1 <= height)%Z ->
  exists fuel0 : nat, forall fuel : nat,
    (fuel0 <= fuel)%nat ->
    exists ops,
      _draw_y_grid fuel fb left top width height min_val max_val step
      = Ok (fb ++ ops) /\
      Forall (y_grid_op_inside left top width height) ops /\
      (Z.of_nat (List.length (filter is_text ops)) <=
       Z.max 0 (Qfloor ((max_val - min_val) / step) + 1))%Z.
Proof.
  intros Hstep Hh.
  destruct (_draw_y_grid_returns fb left top width height
              min_val max_val step Hstep) as (fuel0 & Hret).
  exists fuel0. intros fuel Hfuel.
  destruct (Hret fuel Hfuel) as (fb' & Hrun).
  destruct (_draw_y_grid_ops fuel fb fb' left top width height
              min_val max_val step Hstep Hh Hrun)
    as (ops & -> & Hops & Hcount).
  exists ops. split; [exact Hrun |]. split; [exact Hops | exact Hcount].
Qed.

Lemma y_grid_stays_in_chart_witness :
  0 < 50 /\ (1 <= 64)%Z /\
  exists fuel0 : nat, forall fuel : nat,
    (fuel0 <= fuel)%nat ->
    exists ops,
      _draw_y_grid fuel [] 55 34 235 64 100 400 50 = Ok ([] ++ ops) /\
      Forall (y_grid_op_inside 55 34 235 64) ops /\
      (Z.of_nat (List.length (filter is_text ops)) <=
       Z.max 0 (Qfloor ((400 - 100) / 50) + 1))%Z.
Proof.
  assert (Hs : 0 < 50) by reflexivity.
  assert (Hh : (1 <= 64)%Z) by lia.
  split; [exact Hs |]. split; [exact Hh |].
  exact (y_grid_stays_in_chart [] 55 34 235 64 100 400 50 Hs Hh).
Defined.

(** ** _draw_x_grid *)

Lemma x_grid_count_bounds (points desired_lines : Z) :
  (2 <= points)%Z -> (2 <= desired_lines)%Z ->
  let step_points := Z.max 1 (points / desired_lines) in
  let count := ((points - 1) / step_points)%Z in
  (1 <= count <= 2 * desired_lines - 1)%Z /\
  (count * step_points <= points - 1)%Z /\
  (points mod desired_lines = 0 -> count = desired_lines - 1)%Z.
Proof.
  intros Hp Hd. cbv zeta.
  assert (He := Z.div_mod points desired_lines ltac:(lia)).
  assert (Hr := Z.mod_pos_bound points desired_lines ltac:(lia)).
  remember (points / desired_lines)%Z as e eqn:Ee.
  remember (points mod desired_lines)%Z as r eqn:Er.
  remember (Z.max 1 e) as s eqn:Es.
  assert (Hs : (1 <= s)%Z) by lia.
  assert (Hc := Z.div_mod (points - 1) s ltac:(lia)).
  assert (Hcr := Z.mod_pos_bound (points - 1) s ltac:(lia)).
  remember ((points - 1) / s)%Z as c eqn:Ec.
  remember ((points - 1) mod s)%Z as m eqn:Em.
  clear Ee Er Ec Em.
  assert (He0 : (0 <= e)%Z) by nia.
  assert (Hse : (points < desired_lines * s + desired_lines)%Z).
  { destruct (Z.max_spec 1 e) as [[H1 E] | [H1 E]]; rewrite E in Es; subst s.
    - lia.
    - assert (e = 0 \/ e = 1)%Z by lia. nia. }
  assert (Hsp : (s <= points - 1)%Z).
  { destruct (Z.max_spec 1 e) as [[H1 E] | [H1 E]]; rewrite E in Es; subst s.
    - nia.
    - lia. }
  assert (Hc1 : (1 <= c)%Z) by nia.
  assert (Hc2 : (c <= 2 * desired_lines - 1)%Z) by nia.
  split; [lia |]. split; [nia |].
  intros Hr0.
  assert (He1 : (1 <= e)%Z) by nia.
  assert (E : s = e) by lia. subst s. rewrite Hr0 in He.
  assert (Hlo : (desired_lines - 1 <= c)%Z) by nia.
  assert (Hhi : (c <= desired_lines - 1)%Z) by nia.
  lia.
Qed.

(** X14: the vertical grid stays in the chart.  With the horizontal
    step [width / (points - 1)] that [draw_chart] passes, [width >= 0]
    and at least two points, [_draw_x_grid] draws its dashed lines in
    columns from [left] to [left + width], at least one and at most
    [2 * desired_lines - 1] of them (11 for the short view, 23 for
    "365d"), and exactly [desired_lines - 1] when [points] is a multiple
    of [desired_lines]. *)
Theorem x_grid_stays_in_chart (fuel : nat) (fb : framebuf Q)
        (left top height width points : Z) (span_label : string) :
  (2 <= points)%Z -> (0 <= width)%Z ->
  let desired_lines := (if String.eqb span_label "365d" then 12 else 6)%Z in
  let step_x := inject_Z width / inject_Z (points - 1) in
  exists columns : list Z,
    _draw_x_grid fuel fb left top height step_x points span_label =
    vlines_at fuel fb columns top height /\
    Forall (fun x => (left <= x <= left + width)%Z) columns /\
    (1 <= len columns <= 2 * desired_lines - 1)%Z /\
    (points mod desired_lines = 0 -> len columns = desired_lines - 1)%Z.
Proof.
  intros Hp Hw desired_lines step_x.
  assert (Hd : (2 <= desired_lines)%Z)
    by (unfold desired_lines; destruct (String.eqb span_label "365d"); lia).
  destruct (x_grid_count_bounds points desired_lines Hp Hd)
    as (Hcount & Hlast & Hmult).
  set (step_points := Z.max 1 (points / desired_lines)) in *.
  set (count := ((points - 1) / step_points)%Z) in *.
  assert (Hs : (1 <= step_points)%Z) by (unfold step_points; lia).
  exists (map (fun idx => Qtruncate (inject_Z left + inject_Z idx * step_x))
              (map (fun k => (Z.of_nat k * step_points)%Z)
                   (seq 1 (Z.to_nat count)))).
  split.
  - unfold _draw_x_grid.
    assert (E : (points <? 2)%Z = false) by lia. rewrite E.
    fold desired_lines. fold step_points.
    rewrite range3_multiples by exact Hs.
    apply _draw_x_grid_for_vlines.
  - split.
    + apply Forall_forall. intros x Hx.
      apply in_map_iff in Hx. destruct Hx as (idx & <- & Hidx).
      apply in_map_iff in Hidx. destruct Hidx as (k & <- & Hk).
      apply in_seq in Hk.
      assert (Hk1 : (1 <= Z.of_nat k * step_points <= points - 1)%Z) by nia.
      set (idx := (Z.of_nat k * step_points)%Z) in *.
      assert (Hden : 0 < inject_Z (points - 1)).
      { change 0 with (inject_Z 0). rewrite <- Zlt_Qlt. lia. }
      assert (Hsx0 : 0 <= step_x).
      { unfold step_x. apply Qle_shift_div_l; [exact Hden |].
        rewrite Qmult_0_l. change 0 with (inject_Z 0).
        rewrite <- Zle_Qle. exact Hw. }
      assert (Hi0 : 0 <= inject_Z idx).
      { change 0 with (inject_Z 0). rewrite <- Zle_Qle. lia. }
      assert (Hlo : 0 <= inject_Z idx * step_x)
        by (apply Qmult_le_0_compat; assumption).
      assert (Hhi : inject_Z idx * step_x <= inject_Z width).
      { assert (Hi1 : inject_Z idx <= inject_Z (points - 1))
          by (rewrite <- Zle_Qle; lia).
        assert (E : inject_Z width == inject_Z (points - 1) * step_x).
        { unfold step_x. field. intros E0. rewrite E0 in Hden.
          discriminate. }
        rewrite E. apply Qmult_le_compat_r; assumption. }
      split.
      * rewrite <- (Qtruncate_Z left) at 1. apply Qtruncate_monotone. lra.
      * rewrite <- (Qtruncate_Z (left + width)).
        apply Qtruncate_monotone. rewrite inject_Z_plus. lra.
    + assert (El : len (map (fun idx => Qtruncate (inject_Z left +
                                                   inject_Z idx * step_x))
                            (map (fun k => (Z.of_nat k * step_points)%Z)
                                 (seq 1 (Z.to_nat count)))) = count).
      { unfold len. rewrite !length_map, length_seq. lia. }
      rewrite El. split; [exact Hcount | exact Hmult].
Qed.

Lemma x_grid_stays_in_chart_witness :
  (2 <= 96)%Z /\ (0 <= 235)%Z /\
  exists columns : list Z,
    _draw_x_grid 20 ([] : framebuf Q) 55 34 64
                 (inject_Z 235 / inject_Z (96 - 1)) 96 "24h" =
    vlines_at 20 [] columns 34 64 /\
    Forall (fun x => (55 <= x <= 55 + 235)%Z) columns.
Proof.
  assert (Hp : (2 <= 96)%Z) by lia. assert (Hw : (0 <= 235)%Z) by lia.
  split; [exact Hp |]. split; [exact Hw |].
  destruct (x_grid_stays_in_chart 20 [] 55 34 64 235 96 "24h" Hp Hw)
    as (columns & Hrun & Hin & _).
  exists columns. split; [exact Hrun | exact Hin].
Defined.

(** ** The polyline of draw_chart *)

Lemma polyline_end_app {F : Type} (ops : list (draw_op F)) :
  forall (x y x1 y1 x2 y2 c : Z),
    polyline_end x y (ops ++ [Line x1 y1 x2 y2 c]) = (x2, y2).
Proof.
  induction ops as [| op ops IH]; intros x y x1 y1 x2 y2 c; [reflexivity |].
  destruct op; cbn [app polyline_end]; apply IH.
Qed.

Lemma draw_chart_for_polyline (left top height : Z) (step_x min_val span : Q) :
  0 < span -> (1 <= height)%Z -> 0 <= step_x ->
  forall (values : list Q) (fb : framebuf Q) (idx prev_x prev_y : Z),
    (0 <= idx)%Z ->
    (forall v, In v values -> min_val <= v <= min_val + span) ->
    (prev_x <= Qtruncate (inject_Z left + inject_Z idx * step_x))%Z ->
    exists lines,
      draw_chart_for fb left top height step_x min_val span idx values
                     prev_x prev_y = Ok (fb ++ lines) /\
      List.length lines = List.length values /\
      polyline_from top height prev_x prev_y lines /\
      (values <> [] ->
       fst (polyline_end prev_x prev_y lines) =
       Qtruncate (inject_Z left +
                  inject_Z (idx + len values - 1) * step_x)).
Proof.
  intros Hspan Hh Hsx.
  induction values as [| value values IH];
    intros fb idx prev_x prev_y Hidx Hin Hprev.
  - exists []. rewrite app_nil_r. cbn.
    repeat split; try reflexivity. intros Hne. contradiction.
  - cbn [draw_chart_for].
    change (int_ (add (of_int left) (mul (of_int idx) step_x)))
      with (Ok (Qtruncate (inject_Z left + inject_Z idx * step_x))).
    cbn [bind]. rewrite _scale_exact by exact Hspan. cbn [bind].
    set (x := Qtruncate (inject_Z left + inject_Z idx * step_x)) in *.
    set (s := Qtruncate ((value - min_val) / span * inject_Z (height - 1))).
    assert (Hs : (0 <= s <= height - 1)%Z).
    { destruct (scaled_ratio_bounds value min_val span height Hspan Hh
                  (Hin value (or_introl eq_refl))) as [H0 H1].
      unfold s. rewrite Qtruncate_nonneg by exact H0. split.
      - change 0%Z with (Qfloor 0). apply Qfloor_resp_le. exact H0.
      - rewrite <- (Qfloor_Z (height - 1)) at 2.
        apply Qfloor_resp_le. exact H1. }
    destruct (IH (fb_line fb prev_x prev_y x (top + height - s)%Z FG_COLOR)
                 (idx + 1)%Z x (top + height - s)%Z)
      as (lines & Hrun & Hlen & Hpoly & Hend).
    + lia.
    + intros v Hv. apply Hin. right. exact Hv.
    + unfold x. apply Qtruncate_monotone.
      rewrite inject_Z_plus. change (inject_Z 1) with 1.
      assert (E : (inject_Z idx + 1) * step_x ==
                  inject_Z idx * step_x + step_x) by ring.
      rewrite E. lra.
    + exists (Line prev_x prev_y x (top + height - s)%Z FG_COLOR :: lines).
      split.
      { rewrite Hrun. unfold fb_line. rewrite <- app_assoc. reflexivity. }
      split; [cbn [List.length]; lia |].
      split.
      { cbn [polyline_from]. repeat split; try lia. exact Hpoly. }
      intros _. cbn [polyline_end].
      destruct values as [| v2 values'].
      * assert (El : lines = []) by (destruct lines; [reflexivity | discriminate]).
        subst lines. cbn [polyline_end fst]. unfold x, len. cbn [List.length].
        replace (idx + Z.of_nat 1 - 1)%Z with idx by lia. reflexivity.
      * rewrite Hend by discriminate. unfold len.
        replace (idx + 1 + Z.of_nat (List.length (v2 :: values')) - 1)%Z
          with (idx + Z.of_nat (List.length (value :: v2 :: values')) - 1)%Z
          by (cbn [List.length]; lia).
        reflexivity.
Qed.

(** X15: the polyline.  In exact arithmetic, for [span > 0],
    [height >= 1], a horizontal step that is not negative and values in
    [min_val, min_val + span], the loop of [draw_chart] over the samples
    never raises and adds one [fb.line] per sample: each segment starts
    where the one before ended, none goes left, every vertex lies in the
    rows [top + 1 .. top + height], and the last vertex is in column
    [int(left + n * step_x)] for the last index [n]. *)
Theorem polyline_is_connected (left top height : Z) (step_x min_val span : Q)
        (others : list Q) (fb : framebuf Q) (prev_y : Z) :
  0 < span -> (1 <= height)%Z -> 0 <= step_x ->
  (forall v, In v others -> min_val <= v <= min_val + span) ->
  exists lines,
    draw_chart_for fb left top height step_x min_val span 1 others
                   left prev_y = Ok (fb ++ lines) /\
    List.length lines = List.length others /\
    polyline_from top height left prev_y lines /\
    (others <> [] ->
     fst (polyline_end left prev_y lines) =
     Qtruncate (inject_Z left + inject_Z (len others) * step_x)).
Proof.
  intros Hspan Hh Hsx Hin.
  destruct (draw_chart_for_polyline left top height step_x min_val span
              Hspan Hh Hsx others fb 1%Z left prev_y ltac:(lia) Hin)
    as (lines & Hrun & Hlen & Hpoly & Hend).
  - rewrite <- (Qtruncate_Z left) at 1. apply Qtruncate_monotone.
    change (inject_Z 1) with 1. lra.
  - exists lines. repeat split; try assumption.
    intros Hne. rewrite (Hend Hne).
    replace (1 + len others - 1)%Z with (len others) by lia. reflexivity.
Qed.

Lemma polyline_is_connected_witness :
  0 < 300 /\ (1 <= 64)%Z /\ 0 <= 235 # 3 /\
  (forall v, In v [200; 300; 400] -> 100 <= v <= 100 + 300) /\
  exists lines,
    draw_chart_for ([] : framebuf Q) 55 34 64 (235 # 3) 100 300 1
                   [200; 300; 400] 55 98 = Ok ([] ++ lines) /\
    List.length lines = 3%nat /\
    polyline_from 34 64 55 98 lines.
Proof.
  assert (Hs : 0 < 300) by reflexivity.
  assert (Hh : (1 <= 64)%Z) by lia.
  assert (Hx : 0 <= 235 # 3) by discriminate.
  assert (Hin : forall v, In v [200; 300; 400] -> 100 <= v <= 100 + 300).
  { intros v Hv. cbn [In] in Hv.
    destruct Hv as [<- | [<- | [<- | []]]]; split; discriminate. }
  split; [exact Hs |]. split; [exact Hh |]. split; [exact Hx |].
  split; [exact Hin |].
  destruct (polyline_is_connected 55 34 64 (235 # 3) 100 300
              [200; 300; 400] [] 98 Hs Hh Hx Hin)
    as (lines & Hrun & Hlen & Hpoly & _).
  exists lines. split; [exact Hrun |]. split; [exact Hlen | exact Hpoly].
Defined.

(** ** draw_chart with data *)

Lemma vlines_at_ops {F : Type} `{Num F} (fuel : nat) (xs : list Z)
      (top height : Z) : forall fb : framebuf F,
  (0 <= height)%Z -> (height + 5 <= 5 * Z.of_nat fuel)%Z ->
  exists ops,
    vlines_at fuel fb xs top height = Ok (fb ++ ops) /\
    Forall (fun op => is_line op = false) ops.
Proof.
  intros fb Hh Hf. revert fb.
  destruct fuel as [| fuel]; [lia |].
  induction xs as [| x xs IH]; intros fb; cbn [vlines_at].
  - exists []. rewrite app_nil_r. split; [reflexivity | constructor].
  - unfold _vline_dashed.
    rewrite _vline_dashed_while_strokes by lia. cbn [bind].
    destruct (IH (fb ++ map (fun s => Vline x (fst s) (snd s) FG_COLOR)
                           (dash_strokes top (top + height - top) 3 2)))
      as (ops & Hrun & Hops).
    exists (map (fun s => Vline x (fst s) (snd s) FG_COLOR)
                (dash_strokes top (top + height - top) 3 2) ++ ops).
    split; [rewrite Hrun, <- app_assoc; reflexivity |].
    apply Forall_app. split; [| exact Hops].
    apply Forall_forall. intros op Hop.
    apply in_map_iff in Hop. destruct Hop as (s & <- & _). reflexivity.
Qed.

Lemma _draw_x_grid_ops (fuel : nat) (fb : framebuf Q) (left top height : Z)
      (step_x : Q) (points : Z) (span_label : string) :
  (0 <= height)%Z -> (height + 5 <= 5 * Z.of_nat fuel)%Z ->
  exists ops,
    _draw_x_grid fuel fb left top height step_x points span_label
    = Ok (fb ++ ops) /\
    Forall (fun op => is_line op = false) ops.
Proof.
  intros Hh Hf. unfold _draw_x_grid.
  destruct (points <? 2)%Z.
  - exists []. rewrite app_nil_r. split; [reflexivity | constructor].
  - rewrite _draw_x_grid_for_vlines. apply vlines_at_ops; assumption.
Qed.

(** X16: [draw_chart] on a history with data.  In exact arithmetic it
    never raises: once the fuel suffices it returns, for every history
    that holds a value and every label.  It keeps what the buffer held
    and adds the border, then the two grids, which contain no [fb.line],
    then a connected polyline of one segment less than there are values,
    from column 55 in the rows 35..98 and ending, when there are two
    values or more, in column 290, the right edge; then the minimum, the
    maximum and the label of the span, in this order. *)
Theorem draw_chart_with_data (fb : framebuf Q) (history : RingBuffer.t Q)
        (span_label : string) :
  RingBuffer.data history <> [] ->
  let min_val := fst (RingBuffer.minmax history) in
  let max_val := snd (RingBuffer.minmax history) in
  exists fuel0 : nat, forall fuel : nat,
    (fuel0 <= fuel)%nat ->
    exists (grid lines : framebuf Q) (y0 : Z),
      draw_chart fuel fb history span_label =
      Ok (fb ++ Rect 54 33 237 66 FG_COLOR :: grid ++ lines ++
             [Text (Fmt "Min " 0 min_val " EUR") 55 102 FG_COLOR;
              Text (Fmt "Max " 0 max_val " EUR") 165 102 FG_COLOR;
              Text (Lit span_label) 254 25 FG_COLOR]) /\
      Forall (fun op => is_line op = false) grid /\
      (34 < y0 <= 98)%Z /\
      polyline_from 34 64 55 y0 lines /\
      (len lines = len (RingBuffer.data history) - 1)%Z /\
      ((2 <= len (RingBuffer.data history))%Z ->
       fst (polyline_end 55 y0 lines) = 290%Z).
Proof.
  intros Hne min_val max_val.
  destruct (RingBuffer.data history) as [| first others] eqn:Ed;
    [contradiction |].
  assert (Emm : RingBuffer.minmax history =
                (RingBuffer.min_list first others,
                 RingBuffer.max_list first others)).
  { unfold RingBuffer.minmax. rewrite Ed. reflexivity. }
  unfold min_val, max_val. clear min_val max_val. rewrite Emm. cbn [fst snd].
  destruct (min_list_exact others first) as [_ Hmin].
  destruct (max_list_exact others first) as [_ Hmax].
  set (mn := RingBuffer.min_list first others) in *.
  set (mx := RingBuffer.max_list first others) in *.
  destruct (max2_exact (sub mx mn) (lit (1 # 1000000))) as (_ & Hsp & _).
  assert (Hfloor := span_floor (sub mx mn)).
  set (span := max2 (sub mx mn) (lit (1 # 1000000))) in *.
  change (sub mx mn) with (mx - mn) in Hsp.
  assert (Hspan : 0 < span) by lra.
  assert (Hin : forall v, In v (first :: others) -> mn <= v <= mn + span).
  { intros v Hv. assert (H1 := Hmin v Hv). assert (H2 := Hmax v Hv).
    split; lra. }
  destruct (magnitude_brackets span Hspan) as [_ Hhi].
  destruct (_nice_step_for_first span _ (ten_pow_pos _) Hhi)
    as (factor & _ & Hstep & _ & Hstep_pos & _).
  rewrite <- (_nice_step_magnitude span Hspan) in Hstep.
  set (step := inject_Z factor * ten ^ Qfloor_log10 (span / inject_Z 4)) in *.
  destruct (_draw_y_grid_returns (fb ++ [Rect 54 33 237 66 FG_COLOR])
              55 34 235 64 mn mx step Hstep_pos) as (f0 & Hret).
  exists (Nat.max f0 14). intros fuel Hfuel.
  destruct (Hret fuel ltac:(lia)) as (fby & Hy).
  destruct (_draw_y_grid_ops fuel _ fby 55 34 235 64 mn mx step
              Hstep_pos ltac:(lia) Hy) as (yops & -> & Hyin & _).
  set (points := len (first :: others)).
  assert (Hpoints : (points = 1 + len others)%Z).
  { unfold points, len. cbn [List.length]. lia. }
  set (step_x := inject_Z 235 / inject_Z (Z.max 1 (points - 1))).
  assert (Hden : 0 < inject_Z (Z.max 1 (points - 1))).
  { change 0 with (inject_Z 0). rewrite <- Zlt_Qlt. lia. }
  assert (Hsx : 0 <= step_x).
  { unfold step_x. apply Qle_shift_div_l; [exact Hden |].
    rewrite Qmult_0_l. discriminate. }
  destruct (_draw_x_grid_ops fuel ((fb ++ [Rect 54 33 237 66 FG_COLOR]) ++ yops)
              55 34 64 step_x points span_label ltac:(lia) ltac:(lia))
    as (xops & Hx & Hxin).
  assert (Hscale := _scale_exact first mn span 64 Hspan).
  destruct (scaled_ratio_bounds first mn span 64 Hspan ltac:(lia)
              (Hin first (or_introl eq_refl))) as [Hr0 Hr1].
  set (ratio := (first - mn) / span * inject_Z (64 - 1)) in *.
  assert (Hs : (0 <= Qtruncate ratio <= 63)%Z).
  { rewrite Qtruncate_nonneg by exact Hr0. split.
    - change 0%Z with (Qfloor 0). apply Qfloor_resp_le. exact Hr0.
    - change 63%Z with (Qfloor (inject_Z (64 - 1))).
      apply Qfloor_resp_le. exact Hr1. }
  set (s := Qtruncate ratio) in *.
  destruct (draw_chart_for_polyline 55 34 64 step_x mn span Hspan
              ltac:(lia) Hsx others
              (((fb ++ [Rect 54 33 237 66 FG_COLOR]) ++ yops) ++ xops)
              1%Z 55%Z (34 + 64 - s)%Z ltac:(lia))
    as (lines & Hlines & Hlen & Hpoly & Hend).
  { intros v Hv. apply Hin. right. exact Hv. }
  { rewrite <- (Qtruncate_Z 55) at 1. apply Qtruncate_monotone.
    change (inject_Z 1) with 1. lra. }
  exists (yops ++ xops), lines, (34 + 64 - s)%Z.
  split.
  { unfold draw_chart. rewrite Ed, Emm. fold points. cbv zeta.
    fold mn mx span.
    change (div (of_int (EPD_WIDTH - 55 - 6))
                (of_int (Z.max 1 (points - 1))))
      with (div (inject_Z 235) (inject_Z (Z.max 1 (points - 1)))).
    rewrite div_exact
      by (intros E; rewrite E in Hden; discriminate).
    cbn [bind]. fold step_x. rewrite Hstep. cbn [bind].
    change (fb_rect fb (55 - 1) (34 - 1) (EPD_WIDTH - 55 - 6 + 2) (64 + 2)
                    FG_COLOR)
      with (fb ++ [Rect 54 33 237 66 FG_COLOR]).
    change (EPD_WIDTH - 55 - 6)%Z with 235%Z.
    rewrite Hy. cbn [bind]. rewrite Hx. cbn [bind].
    rewrite Hscale. cbn [bind]. fold ratio. fold s.
    rewrite Hlines. cbn [bind]. unfold fb_text.
    rewrite <- !app_assoc. reflexivity. }
  split.
  { apply Forall_app. split; [| exact Hxin].
    eapply Forall_impl; [| exact Hyin].
    intros op Hop. destruct op; cbn in Hop |- *;
      [contradiction | reflexivity | reflexivity | contradiction
       | contradiction]. }
  split; [lia |].
  split; [exact Hpoly |].
  split; [unfold len in *; cbn [List.length]; lia |].
  intros H2.
  assert (Hne' : others <> []).
  { intros ->. unfold len in H2. cbn in H2. lia. }
  rewrite (Hend Hne').
  replace (1 + len others - 1)%Z with (len others) by lia.
  assert (Hd : ~ inject_Z (Z.max 1 (points - 1)) == 0)
    by (intros E; rewrite E in Hden; discriminate).
  rewrite (Qtruncate_comp _ (inject_Z 290)).
  - apply Qtruncate_Z.
  - replace (len others) with (Z.max 1 (points - 1)) by lia.
    unfold step_x. change (inject_Z 290) with (inject_Z 55 + inject_Z 235).
    apply Qplus_inj_l. apply Qmult_div_r. exact Hd.
Qed.

Lemma draw_chart_with_data_witness :
  RingBuffer.data (RingBuffer.mk 5 [100; 400; 200]) <> [] /\
  exists fuel0 : nat, forall fuel : nat,
    (fuel0 <= fuel)%nat ->
    exists (grid lines : framebuf Q) (y0 : Z),
      draw_chart fuel [] (RingBuffer.mk 5 [100; 400; 200]) "24h" =
      Ok ([] ++ Rect 54 33 237 66 FG_COLOR :: grid ++ lines ++
             [Text (Fmt "Min " 0 100 " EUR") 55 102 FG_COLOR;
              Text (Fmt "Max " 0 400 " EUR") 165 102 FG_COLOR;
              Text (Lit "24h") 254 25 FG_COLOR]) /\
      (len lines = 2)%Z.
Proof.
  assert (Hne : RingBuffer.data (RingBuffer.mk 5 [100; 400; 200]) <> [])
    by discriminate.
  split; [exact Hne |].
  destruct (draw_chart_with_data [] (RingBuffer.mk 5 [100; 400; 200]) "24h"
              Hne) as (fuel0 & Hrun).
  exists fuel0. intros fuel Hfuel.
  destruct (Hrun fuel Hfuel) as (grid & lines & y0 & E & _ & _ & _ & Hlen & _).
  exists grid, lines, y0. split; [exact E | exact Hlen].
Defined.

(** ** fetch_history *)

Lemma slice_from_suffix {A : Type} (old recent : list A) :
  recent <> [] ->
  slice_from (old ++ recent) (- len recent) = recent.
Proof.
  intros Hne. unfold slice_from.
  assert (Hl : (0 < len recent)%Z).
  { unfold len. destruct recent; [contradiction | cbn; lia]. }
  assert (E : (- len recent <? 0)%Z = true) by lia. rewrite E.
  unfold len in *. rewrite length_app.
  replace (Z.to_nat (Z.max (- Z.of_nat (List.length recent) +
                            Z.of_nat (List.length old + List.length recent))
                           0))
    with (List.length old + 0)%nat by lia.
  rewrite skipn_app, Nat.add_0_r, skipn_all.
  replace (List.length old - List.length old)%nat with 0%nat by lia.
  reflexivity.
Qed.

Lemma _resample_nonpositive {F : Type} `{Num F} (values : list F)
      (target_len : Z) :
  (target_len <= 0)%Z -> _resample values target_len = Ok [].
Proof.
  intros Ht. unfold _resample.
  destruct (len values =? 0)%Z eqn:E0; [reflexivity |].
  apply Z.eqb_neq in E0.
  assert (En : (len values =? target_len)%Z = false).
  { apply Z.eqb_neq. unfold len in *. lia. }
  assert (E1 : (target_len =? 1)%Z = false) by (apply Z.eqb_neq; lia).
  rewrite En, E1. unfold range, range3.
  replace (Z.to_nat ((target_len - 0 + 1 - 1) / 1)) with 0%nat
    by (rewrite Z.div_1_r; lia).
  reflexivity.
Qed.

(** X17: what [fetch_history] returns depends on the most recent
    [2 * target_len] prices only.  In every arithmetic: without prices
    the result is empty; with a target length of 0 or less it is empty
    too; with at most [2 * target_len] prices all of them are resampled;
    and with more, the result is that of resampling the last
    [2 * target_len] alone, whatever came before them. *)
Theorem fetch_history_uses_recent_prices {F : Type} `{Num F}
        (target_len : Z) :
  fetch_history_prices ([] : list F) target_len = Ok [] /\
  (forall prices : list F,
      (target_len <= 0)%Z ->
      fetch_history_prices prices target_len = Ok []) /\
  (forall prices : list F,
      (len prices <= 2 * target_len)%Z ->
      fetch_history_prices prices target_len = _resample prices target_len) /\
  (forall old recent : list F,
      (1 <= target_len)%Z -> (len recent = 2 * target_len)%Z ->
      fetch_history_prices (old ++ recent) target_len =
      _resample recent target_len).
Proof.
  split; [reflexivity |]. split; [| split].
  - intros prices Ht. destruct prices as [| p prices]; [reflexivity |].
    unfold fetch_history_prices. apply _resample_nonpositive. exact Ht.
  - intros prices Hl. destruct prices as [| p prices].
    + cbn [fetch_history_prices]. unfold _resample. reflexivity.
    + unfold fetch_history_prices.
      assert (E : (2 * target_len <? len (p :: prices))%Z = false) by lia.
      rewrite E. reflexivity.
  - intros old recent Ht Hl.
    assert (Hne : recent <> []).
    { intros ->. unfold len in Hl. cbn [List.length] in Hl. lia. }
    destruct old as [| o old]; cbn [app].
    + destruct recent as [| r recent]; [contradiction |].
      unfold fetch_history_prices.
      assert (E : (2 * target_len <? len (r :: recent))%Z = false) by lia.
      rewrite E. reflexivity.
    + unfold fetch_history_prices.
      assert (E : (2 * target_len <? len (o :: old ++ recent))%Z = true).
      { apply Z.ltb_lt. unfold len in *. cbn [List.length].
        rewrite length_app. lia. }
      rewrite E.
      replace (-2 * target_len)%Z with (- len recent)%Z by lia.
      change (o :: old ++ recent) with ((o :: old) ++ recent).
      rewrite slice_from_suffix by exact Hne. reflexivity.
Qed.

Lemma fetch_history_uses_recent_prices_witness :
  (1 <= 2)%Z /\ (len [300; 400; 500; 600] = 2 * 2)%Z /\
  fetch_history_prices ([100; 200] ++ [300; 400; 500; 600]) 2 =
  _resample [300; 400; 500; 600] 2.
Proof.
  assert (Ht : (1 <= 2)%Z) by lia.
  assert (Hl : (len [300; 400; 500; 600] = 2 * 2)%Z) by reflexivity.
  split; [exact Ht |]. split; [exact Hl |].
  exact (proj2 (proj2 (proj2 (fetch_history_uses_recent_prices 2)))
           [100; 200] [300; 400; 500; 600] Ht Hl).
Defined.

Local Close Scope Q_scope.

(** ** draw_text_scaled *)

Lemma draw_text_scaled_row (pixel : Z -> Z -> Z) (x y scale color : Z)
      (bg : option Z) (ty w : Z) (txs : list Z) :
  0 <= scale -> 0 <= ty < 8 ->
  (forall tx, In tx txs -> 0 <= tx < w) ->
  forall fb : list fill_rect_op,
  exists calls,
    fold_left (fun fb tx => draw_text_scaled_at pixel fb x y scale color bg
                                                ty tx) txs fb
    = fb ++ calls /\
    Forall (text_cell_inside x y (w * scale) (8 * scale) scale color bg)
           calls /\
    (List.length calls <= List.length txs)%nat /\
    (forall b, bg = Some b -> b <> color ->
               List.length calls = List.length txs).
Proof.
  intros Hs Hty. induction txs as [| tx txs IH]; intros Htx fb.
  - exists []. rewrite app_nil_r. cbn.
    repeat split; try reflexivity; try constructor.
  - assert (Hin : 0 <= tx < w) by (apply Htx; left; reflexivity).
    assert (Hcell : forall c, c = color \/ bg = Some c ->
              text_cell_inside x y (w * scale) (8 * scale) scale color bg
                (FillRect (x + tx * scale) (y + ty * scale) scale scale c)).
    { intros c Hc. unfold text_cell_inside.
      split; [reflexivity |]. split; [reflexivity |].
      split; [nia |]. split; [nia |]. split; [nia |]. split; [nia |].
      exact Hc. }
    cbn [fold_left]. unfold draw_text_scaled_at at 2.
    destruct (negb (pixel tx ty =? 0)) eqn:Epx.
    + destruct (IH (fun t Ht => Htx t (or_intror Ht))
                   (fb ++ [FillRect (x + tx * scale) (y + ty * scale)
                                    scale scale color]))
        as (calls & Hrun & Hall & Hle & Heq).
      exists (FillRect (x + tx * scale) (y + ty * scale) scale scale color
                :: calls).
      split; [rewrite Hrun, <- app_assoc; reflexivity |].
      split; [constructor; [apply Hcell; left; reflexivity | exact Hall] |].
      cbn [List.length]. split; [lia |].
      intros b Hb Hne. rewrite (Heq b Hb Hne). reflexivity.
    + destruct bg as [b |].
      * destruct (negb (b =? color)) eqn:Eb.
        -- destruct (IH (fun t Ht => Htx t (or_intror Ht))
                        (fb ++ [FillRect (x + tx * scale) (y + ty * scale)
                                         scale scale b]))
             as (calls & Hrun & Hall & Hle & Heq).
           exists (FillRect (x + tx * scale) (y + ty * scale) scale scale b
                     :: calls).
           split; [rewrite Hrun, <- app_assoc; reflexivity |].
           split; [constructor; [apply Hcell; right; reflexivity
                                | exact Hall] |].
           cbn [List.length]. split; [lia |].
           intros b' Hb Hne. rewrite (Heq b' Hb Hne). reflexivity.
        -- destruct (IH (fun t Ht => Htx t (or_intror Ht)) fb)
             as (calls & Hrun & Hall & Hle & Heq).
           exists calls. split; [exact Hrun |]. split; [exact Hall |].
           cbn [List.length]. split; [lia |].
           intros b' Hb Hne. injection Hb as ->.
           apply negb_false_iff, Z.eqb_eq in Eb. contradiction.
      * destruct (IH (fun t Ht => Htx t (or_intror Ht)) fb)
          as (calls & Hrun & Hall & Hle & Heq).
        exists calls. split; [exact Hrun |]. split; [exact Hall |].
        cbn [List.length]. split; [lia |].
        intros b Hb. discriminate.
Qed.

Lemma draw_text_scaled_rows (pixel : Z -> Z -> Z) (x y scale color : Z)
      (bg : option Z) (w : Z) (tys : list Z) :
  0 <= scale -> 0 <= w ->
  (forall ty, In ty tys -> 0 <= ty < 8) ->
  forall fb : list fill_rect_op,
  exists calls,
    fold_left
      (fun fb ty =>
         fold_left (fun fb tx => draw_text_scaled_at pixel fb x y scale color
                                                     bg ty tx)
                   (range w) fb) tys fb
    = fb ++ calls /\
    Forall (text_cell_inside x y (w * scale) (8 * scale) scale color bg)
           calls /\
    Z.of_nat (List.length calls) <= Z.of_nat (List.length tys) * w /\
    (forall b, bg = Some b -> b <> color ->
               Z.of_nat (List.length calls) = Z.of_nat (List.length tys) * w).
Proof.
  intros Hs Hw. induction tys as [| ty tys IH]; intros Hty fb.
  - exists []. rewrite app_nil_r. cbn [fold_left List.length].
    split; [reflexivity |]. split; [constructor |].
    split; [lia | intros; lia].
  - cbn [fold_left].
    assert (Hcols : forall tx, In tx (range w) -> 0 <= tx < w).
    { intros tx Hin. rewrite range_seq in Hin.
      apply in_map_iff in Hin. destruct Hin as (k & <- & Hk).
      apply in_seq in Hk. lia. }
    assert (Hn : Z.of_nat (List.length (range w)) = w).
    { rewrite range_seq, length_map, length_seq. lia. }
    destruct (draw_text_scaled_row pixel x y scale color bg ty w (range w)
                Hs (Hty ty (or_introl eq_refl)) Hcols fb)
      as (row & Hrow & Hrin & Hrle & Hreq).
    rewrite Hrow.
    destruct (IH (fun t Ht => Hty t (or_intror Ht)) (fb ++ row))
      as (calls & Hrun & Hall & Hle & Heq).
    exists (row ++ calls).
    split; [rewrite Hrun, <- app_assoc; reflexivity |].
    split; [apply Forall_app; split; assumption |].
    rewrite length_app. cbn [List.length]. split.
    + lia.
    + intros b Hb Hne. specialize (Heq b Hb Hne).
      specialize (Hreq b Hb Hne). lia.
Qed.

Lemma str_len_nonneg (s : string) : 0 <= str_len s.
Proof.
  induction s as [| c s IH]; cbn [str_len]; [lia |].
  destruct (is_continuation c); lia.
Qed.

(** X18: [draw_text_scaled] paints cells of [scale] by [scale] pixels,
    whatever the font renders.  For [scale >= 0] it keeps what the
    buffer held, and every [fill_rect] it adds is such a square inside
    the box of [8 * len(text) * scale] by [8 * scale] pixels at
    [(x, y)], in the colour [color] or the background colour; there are
    at most [64 * len(text)] of them, and exactly that many when a
    background different from [color] is given.  [len(text)] counts
    characters, not bytes. *)
Theorem draw_text_scaled_stays_in_box (pixel : Z -> Z -> Z)
        (fb : list fill_rect_op) (text : string)
        (x y scale color : Z) (bg : option Z) :
  0 <= scale ->
  let n := str_len text in
  exists calls,
    draw_text_scaled pixel fb text x y scale color bg = fb ++ calls /\
    Forall (text_cell_inside x y (8 * n * scale) (8 * scale) scale color bg)
           calls /\
    Z.of_nat (List.length calls) <= 64 * n /\
    (forall b, bg = Some b -> b <> color ->
               Z.of_nat (List.length calls) = 64 * n).
Proof.
  intros Hs n. unfold draw_text_scaled. fold n.
  assert (Hn : 0 <= n) by apply str_len_nonneg.
  assert (Hrows : forall ty, In ty (range 8) -> 0 <= ty < 8).
  { intros ty Hin. rewrite range_seq in Hin.
    apply in_map_iff in Hin. destruct Hin as (k & <- & Hk).
    apply in_seq in Hk. lia. }
  destruct (draw_text_scaled_rows pixel x y scale color bg (8 * n) (range 8)
              Hs ltac:(lia) Hrows fb) as (calls & Hrun & Hall & Hle & Heq).
  exists calls. split; [exact Hrun |]. split; [exact Hall |].
  change (Z.of_nat (List.length (range 8))) with 8 in Hle, Heq.
  split; [lia |]. intros b Hb Hne. rewrite (Heq b Hb Hne). lia.
Qed.

(** The witness is the price with the euro sign, [95.123 ] and the
    three bytes E2 82 AC: eight characters in ten bytes. *)
Lemma draw_text_scaled_stays_in_box_witness :
  let euro := String (Ascii.ascii_of_nat 226)
                (String (Ascii.ascii_of_nat 130)
                   (String (Ascii.ascii_of_nat 172) EmptyString)) in
  let text := String.append "95.123 " euro in
  0 <= 2 /\ String.length text = 10%nat /\ str_len text = 8 /\
  exists calls,
    draw_text_scaled (fun tx ty => if tx =? ty then 1 else 0) []
                     text 120 5 2 FG_COLOR (Some BG_COLOR)
    = [] ++ calls /\
    Forall (text_cell_inside 120 5 128 16 2 FG_COLOR (Some BG_COLOR)) calls /\
    Z.of_nat (List.length calls) = 512.
Proof.
  cbv zeta.
  assert (Hs : 0 <= 2) by lia.
  split; [exact Hs |]. split; [reflexivity |]. split; [reflexivity |].
  destruct (draw_text_scaled_stays_in_box
              (fun tx ty => if tx =? ty then 1 else 0) []
              (String.append "95.123 "
                 (String (Ascii.ascii_of_nat 226)
                    (String (Ascii.ascii_of_nat 130)
                       (String (Ascii.ascii_of_nat 172) EmptyString))))
              120 5 2 FG_COLOR (Some BG_COLOR) Hs)
    as (calls & Hrun & Hall & _ & Heq).
  exists calls. split; [exact Hrun |]. split; [exact Hall |].
  apply (Heq BG_COLOR eq_refl). discriminate.
Defined.

(** ** _manual_get_json *)

Lemma drop_prefix_app (p s rest : string) :
  drop_prefix p s = Some rest -> s = String.append p rest.
Proof.
  revert s. induction p as [| c p IH]; intros s Hd; cbn in Hd |- *.
  - injection Hd as ->. reflexivity.
  - destruct s as [| d s]; [discriminate |].
    destruct (Ascii.eqb c d) eqn:E; [| discriminate].
    apply Ascii.eqb_eq in E. subst d. f_equal. apply IH. exact Hd.
Qed.

Lemma split_once_app (sep s before after : string) :
  split_once sep s = Some (before, after) ->
  s = String.append before (String.append sep after).
Proof.
  revert before after. induction s as [| c s IH]; intros before after Hs.
  - cbn [split_once] in Hs.
    destruct (drop_prefix sep EmptyString) as [rest |] eqn:Ed;
      [| discriminate].
    injection Hs as <- <-. cbn [String.append].
    apply drop_prefix_app. exact Ed.
  - cbn [split_once] in Hs.
    destruct (drop_prefix sep (String c s)) as [rest |] eqn:Ed.
    + injection Hs as <- <-. cbn [String.append].
      apply drop_prefix_app. exact Ed.
    + destruct (split_once sep s) as [[b a] |] eqn:Es; [| discriminate].
      injection Hs as <- <-. cbn [String.append]. f_equal.
      apply IH. reflexivity.
Qed.

Lemma split_once_char_first (ch : Ascii.ascii) (s before after : string) :
  split_once (String ch EmptyString) s = Some (before, after) ->
  split_once (String ch EmptyString) before = None.
Proof.
  revert before after. induction s as [| c s IH]; intros before after Hs.
  - cbn in Hs. discriminate.
  - cbn [split_once drop_prefix] in Hs.
    destruct (Ascii.eqb ch c) eqn:E.
    + injection Hs as <- <-. reflexivity.
    + destruct (split_once (String ch EmptyString) s) as [[b a] |] eqn:Es;
        [| discriminate].
      injection Hs as <- <-. cbn [split_once drop_prefix]. rewrite E.
      rewrite (IH b a eq_refl). reflexivity.
Qed.

(** X19: how [_manual_get_json] reads a URL.  Without ["://"] in the URL
    it raises [ValueError].  Otherwise the URL is taken apart without
    loss: scheme, ["://"], host and path give back the URL, or, when
    there is no ["/"] after the scheme, the path is ["/"] and scheme,
    ["://"] and host give back the URL.  The host contains no ["/"], the
    path starts with one, and the port is 443 for the scheme ["https"]
    and 80 for every other. *)
Theorem manual_get_json_url_parts (url : string) :
  (str_in "://" url = false ->
   _manual_get_json_target url = Raise ValueError) /\
  (str_in "://" url = true ->
   exists scheme host tail : string,
     _manual_get_json_target url =
     Ok (scheme, host, String.append "/" tail,
         if String.eqb scheme "https" then 443 else 80) /\
     str_in "/" host = false /\
     (String.append scheme
        (String.append "://" (String.append host (String.append "/" tail)))
      = url \/
      tail = EmptyString /\
      String.append scheme (String.append "://" host) = url)).
Proof.
  unfold _manual_get_json_target, split1, str_in.
  destruct (split_once "://" url) as [[scheme rest] |] eqn:Eu.
  - split; [discriminate |]. intros _.
    assert (Hurl := split_once_app _ _ _ _ Eu).
    destruct (split_once "/" rest) as [[host path] |] eqn:Er.
    + cbn [bind fst snd]. exists scheme, host, path.
      split; [reflexivity |].
      rewrite (split_once_char_first _ _ _ _ Er).
      split; [reflexivity |]. left.
      assert (Hrest := split_once_app _ _ _ _ Er).
      rewrite <- Hrest. symmetry. exact Hurl.
    + cbn [bind fst snd]. exists scheme, rest, EmptyString.
      split; [reflexivity |]. split; [rewrite Er; reflexivity |]. right.
      split; [reflexivity |]. symmetry. exact Hurl.
  - split; [reflexivity | discriminate].
Qed.

Lemma manual_get_json_url_parts_witness :
  str_in "://" "https://api.coingecko.com/api/v3/simple/price" = true /\
  exists scheme host tail : string,
    _manual_get_json_target "https://api.coingecko.com/api/v3/simple/price" =
    Ok (scheme, host, String.append "/" tail,
        if String.eqb scheme "https" then 443 else 80) /\
    str_in "/" host = false.
Proof.
  assert (Hin : str_in "://" "https://api.coingecko.com/api/v3/simple/price"
                = true) by reflexivity.
  split; [exact Hin |].
  destruct (proj2 (manual_get_json_url_parts
                     "https://api.coingecko.com/api/v3/simple/price") Hin)
    as (scheme & host & tail & Hrun & Hhost & _).
  exists scheme, host, tail. split; [exact Hrun | exact Hhost].
Defined.
